(** * Immich album downloader: task store, chunk store and letterbox resize

    A shallow embedding of [frontend/src/database_async.py] (class
    [AsyncDatabase]), of [frontend/src/processor.py] (class
    [ImageProcessor]) and of the constructor of [ImmichApi] in
    [frontend/src/api.py], followed by the properties of the specification
    that concern them and by further properties of the code.
    [frontend/src/database.py] holds the same statements in methods that
    are plain [def]s with [await] inside; Python refuses to compile such a
    module, so it has no behaviour of its own and the embedding is that of
    [database_async.py].

    Part I holds the embedding, Part II the properties.

    Conventions of the embedding.
    - Python [int] is [Z]; [//] and [%] are [Z.div] and [Z.modulo], which
      floor and take the sign of the divisor exactly as Python does.
    - Python [float] is IEEE 754 binary64; a finite value is represented by
      the rational it denotes, and every operation rounds the exact result
      to 53 significant bits, ties to even (module [PyFloat]).
    - [try]/[except] and the mutable world are a state-and-exception monad
      ([Eff]).
    - What a method does on one connection, a statement with its [commit]
      or a [SELECT] with its fetch, is one unit of work. Whether the store
      is busy when a unit runs is an input of the model: the world carries
      a schedule of faults, one entry per unit of work. Reads are subject
      to it as writes are: every connection that reaches the database is
      opened with [aiosqlite.connect], in SQLite's default journal mode, in
      which a reader waits for a writer that holds the file and gives up
      when the busy timeout has passed.
    - Calls are run one after the other; interleaving inside a call is not
      modelled.
    - [self._get_connection] is an [async def]. Calling it gives a
      coroutine, which is no asynchronous context manager, so
      [async with self._get_connection() as conn] raises [TypeError] before
      its block is entered ([AttributeError] before Python 3.11; no handler
      of the source catches either). The blocks are embedded as written,
      under [async_with], which shows that they never run; in particular
      the PRAGMAs of [_get_connection] are never executed.
    - An integer is bound to a statement as a 64-bit value: [sqlite3] raises
      [OverflowError] for one outside that range. This is modelled for the
      integers of [add_resize_profile] and [update_resize_profile], which
      reach the statement as the user gives them. The ids, counts and sizes
      handed to the other methods are taken to be within 64 bits.
    - Pillow is a library: its resampling filter is a parameter. Its
      refusals that the code can meet with integer sides are modelled:
      [resize] refuses a side below 1 (and copies the picture when the size
      is its own), [Image.new] refuses a negative side. Limits of the
      machine and of the JPEG format (the memory a picture takes, a side
      above 65500) are not modelled. So is [hashlib] a library: the digest
      of a password is a parameter.
    - The file system is a set of directories and a map of files. The
      working directory is taken to be writable: [os.makedirs] and [save]
      do not fail for want of permission or space, or because a file
      stands where a directory is to be made.
    - A table scan without ORDER BY yields the rows in the order of their
      row ids; rows that an ORDER BY leaves tied come in the order the
      model's sort gives, and no property depends on it. *)

From Stdlib Require Import ZArith QArith Qround Qabs Qpower Lqa Lia List Sorted.
From Stdlib Require Import Strings.Byte Strings.Ascii Floats.SpecFloat.
From stdpp Require Import gmap strings list.
From stdpp Require sorting pretty.

Local Open Scope Z_scope.

(* ===================================================================== *)
(** * Part I. The embedding                                               *)
(* ===================================================================== *)

(** ** Python runtime: exceptions, results, effects *)

Inductive exn : Type :=
| OperationalError (msg : string)
| IntegrityError (msg : string)
| ZeroDivisionError (msg : string)
| TypeError (msg : string)
| ValueError (msg : string)
| OverflowError (msg : string)
| FileNotFoundError (msg : string).

(** [str(e)] *)
Definition exn_str (e : exn) : string :=
  match e with
  | OperationalError m | IntegrityError m | ZeroDivisionError m
  | TypeError m | ValueError m | OverflowError m | FileNotFoundError m => m
  end.

Definition is_OperationalError (e : exn) : bool :=
  match e with OperationalError _ => true | _ => false end.

(** [except Exception] *)
Definition is_Exception (e : exn) : bool := true.

Inductive result (A : Type) : Type :=
| Returned (a : A)
| Raised (e : exn).
Arguments Returned {A} a.
Arguments Raised {A} e.

(** State and exceptions: a computation maps the world before to an outcome
    and the world after. A raised exception keeps the effects made so far. *)
Definition Eff (S A : Type) : Type := S -> result A * S.

Definition ret {S A} (a : A) : Eff S A := fun s => (Returned a, s).

Definition raise {S A} (e : exn) : Eff S A := fun s => (Raised e, s).

Definition bind {S A B} (c : Eff S A) (k : A -> Eff S B) : Eff S B :=
  fun s =>
    match c s with
    | (Returned a, s') => k a s'
    | (Raised e, s') => (Raised e, s')
    end.

(** [try: body / except <class> as e: handler e] *)
Definition try_except {S A} (body : Eff S A) (class : exn -> bool)
    (handler : exn -> Eff S A) : Eff S A :=
  fun s =>
    match body s with
    | (Returned a, s') => (Returned a, s')
    | (Raised e, s') => if class e then handler e s' else (Raised e, s')
    end.

Definition lift_result {S A} (r : result A) : Eff S A := fun s => (r, s).

(** What stands after [async with]: an object that has [__aenter__] and
    [__aexit__], as the connection that [aiosqlite.connect] returns, or one
    that has not, as the coroutine that the call of an [async def] returns. *)
Inductive async_manager : Type :=
| ContextManager
| Coroutine.

(** [async with m as conn: block]. Python looks up [__aenter__] before it
    enters the block; without it the statement raises and nothing of the
    block runs. *)
Definition not_a_context_manager : string :=
  "'coroutine' object does not support the asynchronous context manager protocol".

Definition async_with {S A} (m : async_manager) (block : Eff S A) : Eff S A :=
  match m with
  | ContextManager => block
  | Coroutine => raise (TypeError not_a_context_manager)
  end.

Declare Scope eff_scope.
Delimit Scope eff_scope with eff.
Notation "x <- c ;; k" := (bind c (fun x => k))
  (at level 100, c at next level, right associativity) : eff_scope.
Notation "c ;;; k" := (bind c (fun _ => k))
  (at level 100, right associativity) : eff_scope.
Local Open Scope eff_scope.

Definition bytes : Type := list byte.

(** Values of a decoded JSON document (an album record of the gallery). *)
#[warnings="-register-all"]
Inductive pyval : Type :=
| PyNone
| PyBool (b : bool)
| PyInt (n : Z)
| PyStr (s : string)
| PyList (l : list pyval)
| PyDict (kv : list (string * pyval)).

(** [bool(v)] *)
Definition truthy (v : pyval) : bool :=
  match v with
  | PyNone => false
  | PyBool b => b
  | PyInt n => negb (n =? 0)
  | PyStr s => negb (String.eqb s "")
  | PyList l => match l with [] => false | _ => true end
  | PyDict kv => match kv with [] => false | _ => true end
  end.

(** [a or b]: the first operand when it is truthy, else the second. *)
Definition py_or (a b : pyval) : pyval := if truthy a then a else b.

(** [isinstance(v, list)] *)
Definition isinstance_list (v : pyval) : bool :=
  match v with PyList _ => true | _ => false end.

(** [d.get(k)] and [d.get(k, default)] *)
Definition dict_get (d : gmap string pyval) (k : string) : pyval :=
  default PyNone (d !! k).

Definition dict_get_default (d : gmap string pyval) (k : string) (dflt : pyval) : pyval :=
  default dflt (d !! k).

(** [len(x)] for a list or a byte string *)
Definition len {A} (l : list A) : Z := Z.of_nat (length l).

(** [sum(...)] over integers *)
Definition sum_Z (l : list Z) : Z := fold_right Z.add 0 l.

(** [len(v)] on a JSON value *)
Definition py_len (v : pyval) : result pyval :=
  match v with
  | PyList l => Returned (PyInt (len l))
  | PyStr s => Returned (PyInt (Z.of_nat (String.length s)))
  | PyDict kv => Returned (PyInt (len kv))
  | _ => Raised (TypeError "object has no len()")
  end.

(** Truthiness of an optional argument whose default is [None]:
    [if status:] is false for [None] and for the empty string. *)
Definition truthy_str (o : option string) : option string :=
  match o with
  | Some s => if String.eqb s "" then None else Some s
  | None => None
  end.

Definition truthy_bytes (o : option bytes) : option bytes :=
  match o with
  | Some [] => None
  | Some b => Some b
  | None => None
  end.

(** ** The persistent store (database_async.py, init_database) *)

Module Store.

Definition timestamp : Type := Z.

(** Table [downloaded_albums]. *)
Record downloaded_album := {
  da_id : Z;
  da_album_id : string;
  da_album_name : string;
  da_photo_count : Z;
  da_total_size : Z;
  da_chunk_count : Z;
}.

(** Table [album_chunks]; [UNIQUE(album_id, chunk_index)]. *)
Record album_chunk := {
  ac_album_id : Z;
  ac_chunk_index : Z;
  ac_chunk_data : bytes;
  ac_chunk_size : Z;
  ac_photo_count : Z;
}.

(** Table [download_tasks], keyed by its primary key [id]. *)
Record download_task := {
  dt_album_id : string;
  dt_album_name : string;
  dt_status : string;
  dt_progress : Z;
  dt_total : Z;
  dt_current_step : option string;
  dt_created_at : timestamp;
  dt_completed_at : option timestamp;
}.

(** Table [resize_tasks], keyed by its primary key [id]. *)
Record resize_task := {
  rt_downloaded_album_id : Z;
  rt_profile_id : Z;
  rt_status : string;
  rt_progress : Z;
  rt_total : Z;
  rt_current_step : option string;
  rt_zip_data : option bytes;
  rt_zip_size : Z;
  rt_processed_count : Z;
  rt_created_at : timestamp;
  rt_completed_at : option timestamp;
}.

(** The database file. [downloaded_albums_seq] is the AUTOINCREMENT
    counter of [downloaded_albums]: the largest row id handed out so far. *)
Record db := {
  downloaded_albums : list downloaded_album;
  downloaded_albums_seq : N;
  album_chunks : list album_chunk;
  download_tasks : gmap string download_task;
  resize_tasks : gmap string resize_task;
}.

Definition empty_db : db :=
  {| downloaded_albums := []; downloaded_albums_seq := 0%N; album_chunks := [];
     download_tasks := ∅; resize_tasks := ∅ |}.

(** What a caller and the environment see: the database, standard output,
    the clock behind [CURRENT_TIMESTAMP], and for each coming unit of work
    whether the store refuses it ([Some msg]: the unit raises
    [OperationalError msg], for instance "database is locked" once the busy
    timeout has passed; [None]: it commits). A schedule that has run out
    schedules no fault. *)
Record world := {
  w_db : db;
  w_stdout : list string;
  w_faults : list (option string);
  w_now : timestamp;
}.

Definition set_db (d : db) (w : world) : world :=
  {| w_db := d; w_stdout := w_stdout w; w_faults := w_faults w; w_now := w_now w |}.

Definition set_faults (f : list (option string)) (w : world) : world :=
  {| w_db := w_db w; w_stdout := w_stdout w; w_faults := f; w_now := w_now w |}.

(** [print(line)] *)
Definition print (line : string) : Eff world unit :=
  fun w => (Returned tt,
            {| w_db := w_db w; w_stdout := w_stdout w ++ [line];
               w_faults := w_faults w; w_now := w_now w |}).

(** A statement is a function of the clock and the database that either
    violates a constraint or yields a value and the new database. *)
Definition statement (A : Type) : Type := timestamp -> db -> result (A * db).

(** One unit of work: open a connection, execute the statement, commit.
    A refused unit leaves the database as it was. *)
Definition transaction {A} (stmt : statement A) : Eff world A :=
  fun w =>
    match w_faults w with
    | Some msg :: rest => (Raised (OperationalError msg), set_faults rest w)
    | fs =>
        match stmt (w_now w) (w_db w) with
        | Returned (a, d) => (Returned a, set_db d (set_faults (tail fs) w))
        | Raised e => (Raised e, set_faults (tail fs) w)
        end
    end.

(** A [SELECT] with its fetch, on a connection of its own: a unit of work
    like any other. A refused read raises; a read changes no table. *)
Definition query {A} (q : db -> A) : Eff world A :=
  fun w =>
    match w_faults w with
    | Some msg :: rest => (Raised (OperationalError msg), set_faults rest w)
    | fs => (Returned (q (w_db w)), set_faults (tail fs) w)
    end.

(** [self._get_connection()] (lines 22-30): the call of an [async def]. It
    is not awaited, so none of its body runs: no connection is opened and
    no PRAGMA is executed. *)
Definition _get_connection : async_manager := Coroutine.

(** [INSERT INTO downloaded_albums (...) VALUES (?, ?, ?, ?, ?)];
    the value is [cursor.lastrowid]. *)
Definition insert_downloaded_album (album_id album_name : string)
    (photo_count total_size chunk_count : Z) : statement Z :=
  fun _ d =>
    let rowid := Z.of_N (downloaded_albums_seq d + 1) in
    Returned (rowid,
      {| downloaded_albums :=
           downloaded_albums d ++
           [ {| da_id := rowid; da_album_id := album_id; da_album_name := album_name;
                da_photo_count := photo_count; da_total_size := total_size;
                da_chunk_count := chunk_count |} ];
         downloaded_albums_seq := (downloaded_albums_seq d + 1)%N;
         album_chunks := album_chunks d;
         download_tasks := download_tasks d;
         resize_tasks := resize_tasks d |}).

Definition same_chunk_key (a b : album_chunk) : bool :=
  (ac_album_id a =? ac_album_id b) && (ac_chunk_index a =? ac_chunk_index b).

(** [INSERT INTO album_chunks (...) VALUES (?, ?, ?, ?, ?)] *)
Definition insert_album_chunk (row : album_chunk) : statement unit :=
  fun _ d =>
    if existsb (same_chunk_key row) (album_chunks d)
    then Raised (IntegrityError
                   "UNIQUE constraint failed: album_chunks.album_id, album_chunks.chunk_index")
    else Returned (tt,
      {| downloaded_albums := downloaded_albums d;
         downloaded_albums_seq := downloaded_albums_seq d;
         album_chunks := album_chunks d ++ [row];
         download_tasks := download_tasks d;
         resize_tasks := resize_tasks d |}).

(** *** save_downloaded_album_chunked (database_async.py 237-269) *)

(** The image count written with chunk [i] of [n]:
    [photo_count // len(chunks) + (1 if i < photo_count % len(chunks) else 0)] *)
Definition chunk_photo_count (photo_count n i : Z) : Z :=
  photo_count / n + (if i <? photo_count mod n then 1 else 0).

Definition chunk_row (album_db_id photo_count n i : Z) (chunk_data : bytes) : album_chunk :=
  {| ac_album_id := album_db_id; ac_chunk_index := i; ac_chunk_data := chunk_data;
     ac_chunk_size := len chunk_data;
     ac_photo_count := chunk_photo_count photo_count n i |}.

(** [for i, chunk_data in enumerate(chunks):] one unit of work per chunk,
    each under an [async with self._get_connection()] of its own. [n] is
    [len(chunks)] of the whole list, [i] the index reached. *)
Fixpoint save_chunks_from (album_db_id photo_count n i : Z) (rest : list bytes)
    : Eff world unit :=
  match rest with
  | [] => ret tt
  | chunk_data :: rest' =>
      async_with _get_connection
        (transaction
           (insert_album_chunk (chunk_row album_db_id photo_count n i chunk_data))) ;;;
      save_chunks_from album_db_id photo_count n (i + 1) rest'
  end.

Definition save_downloaded_album_chunked (album_id album_name : string)
    (photo_count : Z) (chunks : list bytes) : Eff world Z :=
  try_except
    (async_with _get_connection
       (album_db_id <-
          transaction
            (insert_downloaded_album album_id album_name photo_count
               (sum_Z (map len chunks)) (len chunks)) ;;
        save_chunks_from album_db_id photo_count (len chunks) 0 chunks ;;;
        ret album_db_id))
    is_OperationalError
    (fun e =>
       print ("Database error in save_downloaded_album_chunked: " ++ exn_str e) ;;;
       ret (-1)).

(** *** Task records (database_async.py 300-412) *)

(** One [column = ?] (or [column = CURRENT_TIMESTAMP]) of an [UPDATE ... SET]
    list: a function of the statement's clock and the row. *)
Definition assignment (R : Type) : Type := timestamp -> R -> R.

(** The [SET] list applied to a row, left to right. *)
Definition apply_updates {R} (updates : list (assignment R)) (now : timestamp) (r : R) : R :=
  fold_left (fun r u => u now r) updates r.

Definition set_dt_status (s : string) : assignment download_task := fun _ r =>
  {| dt_album_id := dt_album_id r; dt_album_name := dt_album_name r; dt_status := s;
     dt_progress := dt_progress r; dt_total := dt_total r;
     dt_current_step := dt_current_step r; dt_created_at := dt_created_at r;
     dt_completed_at := dt_completed_at r |}.

Definition stamp_dt_completed_at : assignment download_task := fun now r =>
  {| dt_album_id := dt_album_id r; dt_album_name := dt_album_name r;
     dt_status := dt_status r; dt_progress := dt_progress r; dt_total := dt_total r;
     dt_current_step := dt_current_step r; dt_created_at := dt_created_at r;
     dt_completed_at := Some now |}.

Definition set_dt_progress (p : Z) : assignment download_task := fun _ r =>
  {| dt_album_id := dt_album_id r; dt_album_name := dt_album_name r;
     dt_status := dt_status r; dt_progress := p; dt_total := dt_total r;
     dt_current_step := dt_current_step r; dt_created_at := dt_created_at r;
     dt_completed_at := dt_completed_at r |}.

Definition set_dt_current_step (c : string) : assignment download_task := fun _ r =>
  {| dt_album_id := dt_album_id r; dt_album_name := dt_album_name r;
     dt_status := dt_status r; dt_progress := dt_progress r; dt_total := dt_total r;
     dt_current_step := Some c; dt_created_at := dt_created_at r;
     dt_completed_at := dt_completed_at r |}.

Definition set_dt_total (t : Z) : assignment download_task := fun _ r =>
  {| dt_album_id := dt_album_id r; dt_album_name := dt_album_name r;
     dt_status := dt_status r; dt_progress := dt_progress r; dt_total := t;
     dt_current_step := dt_current_step r; dt_created_at := dt_created_at r;
     dt_completed_at := dt_completed_at r |}.

Definition with_download_tasks (t : gmap string download_task) (d : db) : db :=
  {| downloaded_albums := downloaded_albums d;
     downloaded_albums_seq := downloaded_albums_seq d;
     album_chunks := album_chunks d;
     download_tasks := t;
     resize_tasks := resize_tasks d |}.

Definition with_resize_tasks (t : gmap string resize_task) (d : db) : db :=
  {| downloaded_albums := downloaded_albums d;
     downloaded_albums_seq := downloaded_albums_seq d;
     album_chunks := album_chunks d;
     download_tasks := download_tasks d;
     resize_tasks := t |}.

(** [UPDATE download_tasks SET <updates> WHERE id = ?]: a missing id
    updates no row. *)
Definition update_download_tasks (updates : list (assignment download_task))
    (task_id : string) : statement unit :=
  fun now d =>
    Returned (tt, with_download_tasks
                    (alter (apply_updates updates now) task_id (download_tasks d)) d).

(** [INSERT INTO download_tasks (id, album_id, album_name, total, status,
    current_step) VALUES (?, ?, ?, ?, 'pending', 'Initializing...')] *)
Definition insert_download_task (task_id album_id album_name : string) (total : Z)
    : statement unit :=
  fun now d =>
    match download_tasks d !! task_id with
    | Some _ => Raised (IntegrityError "UNIQUE constraint failed: download_tasks.id")
    | None =>
        Returned (tt, with_download_tasks
          (<[task_id :=
               {| dt_album_id := album_id; dt_album_name := album_name;
                  dt_status := "pending"; dt_progress := 0; dt_total := total;
                  dt_current_step := Some "Initializing...";
                  dt_created_at := now; dt_completed_at := None |}]>
             (download_tasks d)) d)
    end.

Definition create_download_task (task_id album_id album_name : string) (total : Z)
    : Eff world unit :=
  transaction (insert_download_task task_id album_id album_name total).

Definition update_download_task (task_id : string) (status : option string)
    (progress : option Z) (current_step : option string) : Eff world unit :=
  let updates := [] in
  let updates :=
    match truthy_str status with
    | Some s =>
        let updates := updates ++ [set_dt_status s] in
        if String.eqb s "completed" then updates ++ [stamp_dt_completed_at] else updates
    | None => updates
    end in
  let updates :=
    match progress with
    | Some p => updates ++ [set_dt_progress p]
    | None => updates
    end in
  let updates :=
    match truthy_str current_step with
    | Some c => updates ++ [set_dt_current_step c]
    | None => updates
    end in
  match updates with
  | [] => ret tt
  | _ =>
      try_except
        (async_with _get_connection
           (transaction (update_download_tasks updates task_id)))
        is_OperationalError
        (fun e => print ("Database error in update_download_task: " ++ exn_str e))
  end.

Definition update_download_task_total (task_id : string) (total : Z) : Eff world unit :=
  try_except
    (async_with _get_connection
       (transaction (update_download_tasks [set_dt_total total] task_id)))
    is_OperationalError
    (fun e => print ("Database error in update_download_task_total: " ++ exn_str e)).

Definition set_rt_status (s : string) : assignment resize_task := fun _ r =>
  {| rt_downloaded_album_id := rt_downloaded_album_id r; rt_profile_id := rt_profile_id r;
     rt_status := s; rt_progress := rt_progress r; rt_total := rt_total r;
     rt_current_step := rt_current_step r; rt_zip_data := rt_zip_data r;
     rt_zip_size := rt_zip_size r; rt_processed_count := rt_processed_count r;
     rt_created_at := rt_created_at r; rt_completed_at := rt_completed_at r |}.

Definition stamp_rt_completed_at : assignment resize_task := fun now r =>
  {| rt_downloaded_album_id := rt_downloaded_album_id r; rt_profile_id := rt_profile_id r;
     rt_status := rt_status r; rt_progress := rt_progress r; rt_total := rt_total r;
     rt_current_step := rt_current_step r; rt_zip_data := rt_zip_data r;
     rt_zip_size := rt_zip_size r; rt_processed_count := rt_processed_count r;
     rt_created_at := rt_created_at r; rt_completed_at := Some now |}.

Definition set_rt_progress (p : Z) : assignment resize_task := fun _ r =>
  {| rt_downloaded_album_id := rt_downloaded_album_id r; rt_profile_id := rt_profile_id r;
     rt_status := rt_status r; rt_progress := p; rt_total := rt_total r;
     rt_current_step := rt_current_step r; rt_zip_data := rt_zip_data r;
     rt_zip_size := rt_zip_size r; rt_processed_count := rt_processed_count r;
     rt_created_at := rt_created_at r; rt_completed_at := rt_completed_at r |}.

Definition set_rt_current_step (c : string) : assignment resize_task := fun _ r =>
  {| rt_downloaded_album_id := rt_downloaded_album_id r; rt_profile_id := rt_profile_id r;
     rt_status := rt_status r; rt_progress := rt_progress r; rt_total := rt_total r;
     rt_current_step := Some c; rt_zip_data := rt_zip_data r;
     rt_zip_size := rt_zip_size r; rt_processed_count := rt_processed_count r;
     rt_created_at := rt_created_at r; rt_completed_at := rt_completed_at r |}.

Definition set_rt_zip_data (z : bytes) : assignment resize_task := fun _ r =>
  {| rt_downloaded_album_id := rt_downloaded_album_id r; rt_profile_id := rt_profile_id r;
     rt_status := rt_status r; rt_progress := rt_progress r; rt_total := rt_total r;
     rt_current_step := rt_current_step r; rt_zip_data := Some z;
     rt_zip_size := rt_zip_size r; rt_processed_count := rt_processed_count r;
     rt_created_at := rt_created_at r; rt_completed_at := rt_completed_at r |}.

Definition set_rt_zip_size (n : Z) : assignment resize_task := fun _ r =>
  {| rt_downloaded_album_id := rt_downloaded_album_id r; rt_profile_id := rt_profile_id r;
     rt_status := rt_status r; rt_progress := rt_progress r; rt_total := rt_total r;
     rt_current_step := rt_current_step r; rt_zip_data := rt_zip_data r;
     rt_zip_size := n; rt_processed_count := rt_processed_count r;
     rt_created_at := rt_created_at r; rt_completed_at := rt_completed_at r |}.

Definition set_rt_processed_count (n : Z) : assignment resize_task := fun _ r =>
  {| rt_downloaded_album_id := rt_downloaded_album_id r; rt_profile_id := rt_profile_id r;
     rt_status := rt_status r; rt_progress := rt_progress r; rt_total := rt_total r;
     rt_current_step := rt_current_step r; rt_zip_data := rt_zip_data r;
     rt_zip_size := rt_zip_size r; rt_processed_count := n;
     rt_created_at := rt_created_at r; rt_completed_at := rt_completed_at r |}.

Definition set_rt_total (t : Z) : assignment resize_task := fun _ r =>
  {| rt_downloaded_album_id := rt_downloaded_album_id r; rt_profile_id := rt_profile_id r;
     rt_status := rt_status r; rt_progress := rt_progress r; rt_total := t;
     rt_current_step := rt_current_step r; rt_zip_data := rt_zip_data r;
     rt_zip_size := rt_zip_size r; rt_processed_count := rt_processed_count r;
     rt_created_at := rt_created_at r; rt_completed_at := rt_completed_at r |}.

(** [UPDATE resize_tasks SET <updates> WHERE id = ?] *)
Definition update_resize_tasks (updates : list (assignment resize_task))
    (task_id : string) : statement unit :=
  fun now d =>
    Returned (tt, with_resize_tasks
                    (alter (apply_updates updates now) task_id (resize_tasks d)) d).

(** [INSERT INTO resize_tasks (id, downloaded_album_id, profile_id, total,
    status, current_step) VALUES (?, ?, ?, ?, 'pending', 'Initializing...')] *)
Definition insert_resize_task (task_id : string) (downloaded_album_id profile_id total : Z)
    : statement unit :=
  fun now d =>
    match resize_tasks d !! task_id with
    | Some _ => Raised (IntegrityError "UNIQUE constraint failed: resize_tasks.id")
    | None =>
        Returned (tt, with_resize_tasks
          (<[task_id :=
               {| rt_downloaded_album_id := downloaded_album_id;
                  rt_profile_id := profile_id;
                  rt_status := "pending"; rt_progress := 0; rt_total := total;
                  rt_current_step := Some "Initializing...";
                  rt_zip_data := None; rt_zip_size := 0; rt_processed_count := 0;
                  rt_created_at := now; rt_completed_at := None |}]>
             (resize_tasks d)) d)
    end.

Definition create_resize_task (task_id : string) (downloaded_album_id profile_id total : Z)
    : Eff world unit :=
  transaction (insert_resize_task task_id downloaded_album_id profile_id total).

(** The keyword arguments of [update_resize_task], each [None] by default. *)
Record resize_update := {
  ru_status : option string;
  ru_progress : option Z;
  ru_current_step : option string;
  ru_zip_data : option bytes;
  ru_zip_size : option Z;
  ru_processed_count : option Z;
  ru_total : option Z;
}.

Definition update_resize_task (task_id : string) (a : resize_update) : Eff world unit :=
  let updates := [] in
  let updates :=
    match truthy_str (ru_status a) with
    | Some s =>
        let updates := updates ++ [set_rt_status s] in
        if String.eqb s "completed" then updates ++ [stamp_rt_completed_at] else updates
    | None => updates
    end in
  let updates :=
    match ru_progress a with
    | Some p => updates ++ [set_rt_progress p]
    | None => updates
    end in
  let updates :=
    match truthy_str (ru_current_step a) with
    | Some c => updates ++ [set_rt_current_step c]
    | None => updates
    end in
  let updates :=
    match truthy_bytes (ru_zip_data a) with
    | Some z => updates ++ [set_rt_zip_data z]
    | None => updates
    end in
  let updates :=
    match ru_zip_size a with
    | Some n => updates ++ [set_rt_zip_size n]
    | None => updates
    end in
  let updates :=
    match ru_processed_count a with
    | Some n => updates ++ [set_rt_processed_count n]
    | None => updates
    end in
  let updates :=
    match ru_total a with
    | Some t => updates ++ [set_rt_total t]
    | None => updates
    end in
  match updates with
  | [] => ret tt
  | _ => transaction (update_resize_tasks updates task_id)
  end.

(** *** get_resize_task_zip (database_async.py 462-470) *)

(** [SELECT zip_data FROM resize_tasks WHERE id = ? AND status = "completed"]
    followed by [fetchone()]: the one-column row, or [None]. *)
Definition select_completed_zip (task_id : string) (d : db) : option (option bytes) :=
  match resize_tasks d !! task_id with
  | Some r => if String.eqb (rt_status r) "completed" then Some (rt_zip_data r) else None
  | None => None
  end.

Definition get_resize_task_zip (task_id : string) : Eff world (option bytes) :=
  result <- query (select_completed_zip task_id) ;;
  ret (match result with
       | Some zip_data => zip_data   (* result[0] *)
       | None => None
       end).

(** *** The asset count of sync_immich_albums (database_async.py 209-212) *)

(** [album.get('assetCount') or album.get('assetCountTotal') or
     album.get('assets', []) if isinstance(album.get('assets'), list) else
     0 or len(album.get('assets', [])) if isinstance(album.get('assets'), list) else 0].
    A conditional expression binds weaker than [or] and nests to the right:
    [(a or b or c) if t else ((0 or len(c)) if t else 0)]. *)
Definition asset_count (album : gmap string pyval) : result pyval :=
  if isinstance_list (dict_get album "assets")
  then Returned (py_or (dict_get album "assetCount")
                   (py_or (dict_get album "assetCountTotal")
                      (dict_get_default album "assets" (PyList []))))
  else if isinstance_list (dict_get album "assets")
       then match py_len (dict_get_default album "assets" (PyList [])) with
            | Returned n => Returned (py_or (PyInt 0) n)
            | Raised e => Raised e
            end
       else Returned (PyInt 0).

(** *** Describing outcomes *)

(** The coming unit of work is refused. *)
Definition refused (w : world) : bool :=
  match w_faults w with
  | Some _ :: _ => true
  | _ => false
  end.


(** A fresh database, an idle store, the clock at zero. *)
Definition world0 : world :=
  {| w_db := empty_db; w_stdout := []; w_faults := []; w_now := 0 |}.

(** A download task as [create_download_task] leaves it. *)
Definition world_pending : world :=
  snd (create_download_task "t1" "a1" "Holiday" 10 world0).

(** What a unit of work gives in world [w] when the statement yields [a]:
    the store's refusal, or [a]. *)
Definition unless_refused {A} (w : world) (a : A) : result A :=
  match w_faults w with
  | Some msg :: _ => Raised (OperationalError msg)
  | _ => Returned a
  end.

(** The world once a unit of work has used its entry of the schedule. *)
Definition after_unit (w : world) : world := set_faults (tail (w_faults w)) w.



(** *** Sequences of task updates, and what a poller reads *)

(** A call an orchestrator makes on the task store. *)
Inductive task_call : Type :=
| UpdateDownload (task_id : string) (status : option string) (progress : option Z)
    (current_step : option string)
| UpdateDownloadTotal (task_id : string) (total : Z)
| UpdateResize (task_id : string) (a : resize_update).

Definition run_call (c : task_call) : Eff world unit :=
  match c with
  | UpdateDownload task_id status progress current_step =>
      update_download_task task_id status progress current_step
  | UpdateDownloadTotal task_id total => update_download_task_total task_id total
  | UpdateResize task_id a => update_resize_task task_id a
  end.

(** One call together with its environment: the time it is made at and
    how the store treats its units of work. *)
Record step := {
  s_now : timestamp;
  s_faults : list (option string);
  s_call : task_call;
}.

(** The world after the step, whether the call returned or raised. *)
Definition do_step (s : step) (w : world) : world :=
  snd (run_call (s_call s)
         {| w_db := w_db w; w_stdout := w_stdout w;
            w_faults := s_faults s; w_now := s_now s |}).

Inductive task_kind : Type := download | resize.

(** The [progress] column of a task's row, which is what a poller is to
    be shown. *)
Definition progress_of (k : task_kind) (task_id : string) (w : world) : option Z :=
  match k with
  | download => dt_progress <$> download_tasks (w_db w) !! task_id
  | resize => rt_progress <$> resize_tasks (w_db w) !! task_id
  end.



(** The keyword arguments of a call that passes only [status]. *)
Definition only_status (s : string) : resize_update :=
  {| ru_status := Some s; ru_progress := None; ru_current_step := None;
     ru_zip_data := None; ru_zip_size := None; ru_processed_count := None;
     ru_total := None |}.

(** The keyword arguments of a call that passes only [progress]. *)
Definition only_progress (p : Z) : resize_update :=
  {| ru_status := None; ru_progress := Some p; ru_current_step := None;
     ru_zip_data := None; ru_zip_size := None; ru_processed_count := None;
     ru_total := None |}.

(** A resize task built by the code itself next to the download task of
    [world_pending]: created, then set running with 5 of 10 pictures
    done. *)
Definition world_resizing : world :=
  snd (update_resize_task "r1"
         {| ru_status := Some "running"%string; ru_progress := Some 5;
            ru_current_step := Some "Resizing"%string; ru_zip_data := None;
            ru_zip_size := None; ru_processed_count := None; ru_total := None |}
         (snd (create_resize_task "r1" 1 1 10 world_pending))).

(** The same world with the store busy for the coming unit of work. *)
Definition busy (w : world) : world :=
  {| w_db := w_db w; w_stdout := w_stdout w;
     w_faults := [Some "database is locked"%string]; w_now := w_now w |}.

(** The priority list the specification proposes in place of the source's
    expression: the exact count field [assetCount] when the record has one,
    else the number of embedded assets, else zero. *)
Definition asset_count_by_precedence (album : gmap string pyval) : pyval :=
  match album !! "assetCount" with
  | Some (PyInt n) => PyInt n
  | _ =>
      match album !! "assets" with
      | Some (PyList l) => PyInt (len l)
      | _ => PyInt 0
      end
  end.

End Store.

(** ** Python floats *)

(** A finite binary64 value is represented by the rational number it
    denotes. Each operation computes the exact result and rounds it to the
    nearest number with a 53-bit significand, ties to even, as IEEE 754
    prescribes. The exponent is not bounded here: the model is that of
    binary64 wherever no overflow or underflow occurs, which covers every
    quotient and product of integers below 2^53 in absolute value. *)
Module PyFloat.

Local Open Scope Q_scope.

Definition float : Type := Q.

(** [2 ** e] *)
Definition pow2 (e : Z) : Q := Qpower 2 e.

(** [floor(log2 q)] for [q > 0] *)
Definition ilog2 (q : Q) : Z :=
  let k := (Z.log2 (Qnum q) - Z.log2 (Zpos (Qden q)))%Z in
  if Qle_bool (pow2 k) q then k else (k - 1)%Z.

(** The integer nearest to [s], ties to the even one. *)
Definition round_half_even (s : Q) : Z :=
  let f := Qfloor s in
  match Qcompare (s - inject_Z f) (1 # 2) with
  | Lt => f
  | Gt => (f + 1)%Z
  | Eq => if Z.even f then f else (f + 1)%Z
  end.

(** Rounding of a positive rational: scale it into [2^52, 2^53), round to
    an integer significand, scale back. *)
Definition rnd_pos (q : Q) : Q :=
  let e := (ilog2 q - 52)%Z in
  inject_Z (round_half_even (q / pow2 e)) * pow2 e.

Definition rnd53 (q : Q) : float :=
  Qred match Qcompare q 0 with
       | Eq => 0
       | Gt => rnd_pos q
       | Lt => - rnd_pos (- q)
       end.

(** [float(n)], the conversion an [int] operand undergoes next to a float *)
Definition of_int (n : Z) : float := rnd53 (inject_Z n).

(** [a / b] on two ints: the correctly rounded quotient *)
Definition int_truediv (a b : Z) : result float :=
  if (b =? 0)%Z then Raised (ZeroDivisionError "division by zero")
  else Returned (rnd53 (inject_Z a / inject_Z b)).

(** [n / x] for an int [n] and a float [x] *)
Definition int_div_float (n : Z) (x : float) : result float :=
  if Qeq_bool x 0 then Raised (ZeroDivisionError "float division by zero")
  else Returned (rnd53 (of_int n / x)).

(** [n * x] for an int [n] and a float [x] *)
Definition int_mul_float (n : Z) (x : float) : float := rnd53 (of_int n * x).

(** [x > y] *)
Definition gt (x y : float) : bool := negb (Qle_bool x y).

(** [int(x)]: truncation toward zero *)
Definition int_of_float (x : float) : Z :=
  if Qle_bool 0 x then Qfloor x else Qceiling x.

(** [round(x)]: the nearest integer, ties to even *)
Definition py_round (x : float) : Z := round_half_even x.

(** The unit roundoff of binary64: [2 ** -53]. *)
Definition unit_roundoff : Q := 1 # 9007199254740992.

(** For comparison: the IEEE 754 reference implementation of the Standard
    Library ([SpecFloat]), an integer as a binary64 number and the rational
    a finite binary64 number denotes. *)
Definition b64 (n : Z) : spec_float := binary_normalize 53 1024 n 0 false.

Definition sf_value (f : spec_float) : Q :=
  match f with
  | S754_finite s m e =>
      Qred ((if s then -1 else 1) * inject_Z (Zpos m) * Qpower 2 e)
  | _ => 0
  end.

End PyFloat.

(** ** The resize engine (processor.py) *)

Module Processor.

Import PyFloat.

(** [os.path.basename(p)]: what follows the last slash. *)
Fixpoint basename_from (acc p : string) : string :=
  match p with
  | EmptyString => acc
  | String c rest =>
      if Ascii.eqb c "/"%char then basename_from "" rest
      else basename_from (acc ++ String c "")%string rest
  end.

Definition basename (p : string) : string := basename_from "" p.

Fixpoint ends_with_slash (a : string) : bool :=
  match a with
  | EmptyString => false
  | String c EmptyString => Ascii.eqb c "/"%char
  | String _ rest => ends_with_slash rest
  end.

(** [os.path.join(a, b)] (POSIX): an absolute [b] replaces [a]. *)
Definition path_join (a b : string) : string :=
  match b with
  | String "/"%char _ => b
  | _ => if String.eqb a "" || ends_with_slash a then (a ++ b)%string
         else (a ++ "/" ++ b)%string
  end.

(** A pixel of an RGB image: no alpha channel, hence opaque. *)
Definition rgb : Type := Z * Z * Z.

(** A decoded picture. An image file is represented by the picture it
    decodes to once its EXIF orientation has been applied, so that
    [Image.open] followed by [ImageOps.exif_transpose] is a lookup. *)
Record image := {
  img_width : Z;
  img_height : Z;
  img_pixel : Z -> Z -> rgb;
}.

(** A resize profile, as the configuration supplies it. *)
Record profile := {
  profile_name : string;
  target_width : Z;
  target_height : Z;
  include_horizontal : bool;
  include_vertical : bool;
}.

(** [self.album_name], [self.profiles] *)
Record ImageProcessor := {
  album_name : string;
  profiles : list profile;
}.

(** The picture work a call performs, in order. *)
Inductive event : Type :=
| Decode (path : string)
| Resize (new_size : Z * Z)
| Paste (offset : Z * Z)
| Save (path : string).

(** The file system under the working directory, and the work done. *)
Record state := {
  dirs : gset string;
  files : gmap string image;
  work : list event;
}.

Definition log (e : event) : Eff state unit :=
  fun s => (Returned tt,
            {| dirs := dirs s; files := files s; work := work s ++ [e] |}).

(** [os.makedirs(d, exist_ok=True)] *)
Definition makedirs (d : string) : Eff state unit :=
  fun s => (Returned tt,
            {| dirs := {[ d ]} ∪ dirs s; files := files s; work := work s |}).

(** [os.path.exists(p)] *)
Definition path_exists (p : string) : Eff state bool :=
  fun s => (Returned (bool_decide (is_Some (files s !! p)) || bool_decide (p ∈ dirs s)), s).

(** [Image.open(p)] then [ImageOps.exif_transpose] *)
Definition image_open (p : string) : Eff state image :=
  fun s =>
    match files s !! p with
    | Some img => (Returned img, {| dirs := dirs s; files := files s;
                                    work := work s ++ [Decode p] |})
    | None => (Raised (FileNotFoundError ("No such file or directory: " ++ p)%string), s)
    end.

(** [img.save(p, "JPEG")] *)
Definition image_save (img : image) (p : string) : Eff state unit :=
  fun s => (Returned tt,
            {| dirs := dirs s; files := <[p := img]> (files s);
               work := work s ++ [Save p] |}).

(** [Image.new("RGB", size, color)]: Pillow refuses a negative side. *)
Definition image_new (size : Z * Z) (color : rgb) : result image :=
  if (fst size <? 0) || (snd size <? 0)
  then Raised (ValueError "Width and height must be >= 0")
  else Returned {| img_width := fst size; img_height := snd size;
                   img_pixel := fun _ _ => color |}.

(** [canvas.paste(im, (x0, y0))]: the pixels of the box that [im] covers are
    those of [im], the others stay. *)
Definition image_paste (canvas im : image) (offset : Z * Z) : image :=
  let '(x0, y0) := offset in
  {| img_width := img_width canvas;
     img_height := img_height canvas;
     img_pixel := fun x y =>
       if (x0 <=? x) && (x <? x0 + img_width im) && (y0 <=? y) && (y <? y0 + img_height im)
       then img_pixel im (x - x0) (y - y0)
       else img_pixel canvas x y |}.

(** Lines 51-62: the size of the scaled picture. *)
Definition letterbox_size (original_width original_height target_width target_height : Z)
    : result (Z * Z) :=
  match int_truediv original_width original_height with
  | Raised e => Raised e
  | Returned original_aspect =>
      match int_truediv target_width target_height with
      | Raised e => Raised e
      | Returned target_aspect =>
          if gt original_aspect target_aspect then
            let new_width := target_width in
            match int_div_float new_width original_aspect with
            | Raised e => Raised e
            | Returned h => Returned (new_width, int_of_float h)
            end
          else
            let new_height := target_height in
            Returned (int_of_float (int_mul_float new_height original_aspect), new_height)
      end
  end.

(** Lines 71-72: where the scaled picture goes on the canvas. *)
Definition paste_offset (target_width target_height new_width new_height : Z) : Z * Z :=
  ((target_width - new_width) / 2, (target_height - new_height) / 2).

(** Line 43: the profile does not take pictures of this orientation. *)
Definition orientation_skipped (is_horizontal : bool) (p : profile) : bool :=
  (is_horizontal && negb (include_horizontal p))
  || (negb is_horizontal && negb (include_vertical p)).

(** Line 47-48 and 77-78: where the output of a profile goes. *)
Definition output_path_of (self : ImageProcessor) (p : profile) (image_path : string)
    : string :=
  let output_dir_name := (album_name self ++ "_" ++ profile_name p)%string in
  let output_dir := path_join "resized" output_dir_name in
  path_join output_dir (basename image_path).

Section PIL.

(** Pillow's Lanczos resampling: the pixels of the picture scaled to a given
    size. The filter itself is outside the repository. *)
Variable lanczos : image -> Z * Z -> Z -> Z -> rgb.

(** [img.resize(size, Image.LANCZOS)]: a size that is the picture's own
    gives a copy of the picture; otherwise Pillow refuses a side below 1,
    and resamples. *)
Definition image_resize (img : image) (size : Z * Z) : result image :=
  if (fst size =? img_width img) && (snd size =? img_height img) then Returned img
  else if (fst size <? 1) || (snd size <? 1)
       then Raised (ValueError "height and width must be > 0")
       else Returned {| img_width := fst size; img_height := snd size;
                        img_pixel := lanczos img size |}.

(** Lines 64-75: scale, make the black canvas, paste centred. *)
Definition composite (img : image) (target_size new_size : Z * Z) : result image :=
  match image_resize img new_size with
  | Raised e => Raised e
  | Returned resized_img =>
      match image_new target_size (0, 0, 0) with
      | Raised e => Raised e
      | Returned new_img =>
          Returned (image_paste new_img resized_img
                      (paste_offset (fst target_size) (snd target_size)
                         (fst new_size) (snd new_size)))
      end
  end.

(** The body of [for profile in self.profiles:]; returning early is
    [continue]. *)
Definition process_profile (self : ImageProcessor) (img : image) (image_path : string)
    (original_width original_height : Z) (is_horizontal : bool) (p : profile)
    : Eff state unit :=
  let target_width := target_width p in
  let target_height := target_height p in
  if orientation_skipped is_horizontal p then ret tt
  else
    let output_dir_name := (album_name self ++ "_" ++ profile_name p)%string in
    let output_dir := path_join "resized" output_dir_name in
    makedirs output_dir ;;;
    size <- lift_result
              (letterbox_size original_width original_height target_width target_height) ;;
    let new_width := fst size in
    let new_height := snd size in
    resized_img <- lift_result (image_resize img (new_width, new_height)) ;;
    log (Resize (new_width, new_height)) ;;;
    new_img <- lift_result (image_new (target_width, target_height) (0, 0, 0)) ;;
    let paste_x := (target_width - new_width) / 2 in
    let paste_y := (target_height - new_height) / 2 in
    log (Paste (paste_x, paste_y)) ;;;
    let new_img := image_paste new_img resized_img (paste_x, paste_y) in
    let filename := basename image_path in
    let output_path := path_join output_dir filename in
    already <- path_exists output_path ;;
    if already then ret tt
    else image_save new_img output_path.

Fixpoint for_each_profile (self : ImageProcessor) (img : image) (image_path : string)
    (original_width original_height : Z) (is_horizontal : bool) (ps : list profile)
    : Eff state unit :=
  match ps with
  | [] => ret tt
  | p :: ps' =>
      process_profile self img image_path original_width original_height is_horizontal p ;;;
      for_each_profile self img image_path original_width original_height is_horizontal ps'
  end.

Definition _resize_image_sync (self : ImageProcessor) (image_path : string)
    : Eff state (bool * option string) :=
  try_except
    (img <- image_open image_path ;;
     let original_width := img_width img in
     let original_height := img_height img in
     let is_horizontal := original_height <=? original_width in
     for_each_profile self img image_path original_width original_height is_horizontal
       (profiles self) ;;;
     ret (true, None))
    is_Exception
    (fun e =>
       ret (false,
            Some ("Failed to resize " ++ basename image_path ++ ". Error: "
                    ++ exn_str e)%string)).

(** Lines 51-75 for one profile: the picture the profile is to save, or
    the exception that ends the call. *)
Definition letterbox (img : image) (original_width original_height : Z) (p : profile)
    : result image :=
  match letterbox_size original_width original_height (target_width p) (target_height p)
  with
  | Raised e => Raised e
  | Returned new_size => composite img (target_width p, target_height p) new_size
  end.

End PIL.

(** *** The example of the specification *)

(** The profile [{width: 1000, height: 1000, include_horizontal: true,
    include_vertical: false}]. *)
Definition square_profile : profile :=
  {| profile_name := "sq"; target_width := 1000; target_height := 1000;
     include_horizontal := true; include_vertical := false |}.

Definition example_processor : ImageProcessor :=
  {| album_name := "Holiday"; profiles := [square_profile] |}.

(** A picture of the given size with any pixels. *)
Definition picture (w h : Z) (px : Z -> Z -> rgb) : image :=
  {| img_width := w; img_height := h; img_pixel := px |}.

(** A download directory that holds one picture, nothing resized yet. *)
Definition downloaded (img : image) : state :=
  {| dirs := {[ "downloads/Holiday"%string ]};
     files := {[ "downloads/Holiday/a.jpg"%string := img ]};
     work := [] |}.

(** The same after an earlier run has written the output [old]. *)
Definition resized_before (img old : image) : state :=
  {| dirs := {[ "downloads/Holiday"%string ]} ∪ {[ "resized/Holiday_sq"%string ]};
     files := <[ "resized/Holiday_sq/a.jpg"%string := old ]>
                {[ "downloads/Holiday/a.jpg"%string := img ]};
     work := [] |}.

(** A resampler to run closed examples with: nearest neighbour. *)
Definition nearest_neighbour (img : image) (size : Z * Z) (x y : Z) : rgb :=
  img_pixel img (x * img_width img / fst size) (y * img_height img / snd size).

Definition white : Z -> Z -> rgb := fun _ _ => (255, 255, 255).

(** *** The size as the specification words it *)

(** Lines 51-62 with [round] where the source has [int]: the reading of
    the specification, to be compared with [letterbox_size]. *)
Definition letterbox_size_rounded
    (original_width original_height target_width target_height : Z) : result (Z * Z) :=
  match int_truediv original_width original_height with
  | Raised e => Raised e
  | Returned original_aspect =>
      match int_truediv target_width target_height with
      | Raised e => Raised e
      | Returned target_aspect =>
          if gt original_aspect target_aspect then
            let new_width := target_width in
            match int_div_float new_width original_aspect with
            | Raised e => Raised e
            | Returned h => Returned (new_width, py_round h)
            end
          else
            let new_height := target_height in
            Returned (py_round (int_mul_float new_height original_aspect), new_height)
      end
  end.

End Processor.

(** ** More of the task and album store *)

Module StoreOps.
Import Store.

(** *** delete_completed_download (database_async.py 472-480) *)

(** [DELETE FROM resize_tasks WHERE id = ? AND status = "completed"];
    the value is [cursor.rowcount]. *)
Definition delete_completed_resize_task (task_id : string) : statement Z :=
  fun _ d =>
    match resize_tasks d !! task_id with
    | Some r =>
        if String.eqb (rt_status r) "completed"
        then Returned (1, with_resize_tasks (delete task_id (resize_tasks d)) d)
        else Returned (0, d)
    | None => Returned (0, d)
    end.

Definition delete_completed_download (task_id : string) : Eff world bool :=
  rowcount <- transaction (delete_completed_resize_task task_id) ;;
  ret (0 <? rowcount).

(** *** get_local_asset_counts (database_async.py 290-297) *)

(** [SELECT album_id, photo_count FROM downloaded_albums]: the rows in the
    order of the table scan, which is the order of their row ids. *)
Definition select_album_counts (d : db) : list (string * Z) :=
  map (fun a => (da_album_id a, da_photo_count a)) (downloaded_albums d).

(** [{row[0]: row[1] for row in rows}]: a later row replaces an earlier one
    of the same key. *)
Definition dict_of_rows (rows : list (string * Z)) : gmap string Z :=
  fold_left (fun m row => <[fst row := snd row]> m) rows ∅.

Definition get_local_asset_counts : Eff world (gmap string Z) :=
  rows <- query select_album_counts ;;
  ret (dict_of_rows rows).

(** *** Runs of task updates *)

(** The world after a run of update calls, each in its own environment. *)
Definition run_steps (steps : list step) (w : world) : world :=
  fold_left (fun w s => do_step s w) steps w.

End StoreOps.

(** ** The resize engine, continued *)

Module Engine.
Import Processor.

(** [resize_image] (lines 15-21): the synchronous body run in a worker
    thread, inside another [try]/[except Exception]. *)
Definition resize_image (lanczos : image -> Z * Z -> Z -> Z -> rgb)
    (self : ImageProcessor) (image_path : string) : Eff state (bool * option string) :=
  try_except
    (_resize_image_sync lanczos self image_path)
    is_Exception
    (fun e =>
       ret (false,
            Some ("Failed to resize " ++ basename image_path ++ ". Error: "
                    ++ exn_str e)%string)).

(** Lines 47-48: the directory of a profile's outputs. *)
Definition output_dir_of (self : ImageProcessor) (p : profile) : string :=
  path_join "resized" (album_name self ++ "_" ++ profile_name p)%string.

(** The processor with another list of profiles. *)
Definition with_profiles (self : ImageProcessor) (ps : list profile) : ImageProcessor :=
  {| album_name := album_name self; profiles := ps |}.

(** Line 32 and 43: the profile takes the picture. *)
Definition applies_to (img : image) (p : profile) : bool :=
  negb (orientation_skipped (img_height img <=? img_width img) p).

(** [s.startswith("/")] *)
Definition is_absolute (s : string) : bool :=
  match s with
  | String "/"%char _ => true
  | _ => false
  end.

(** ["/" in s] *)
Fixpoint has_slash (s : string) : bool :=
  match s with
  | EmptyString => false
  | String c rest => Ascii.eqb c "/"%char || has_slash rest
  end.

End Engine.

(** ** The rest of the database file: users and resize profiles *)

Module Catalog.

Import Store.
Import sorting.
Local Open Scope Z_scope.

Definition is_IntegrityError (e : exn) : bool :=
  match e with IntegrityError _ => true | _ => false end.

(** Table [users]; [username] is UNIQUE. *)
Record user := {
  u_id : Z;
  u_username : string;
  u_password_hash : string;
  u_created_at : timestamp;
}.

(** Table [resize_profiles]; [name] is UNIQUE. The two BOOLEAN columns hold
    the 0 or 1 a Python [bool] is bound as. *)
Record resize_profile := {
  rp_id : Z;
  rp_name : string;
  rp_width : Z;
  rp_height : Z;
  rp_include_horizontal : bool;
  rp_include_vertical : bool;
  rp_created_at : timestamp;
}.

(** The two tables with their AUTOINCREMENT counters. *)
Record catalog := {
  users : list user;
  users_seq : N;
  resize_profiles : list resize_profile;
  resize_profiles_seq : N;
}.

Definition empty_catalog : catalog :=
  {| users := []; users_seq := 0%N; resize_profiles := []; resize_profiles_seq := 0%N |}.

(** The whole database file with its environment: the tables of [Store]
    and those above. No connection of the source sets
    [PRAGMA foreign_keys], so SQLite does not enforce the FOREIGN KEY
    clauses of the schema. *)
Record app := {
  app_world : world;
  app_catalog : catalog;
}.

(** A call on the task and album store, made on the whole file. *)
Definition on_store {A} (c : Eff world A) : Eff app A :=
  fun s =>
    let '(r, w) := c (app_world s) in
    (r, {| app_world := w; app_catalog := app_catalog s |}).

Definition cstatement (A : Type) : Type := timestamp -> catalog -> result (A * catalog).

(** One unit of work on the tables above; as [Store.transaction]. *)
Definition cat_transaction {A} (stmt : cstatement A) : Eff app A :=
  fun s =>
    let w := app_world s in
    match w_faults w with
    | Some msg :: rest =>
        (Raised (OperationalError msg),
         {| app_world := set_faults rest w; app_catalog := app_catalog s |})
    | fs =>
        match stmt (w_now w) (app_catalog s) with
        | Returned (a, c) =>
            (Returned a, {| app_world := set_faults (tail fs) w; app_catalog := c |})
        | Raised e =>
            (Raised e, {| app_world := set_faults (tail fs) w;
                          app_catalog := app_catalog s |})
        end
    end.

(** A [SELECT] over the file; as [Store.query]. *)
Definition app_query {A} (q : db -> catalog -> A) : Eff app A :=
  fun s =>
    let w := app_world s in
    match w_faults w with
    | Some msg :: rest =>
        (Raised (OperationalError msg),
         {| app_world := set_faults rest w; app_catalog := app_catalog s |})
    | fs =>
        (Returned (q (w_db w) (app_catalog s)),
         {| app_world := set_faults (tail fs) w; app_catalog := app_catalog s |})
    end.

(** [ORDER BY created_at DESC]: [a] may come before [b]. *)
Definition newest_first {A} (created_at : A -> timestamp) : relation A :=
  fun a b => created_at b <= created_at a.

#[global] Instance newest_first_dec {A} (created_at : A -> timestamp) :
  RelDecision (newest_first created_at).
Proof. intros a b. unfold newest_first. apply _. Defined.

(** *** Users (database_async.py 129-159) *)

Section Users.

(** [hashlib.sha256(password.encode()).hexdigest()]; the hash function is
    outside the repository. *)
Variable sha256_hexdigest : string -> string.

(** [INSERT INTO users (username, password_hash) VALUES (?, ?)] *)
Definition insert_user (username password_hash : string) : cstatement unit :=
  fun now c =>
    if existsb (fun u => String.eqb (u_username u) username) (users c)
    then Raised (IntegrityError "UNIQUE constraint failed: users.username")
    else Returned (tt,
      {| users := users c ++
           [ {| u_id := Z.of_N (users_seq c + 1); u_username := username;
                u_password_hash := password_hash; u_created_at := now |} ];
         users_seq := (users_seq c + 1)%N;
         resize_profiles := resize_profiles c;
         resize_profiles_seq := resize_profiles_seq c |}).

Definition create_user (username password : string) : Eff app bool :=
  let password_hash := sha256_hexdigest password in
  try_except
    (cat_transaction (insert_user username password_hash) ;;;
     ret true)
    is_IntegrityError
    (fun _ => ret false).

(** [SELECT id FROM users WHERE username = ? AND password_hash = ?] then
    [fetchone()] *)
Definition select_user_id (username password_hash : string) (c : catalog) : option Z :=
  u_id <$> List.find (fun u => String.eqb (u_username u) username
                               && String.eqb (u_password_hash u) password_hash) (users c).

Definition verify_user (username password : string) : Eff app bool :=
  let password_hash := sha256_hexdigest password in
  result <- app_query (fun _ c => select_user_id username password_hash c) ;;
  ret (match result with Some _ => true | None => false end).

End Users.

(** [SELECT COUNT( * ) FROM users] and [result[0] > 0] *)
Definition user_exists : Eff app bool :=
  result <- app_query (fun _ c => len (users c)) ;;
  ret (0 <? result).

(** *** Resize profiles (database_async.py 162-201) *)

(** An [int] that [sqlite3] binds: one that fits a 64-bit signed integer. *)
Definition in_int64 (n : Z) : bool := (- 2 ^ 63 <=? n) && (n <? 2 ^ 63).

(** [INSERT INTO resize_profiles (name, width, height, include_horizontal,
    include_vertical) VALUES (?, ?, ?, ?, ?)]; the value is
    [cursor.lastrowid]. *)
Definition insert_resize_profile (name : string) (width height : Z)
    (include_horizontal include_vertical : bool) : cstatement Z :=
  fun now c =>
    if existsb (fun p => String.eqb (rp_name p) name) (resize_profiles c)
    then Raised (IntegrityError "UNIQUE constraint failed: resize_profiles.name")
    else
      let rowid := Z.of_N (resize_profiles_seq c + 1) in
      Returned (rowid,
        {| users := users c; users_seq := users_seq c;
           resize_profiles := resize_profiles c ++
             [ {| rp_id := rowid; rp_name := name; rp_width := width; rp_height := height;
                  rp_include_horizontal := include_horizontal;
                  rp_include_vertical := include_vertical; rp_created_at := now |} ];
           resize_profiles_seq := (resize_profiles_seq c + 1)%N |}).

(** The parameters are bound before the statement runs: an integer
    outside 64 bits raises, and the store is not touched. *)
Definition add_resize_profile (name : string) (width height : Z)
    (include_horizontal include_vertical : bool) : Eff app Z :=
  if in_int64 width && in_int64 height
  then cat_transaction (insert_resize_profile name width height include_horizontal
                          include_vertical)
  else raise (OverflowError "Python int too large to convert to SQLite INTEGER").



Definition with_resize_profiles (ps : list resize_profile) (c : catalog) : catalog :=
  {| users := users c; users_seq := users_seq c;
     resize_profiles := ps; resize_profiles_seq := resize_profiles_seq c |}.

(** [UPDATE resize_profiles SET name = ?, width = ?, height = ?,
    include_horizontal = ?, include_vertical = ? WHERE id = ?]; the value
    is [cursor.rowcount]. *)
Definition update_resize_profiles (profile_id : Z) (name : string) (width height : Z)
    (include_horizontal include_vertical : bool) : cstatement Z :=
  fun _ c =>
    let matched := filter (fun p => rp_id p = profile_id) (resize_profiles c) in
    match matched with
    | [] => Returned (0, c)
    | _ =>
        if existsb (fun p => String.eqb (rp_name p) name && negb (rp_id p =? profile_id))
             (resize_profiles c)
        then Raised (IntegrityError "UNIQUE constraint failed: resize_profiles.name")
        else
          Returned (len matched,
            with_resize_profiles
              (map (fun p =>
                      if rp_id p =? profile_id
                      then {| rp_id := rp_id p; rp_name := name; rp_width := width;
                              rp_height := height;
                              rp_include_horizontal := include_horizontal;
                              rp_include_vertical := include_vertical;
                              rp_created_at := rp_created_at p |}
                      else p)
                 (resize_profiles c)) c)
    end.

Definition update_resize_profile (profile_id : Z) (name : string) (width height : Z)
    (include_horizontal include_vertical : bool) : Eff app bool :=
  if in_int64 width && in_int64 height && in_int64 profile_id
  then
    rowcount <- cat_transaction (update_resize_profiles profile_id name width height
                                   include_horizontal include_vertical) ;;
    ret (0 <? rowcount)
  else raise (OverflowError "Python int too large to convert to SQLite INTEGER").

(** [DELETE FROM resize_profiles WHERE id = ?] *)
Definition delete_resize_profiles (profile_id : Z) : cstatement Z :=
  fun _ c =>
    Returned (len (filter (fun p => rp_id p = profile_id) (resize_profiles c)),
              with_resize_profiles
                (filter (fun p => rp_id p <> profile_id) (resize_profiles c)) c).

Definition delete_resize_profile (profile_id : Z) : Eff app bool :=
  rowcount <- cat_transaction (delete_resize_profiles profile_id) ;;
  ret (0 <? rowcount).

(** *** Listings that join the tables (database_async.py 414-460) *)

(** [FROM resize_tasks rt JOIN downloaded_albums da ON
    rt.downloaded_album_id = da.id JOIN resize_profiles rp ON
    rt.profile_id = rp.id]: the album and profile rows a task row joins. *)
Definition joined (d : db) (c : catalog) (rt : resize_task)
    : list (downloaded_album * resize_profile) :=
  da ← filter (fun da => da_id da = rt_downloaded_album_id rt) (downloaded_albums d);
  rp ← filter (fun rp => rp_id rp = rt_profile_id rt) (resize_profiles c);
  [(da, rp)].

(** A row of [get_completed_downloads]. *)
Record completed_download := {
  cd_id : string;
  cd_album_name : string;
  cd_profile_name : string;
  cd_zip_size : Z;
  cd_processed_count : Z;
  cd_created_at : timestamp;
}.

(** [SELECT rt.id, da.album_name, rp.name as profile_name, rt.zip_size,
    rt.processed_count, rt.created_at FROM ... WHERE rt.status =
    'completed' AND rt.zip_data IS NOT NULL ORDER BY rt.created_at DESC] *)
Definition select_completed_downloads (d : db) (c : catalog) : list completed_download :=
  merge_sort (newest_first cd_created_at)
    (row ← map_to_list (resize_tasks d);
     let rt := snd row in
     if String.eqb (rt_status rt) "completed" && bool_decide (is_Some (rt_zip_data rt))
     then
       pair ← joined d c rt;
       [ {| cd_id := fst row; cd_album_name := da_album_name (fst pair);
            cd_profile_name := rp_name (snd pair); cd_zip_size := rt_zip_size rt;
            cd_processed_count := rt_processed_count rt;
            cd_created_at := rt_created_at rt |} ]
     else []).

Definition get_completed_downloads : Eff app (list completed_download) :=
  app_query select_completed_downloads.

(** A row of [get_active_tasks]. *)
Record active_task := {
  at_task_type : string;
  at_id : string;
  at_name : string;
  at_status : string;
  at_progress : Z;
  at_total : Z;
  at_current_step : option string;
  at_created_at : timestamp;
  at_completed_at : option timestamp;
}.

(** [SELECT 'download' as task_type, id, album_name as name, status,
    progress, total, current_step, created_at, completed_at FROM
    download_tasks ORDER BY created_at DESC LIMIT 50] *)
Definition select_download_rows (d : db) : list active_task :=
  take 50
    (merge_sort (newest_first at_created_at)
       (map (fun row : string * download_task =>
               let t := snd row in
               {| at_task_type := "download"; at_id := fst row; at_name := dt_album_name t;
                  at_status := dt_status t; at_progress := dt_progress t;
                  at_total := dt_total t; at_current_step := dt_current_step t;
                  at_created_at := dt_created_at t;
                  at_completed_at := dt_completed_at t |})
          (map_to_list (download_tasks d)))).

(** [SELECT 'resize' as task_type, rt.id, da.album_name || ' (' || rp.name
    || ')' as name, rt.status, ... FROM resize_tasks rt JOIN ... ORDER BY
    rt.created_at DESC LIMIT 50] *)
Definition select_resize_rows (d : db) (c : catalog) : list active_task :=
  take 50
    (merge_sort (newest_first at_created_at)
       (row ← map_to_list (resize_tasks d);
        let rt := snd row in
        pair ← joined d c rt;
        [ {| at_task_type := "resize"; at_id := fst row;
             at_name := (da_album_name (fst pair) ++ " (" ++ rp_name (snd pair) ++ ")")%string;
             at_status := rt_status rt; at_progress := rt_progress rt;
             at_total := rt_total rt; at_current_step := rt_current_step rt;
             at_created_at := rt_created_at rt;
             at_completed_at := rt_completed_at rt |} ])).

Definition get_active_tasks : Eff app (list active_task) :=
  try_except
    (async_with _get_connection
       (app_query (fun d c => select_download_rows d ++ select_resize_rows d c)))
    is_OperationalError
    (fun e =>
       on_store (print ("Database error in get_active_tasks: " ++ exn_str e)) ;;;
       ret []).

(** *** Describing outcomes *)

(** Profile ids and names are unique and no id lies above the counter:
    what PRIMARY KEY AUTOINCREMENT and UNIQUE maintain. *)
Definition profiles_wf (c : catalog) : Prop :=
  NoDup (map rp_id (resize_profiles c))
  /\ NoDup (map rp_name (resize_profiles c))
  /\ Forall (fun p => rp_id p <= Z.of_N (resize_profiles_seq c)) (resize_profiles c).

(** The row an update leaves in place of [p]. *)
Definition updated_profile (p : resize_profile) (name : string) (width height : Z)
    (include_horizontal include_vertical : bool) : resize_profile :=
  {| rp_id := rp_id p; rp_name := name; rp_width := width; rp_height := height;
     rp_include_horizontal := include_horizontal;
     rp_include_vertical := include_vertical; rp_created_at := rp_created_at p |}.

(** A fresh database file. *)
Definition app0 : app := {| app_world := world0; app_catalog := empty_catalog |}.

(** A digest to run closed examples with. *)
Definition toy_digest (password : string) : string := ("digest of " ++ password)%string.

(** A database file that holds an album row, the profile "sq" and a resize
    task of the album with that profile, completed with a two-byte
    archive. The album row is given here as a row of the table: of the
    methods above only [save_downloaded_album_chunked] inserts such rows,
    and its block is never entered. *)
Definition app_example : app :=
  {| app_world :=
       {| w_db :=
            {| downloaded_albums :=
                 [ {| da_id := 1; da_album_id := "a1"; da_album_name := "Holiday";
                      da_photo_count := 10; da_total_size := 1; da_chunk_count := 1 |} ];
               downloaded_albums_seq := 1%N;
               album_chunks := [];
               download_tasks := ∅;
               resize_tasks :=
                 {[ "r1"%string :=
                      {| rt_downloaded_album_id := 1; rt_profile_id := 1;
                         rt_status := "completed"; rt_progress := 10; rt_total := 10;
                         rt_current_step := Some "Initializing..."%string;
                         rt_zip_data := Some [x50; x4b]%byte; rt_zip_size := 2;
                         rt_processed_count := 10;
                         rt_created_at := 0; rt_completed_at := Some 0 |} ]} |};
          w_stdout := []; w_faults := []; w_now := 0 |};
     app_catalog :=
       {| users := []; users_seq := 0%N;
          resize_profiles :=
            [ {| rp_id := 1; rp_name := "sq"; rp_width := 1000; rp_height := 1000;
                 rp_include_horizontal := true; rp_include_vertical := false;
                 rp_created_at := 0 |} ];
          resize_profiles_seq := 1%N |} |}.

(** The file with another fault schedule. *)
Definition with_faults (fs : list (option string)) (s : app) : app :=
  {| app_world := set_faults fs (app_world s); app_catalog := app_catalog s |}.

End Catalog.

(** ** The gallery client (api.py) *)

Module Api.

(** [s.endswith(suffix)]: some tail of [s] is [suffix]. *)
Fixpoint endswith (s suffix : string) : bool :=
  String.eqb s suffix
  || match s with
     | EmptyString => false
     | String _ rest => endswith rest suffix
     end.

(** [s.rstrip('/')]: [s] without its trailing slashes. *)
Fixpoint rstrip_slash (s : string) : string :=
  match s with
  | EmptyString => EmptyString
  | String c rest =>
      match rstrip_slash rest with
      | EmptyString => if Ascii.eqb c "/"%char then EmptyString else String c EmptyString
      | rest' => String c rest'
      end
  end.

(** [ImmichApi.__init__] (lines 8-15): the value of [self.base_url]. *)
Definition base_url (url : string) : string :=
  if endswith url "/api" then rstrip_slash url
  else (rstrip_slash url ++ "/api")%string.

End Api.

(** ** The albums of the gallery (database_async.py, sync_immich_albums)

    The statements of the loop and the [commit] that follows them are one
    unit of work: the store can refuse it where the first statement asks
    for the write lock. The clock does not advance during the call. *)

Module Gallery.

Import Store.
Import pretty.
Local Open Scope Z_scope.

(** What [sync_immich_albums] can end in: an exception of [exn], a missing
    key of an album record, or a parameter that [sqlite3] does not bind (a
    list or a dict: [InterfaceError] or [ProgrammingError], by the version
    of Python; an [int] outside 64 bits: [OverflowError]). *)
Inductive sync_exn : Type :=
| PyExn (e : exn)
| KeyError (key : string)
| BindingError (parameter : nat)
| OverflowError.

(** A bound parameter: SQLite's NULL, INTEGER and TEXT. *)
Inductive sqlval : Type :=
| SqlNull
| SqlInt (n : Z)
| SqlText (s : string).

(** [album[key]] *)
Definition getitem (album : gmap string pyval) (key : string) : sync_exn + pyval :=
  match album !! key with
  | Some v => inr v
  | None => inl (KeyError key)
  end.

(** How [sqlite3] binds a Python value as parameter number [i]. *)
Definition bind_parameter (i : nat) (v : pyval) : sync_exn + sqlval :=
  match v with
  | PyNone => inr SqlNull
  | PyBool b => inr (SqlInt (if b then 1 else 0))
  | PyInt n =>
      if (- 2 ^ 63 <=? n) && (n <? 2 ^ 63) then inr (SqlInt n) else inl OverflowError
  | PyStr s => inr (SqlText s)
  | PyList _ | PyDict _ => inl (BindingError i)
  end.

(** A column of TEXT affinity stores an integer as its decimal text. *)
Definition text_affinity (v : sqlval) : option string :=
  match v with
  | SqlNull => None
  | SqlInt n => Some (pretty n)
  | SqlText s => Some s
  end.

(** The column [photo_count], of INTEGER affinity: NULL, an integer, or
    what SQLite's numeric conversion makes of a text. *)
Inductive count_value : Type :=
| CountNull
| CountInt (n : Z)
| CountOfText (s : string).

Definition integer_affinity (v : sqlval) : count_value :=
  match v with
  | SqlNull => CountNull
  | SqlInt n => CountInt n
  | SqlText s => CountOfText s
  end.

(** Table [immich_albums]. Its primary key [id] is a TEXT column, which
    SQLite lets be NULL; NULL ids never conflict. *)
Record immich_album := {
  ia_id : option string;
  ia_name : string;
  ia_photo_count : count_value;
  ia_last_synced : timestamp;
}.

(** [INSERT OR REPLACE INTO immich_albums (id, name, photo_count,
    last_synced) VALUES (?, ?, ?, CURRENT_TIMESTAMP)]: a row of the same id
    is removed, the new row is added; a NULL name aborts the statement. *)
Definition insert_or_replace (now : timestamp) (id name photo_count : sqlval)
    (rows : list immich_album) : sync_exn + list immich_album :=
  match text_affinity name with
  | None => inl (PyExn (IntegrityError "NOT NULL constraint failed: immich_albums.name"))
  | Some name' =>
      let key := text_affinity id in
      inr (filter (fun r => key = None \/ ia_id r <> key) rows
           ++ [ {| ia_id := key; ia_name := name';
                   ia_photo_count := integer_affinity photo_count;
                   ia_last_synced := now |} ])
  end.

(** An open connection: the table on disk, the table as the connection
    sees it (with its uncommitted changes), whether it holds the write
    lock, and the fault schedule of the store. *)
Record connection := {
  on_disk : list immich_album;
  seen : list immich_album;
  writing : bool;
  faults : list (option string);
}.

(** [await conn.execute(sql, (p0, p1, p2))]: bind the parameters, take the
    write lock if the connection has not got it (this is where a busy
    store refuses), run the statement. *)
Definition execute (now : timestamp) (p0 p1 p2 : pyval) (c : connection)
    : (sync_exn + unit) * connection :=
  match bind_parameter 0 p0 with
  | inl e => (inl e, c)
  | inr id =>
  match bind_parameter 1 p1 with
  | inl e => (inl e, c)
  | inr name =>
  match bind_parameter 2 p2 with
  | inl e => (inl e, c)
  | inr photo_count =>
      let locked :=
        if writing c then inr c
        else match faults c with
             | Some msg :: rest =>
                 inl (OperationalError msg,
                      {| on_disk := on_disk c; seen := seen c; writing := false;
                         faults := rest |})
             | fs =>
                 inr {| on_disk := on_disk c; seen := seen c; writing := true;
                        faults := tail fs |}
             end in
      match locked with
      | inl (e, c') => (inl (PyExn e), c')
      | inr c' =>
          match insert_or_replace now id name photo_count (seen c') with
          | inl e => (inl e, c')
          | inr rows =>
              (inr tt, {| on_disk := on_disk c'; seen := rows; writing := writing c';
                          faults := faults c' |})
          end
      end
  end end end.

(** The body of [for album in albums:]. *)
Definition sync_album (now : timestamp) (album : gmap string pyval) (c : connection)
    : (sync_exn + unit) * connection :=
  match asset_count album with
  | Raised e => (inl (PyExn e), c)
  | Returned count =>
      match getitem album "id" with
      | inl e => (inl e, c)
      | inr id =>
          match getitem album "albumName" with
          | inl e => (inl e, c)
          | inr name => execute now id name count c
          end
      end
  end.

Fixpoint for_each_album (now : timestamp) (albums : list (gmap string pyval))
    (c : connection) : (sync_exn + unit) * connection :=
  match albums with
  | [] => (inr tt, c)
  | album :: rest =>
      match sync_album now album c with
      | (inr _, c') => for_each_album now rest c'
      | (inl e, c') => (inl e, c')
      end
  end.

(** [await conn.commit()] *)
Definition commit (c : connection) : connection :=
  {| on_disk := seen c; seen := seen c; writing := false; faults := faults c |}.

(** The table, the fault schedule and the clock. *)
Record gallery := {
  ga_albums : list immich_album;
  ga_faults : list (option string);
  ga_now : timestamp;
}.

(** [aiosqlite.connect(self.db_path)] *)
Definition connect (g : gallery) : connection :=
  {| on_disk := ga_albums g; seen := ga_albums g; writing := false;
     faults := ga_faults g |}.

(** Leaving [async with]: the connection is closed, and what it has not
    committed is lost. *)
Definition close (g : gallery) (c : connection) : gallery :=
  {| ga_albums := on_disk c; ga_faults := faults c; ga_now := ga_now g |}.

Definition sync_immich_albums (albums : list (gmap string pyval)) (g : gallery)
    : (sync_exn + unit) * gallery :=
  match for_each_album (ga_now g) albums (connect g) with
  | (inr _, c) => (inr tt, close g (commit c))
  | (inl e, c) => (inl e, close g c)
  end.

(** *** Describing outcomes *)

(** The row a record is stored as, when it can be stored. *)
Definition row_of (now : timestamp) (album : gmap string pyval) : option immich_album :=
  match asset_count album, album !! "id", album !! "albumName" with
  | Returned count, Some id, Some name =>
      match bind_parameter 0 id, bind_parameter 1 name, bind_parameter 2 count with
      | inr id', inr name', inr count' =>
          match text_affinity name' with
          | Some n =>
              Some {| ia_id := text_affinity id'; ia_name := n;
                      ia_photo_count := integer_affinity count'; ia_last_synced := now |}
          | None => None
          end
      | _, _, _ => None
      end
  | _, _, _ => None
  end.

(** The id a record is stored under. *)
Definition album_key (album : gmap string pyval) : option string :=
  match album !! "id" with
  | Some id =>
      match bind_parameter 0 id with
      | inr id' => text_affinity id'
      | inl _ => None
      end
  | None => None
  end.

(** [SELECT * FROM immich_albums WHERE id = ?] *)
Definition rows_of (id : string) (rows : list immich_album) : list immich_album :=
  filter (fun r => ia_id r = Some id) rows.

(** A gallery of two albums, as the server lists them. *)
Definition two_albums : list (gmap string pyval) :=
  [ {[ "id"%string := PyStr "a1"; "albumName"%string := PyStr "Holiday";
       "assetCount"%string := PyInt 10; "assets"%string := PyList [] ]};
    {[ "id"%string := PyStr "a2"; "assetCount"%string := PyInt 3;
       "assets"%string := PyList [] ]} ].

Definition gallery0 : gallery := {| ga_albums := []; ga_faults := []; ga_now := 0 |}.

End Gallery.

(* ===================================================================== *)
(** * Part II. Properties                                                 *)
(* ===================================================================== *)

Import Store.
Import Processor.
Import PyFloat.
Import Engine.

#[local] Arguments progress_of : simpl never.

(** ** Proof steps shared by the task-update lemmas *)

(** Unfold one task update down to the map operation. *)
Ltac run_update :=
  unfold try_except, transaction, update_download_tasks, update_resize_tasks,
    print, ret, refused in *;
  simpl in *.

(** Split the keyword arguments of [update_resize_task] into their cases. *)
Ltac split_resize_args a :=
  destruct a as [st pr cs zd zs pc tot]; simpl in *;
  destruct pr as [p|], (truthy_str cs) as [c|], (truthy_bytes zd) as [z|],
    zs as [n1|], pc as [n2|], tot as [t|]; simpl.

(** ** The methods that go through [_get_connection] *)

(** As shipped, the block of each of them is never entered: the
    [async with] raises, no handler applies, and the world is left as it
    was. *)
Lemma update_download_task_shipped task_id status progress current_step w :
  update_download_task task_id status progress current_step w
  = (match truthy_str status, progress, truthy_str current_step with
     | None, None, None => Returned tt
     | _, _, _ => Raised (TypeError not_a_context_manager)
     end, w).
Proof.
  unfold update_download_task.
  destruct (truthy_str status) as [s|]; [destruct (String.eqb s "completed")|];
    destruct progress as [p|], (truthy_str current_step) as [c|]; reflexivity.
Qed.

Lemma update_download_task_world task_id status progress current_step w :
  snd (update_download_task task_id status progress current_step w) = w.
Proof. by rewrite update_download_task_shipped. Qed.

Lemma update_download_task_total_shipped task_id total w :
  update_download_task_total task_id total w
  = (Raised (TypeError not_a_context_manager), w).
Proof. reflexivity. Qed.

(** ** The chunk store: save_downloaded_album_chunked *)

(** The count expression of line 262 is not at fault: over the indices
    [0 .. k-1] of [n] chunks its values add up as the specification says,
    and over all [n] of them to [photo_count]. *)
Lemma chunk_photo_counts_sum_upto photo_count n (k : nat) :
  sum_Z (map (fun i => chunk_photo_count photo_count n (Z.of_nat i)) (seq 0 k))
  = Z.of_nat k * (photo_count / n) + Z.max 0 (Z.min (Z.of_nat k) (photo_count mod n)).
Proof.
  induction k as [|k IH].
  - simpl. lia.
  - rewrite seq_S, map_app. simpl.
    assert (forall l x, sum_Z (l ++ [x]) = sum_Z l + x) as Hsnoc.
    { induction l as [|y l IHl]; intros x; simpl; [lia | rewrite IHl; lia]. }
    rewrite Hsnoc, IH. unfold chunk_photo_count.
    destruct (Z.ltb_spec (Z.of_nat k) (photo_count mod n)); lia.
Qed.

Lemma chunk_photo_counts_sum photo_count (n : nat) :
  (0 < n)%nat ->
  sum_Z (map (fun i => chunk_photo_count photo_count (Z.of_nat n) (Z.of_nat i)) (seq 0 n))
  = photo_count.
Proof.
  intros Hn. rewrite chunk_photo_counts_sum_upto.
  assert (0 < Z.of_nat n) as Hpos by lia.
  pose proof (Z.mod_pos_bound photo_count (Z.of_nat n) Hpos).
  pose proof (Z.div_mod photo_count (Z.of_nat n)). lia.
Qed.

(** C1 at its failing input: 10 photos in 3 chunks, on a fresh database
    and an idle store. The call raises [TypeError] at its [async with];
    no chunk row is stored, so the stored image counts add up to 0 and
    not to the 10 of [photo_count]. And so for every input: the call
    never adds a row to [album_chunks]. *)
Theorem save_chunked_stores_no_chunk :
  let out := save_downloaded_album_chunked "a1" "Holiday" 10
               [[x01]; [x02]; [x03]]%byte world0 in
  fst out = Raised (TypeError not_a_context_manager)
  /\ album_chunks (w_db (snd out)) = []
  /\ sum_Z (map ac_photo_count (album_chunks (w_db (snd out)))) <> 10
  /\ forall album_id album_name photo_count chunks w,
       album_chunks
         (w_db (snd (save_downloaded_album_chunked album_id album_name photo_count
                       chunks w)))
       = album_chunks (w_db w).
Proof.
  simpl. split; [reflexivity|]. split; [reflexivity|]. split; [simpl; lia|].
  intros. reflexivity.
Qed.

(** C8 at its failing input, which is every input. Whatever the arguments
    and whatever the store does, also when it is idle, the call raises
    [TypeError] to its caller: the [except aiosqlite.OperationalError]
    clause does not apply, so nothing is printed and [-1] is not returned;
    no summary row and no chunk is written, and no unit of work is
    used. *)
Theorem save_chunked_raises_before_any_sql album_id album_name photo_count chunks w :
  save_downloaded_album_chunked album_id album_name photo_count chunks w
  = (Raised (TypeError not_a_context_manager), w).
Proof.
  unfold save_downloaded_album_chunked, try_except, async_with, _get_connection, raise.
  reflexivity.
Qed.

(** ** Task records: the completion stamp *)







(** ** Task records: progress *)

Lemma update_resize_task_other task_id a w id' :
  id' <> task_id ->
  resize_tasks (w_db (snd (update_resize_task task_id a w))) !! id'
  = resize_tasks (w_db w) !! id'.
Proof.
  intros Hne. unfold update_resize_task.
  destruct (truthy_str (ru_status a)) as [s|]; [destruct (String.eqb s "completed")|];
    split_resize_args a; run_update;
    try (destruct (w_faults w) as [|[msg|] fs]; simpl);
    rewrite ?lookup_alter_ne by congruence; reflexivity.
Qed.


Lemma update_resize_task_download_tasks task_id a w :
  download_tasks (w_db (snd (update_resize_task task_id a w))) = download_tasks (w_db w).
Proof.
  unfold update_resize_task.
  destruct (truthy_str (ru_status a)) as [s|]; [destruct (String.eqb s "completed")|];
    split_resize_args a; run_update;
    try (destruct (w_faults w) as [|[msg|] fs]; simpl); reflexivity.
Qed.









(** ** Task records: a busy store *)

(** [update_resize_task] has no handler: whenever it has something to
    write and the store refuses the unit of work, the error reaches the
    caller. *)
Lemma update_resize_task_raises_when_refused task_id a w msg fs :
  w_faults w = Some msg :: fs ->
  ru_progress a <> None ->
  fst (update_resize_task task_id a w) = Raised (OperationalError msg).
Proof.
  intros Hf Hp. unfold update_resize_task.
  destruct (truthy_str (ru_status a)) as [s|]; [destruct (String.eqb s "completed")|];
    split_resize_args a; try congruence; run_update; rewrite Hf; reflexivity.
Qed.

(** C4 at its failing input: with the store busy, the progress update of
    the running resize task raises [OperationalError] to its caller and
    writes nothing. The same update of the download task raises as well,
    a [TypeError] that its [except aiosqlite.OperationalError] clause does
    not catch, and it does so on the idle store too; no warning is
    printed and the progress stays at 0. Neither update is dropped with a
    warning. *)
Theorem resize_update_raises_on_busy_store :
  fst (update_resize_task "r1" (only_progress 6) (busy world_resizing))
    = Raised (OperationalError "database is locked")
  /\ progress_of resize "r1"
       (snd (update_resize_task "r1" (only_progress 6) (busy world_resizing)))
     = Some 5
  /\ w_stdout (snd (update_resize_task "r1" (only_progress 6) (busy world_resizing)))
     = []
  /\ update_download_task "t1" None (Some 6) None (busy world_resizing)
     = (Raised (TypeError not_a_context_manager), busy world_resizing)
  /\ update_download_task "t1" None (Some 6) None world_resizing
     = (Raised (TypeError not_a_context_manager), world_resizing)
  /\ w_stdout (busy world_resizing) = []
  /\ progress_of download "t1" world_resizing = Some 0.
Proof. repeat split. Qed.

(** ** Reading the artifact of a resize task *)

(** C10, as amended. [get_resize_task_zip] changes no record and prints
    nothing. When the store refuses the read it raises [OperationalError].
    Otherwise it returns bytes exactly when the table holds a task of that
    id whose status is ['completed'] and whose [zip_data] is not NULL, and
    then these bytes; for an unknown id and for a pending, running or
    failed task it returns [None]. *)
Theorem get_resize_task_zip_spec task_id w :
  let out := get_resize_task_zip task_id w in
  w_db (snd out) = w_db w /\ w_stdout (snd out) = w_stdout w
  /\ match w_faults w with
     | Some msg :: _ => fst out = Raised (OperationalError msg)
     | _ =>
         (exists result, fst out = Returned result)
         /\ (forall data,
               fst out = Returned (Some data)
               <-> exists row,
                     resize_tasks (w_db w) !! task_id = Some row
                     /\ rt_status row = "completed"%string
                     /\ rt_zip_data row = Some data)
         /\ (resize_tasks (w_db w) !! task_id = None -> fst out = Returned None)
         /\ (forall row,
               resize_tasks (w_db w) !! task_id = Some row ->
               rt_status row = "pending"%string \/ rt_status row = "running"%string
               \/ rt_status row = "failed"%string ->
               fst out = Returned None)
     end.
Proof.
  unfold get_resize_task_zip, bind, query, ret, select_completed_zip. simpl.
  destruct (w_faults w) as [|[msg|] fs]; simpl;
    (split; [reflexivity|]); (split; [reflexivity|]); try reflexivity.
  all: split; [eauto|]; split; [|split].
  all: try (intros ->; reflexivity).
  all: try (intros row -> [-> | [-> | ->]]; reflexivity).
  all: intros data; split;
    [ destruct (resize_tasks (w_db w) !! task_id) as [row|]; [|discriminate];
      destruct (String.eqb_spec (rt_status row) "completed"); [|discriminate];
      intros [= H]; eauto
    | intros (row & -> & Hst & Hz); rewrite Hst; simpl; by rewrite Hz ].
Qed.

(** C10 as stated fails on a busy store: for an id that no task has, the
    call raises [OperationalError] where the claim has it return [None];
    and for the completed task of a store that holds an archive it raises
    where the claim has it return the bytes. *)
Lemma get_resize_task_zip_raises_on_busy_store :
  fst (get_resize_task_zip "nobody" (busy world_resizing))
    = Raised (OperationalError "database is locked")
  /\ fst (get_resize_task_zip "nobody" world_resizing) = Returned None
  /\ (let w := snd (update_resize_task "r1"
                      {| ru_status := Some "completed"%string; ru_progress := Some 10;
                         ru_current_step := None; ru_zip_data := Some [x50; x4b]%byte;
                         ru_zip_size := Some 2; ru_processed_count := Some 10;
                         ru_total := None |}
                      world_resizing) in
      fst (get_resize_task_zip "r1" w) = Returned (Some [x50; x4b]%byte)
      /\ fst (get_resize_task_zip "r1" (busy w))
         = Raised (OperationalError "database is locked")).
Proof. repeat split. Qed.

(** ** The asset count of an album record *)

(** What the source's expression computes, case by case: zero whenever the
    record has no list under ['assets'], whatever its count fields say;
    otherwise the first truthy one of [assetCount], [assetCountTotal] and
    the asset list itself, a list and not its length. *)
Lemma asset_count_cases album :
  asset_count album =
    match album !! "assets" with
    | Some (PyList l) =>
        Returned (py_or (dict_get album "assetCount")
                    (py_or (dict_get album "assetCountTotal") (PyList l)))
    | _ => Returned (PyInt 0)
    end.
Proof.
  unfold asset_count, dict_get, dict_get_default.
  destruct (album !! "assets") as [[| | | | l |]|]; reflexivity.
Qed.

(** C9. The expression is not the priority list: on the record
    [{'assetCount': 5}], without embedded assets, it gives 0 where the
    priority list gives 5; and on a record that embeds two assets and has
    no count field it gives the list of the two, not the number 2. *)
Theorem asset_count_is_not_the_precedence :
  (exists album,
     asset_count album <> Returned (asset_count_by_precedence album))
  /\ asset_count {[ "assetCount"%string := PyInt 5 ]} = Returned (PyInt 0)
  /\ asset_count_by_precedence {[ "assetCount"%string := PyInt 5 ]} = PyInt 5
  /\ asset_count {[ "assets"%string := PyList [PyStr "a"; PyStr "b"] ]}
       = Returned (PyList [PyStr "a"; PyStr "b"])
  /\ asset_count_by_precedence {[ "assets"%string := PyList [PyStr "a"; PyStr "b"] ]}
       = PyInt 2.
Proof.
  split; [|repeat split].
  exists {[ "assetCount"%string := PyInt 5 ]}. discriminate.
Qed.

(** Where the two agree: a record that embeds a list of assets and carries
    a non-zero integer [assetCount]. *)
Lemma asset_count_agrees_on_full_records album n l :
  album !! "assetCount" = Some (PyInt n) ->
  n <> 0 ->
  album !! "assets" = Some (PyList l) ->
  asset_count album = Returned (asset_count_by_precedence album).
Proof.
  intros Hc Hn Ha. rewrite asset_count_cases.
  unfold asset_count_by_precedence, dict_get, py_or. rewrite Ha, Hc. simpl.
  destruct (Z.eqb_spec n 0); [done | reflexivity].
Qed.

(** ** The resize engine *)

(** What the loop body does to the file system and how it ends. *)
Lemma process_profile_cases lanczos self img image_path ow oh is_h p s :
  let out := process_profile lanczos self img image_path ow oh is_h p s in
  if orientation_skipped is_h p then out = (Returned tt, s)
  else
    dirs (snd out) = {[ output_dir_of self p ]} ∪ dirs s
    /\ match letterbox lanczos img ow oh p with
       | Raised e => fst out = Raised e /\ files (snd out) = files s
       | Returned canvas =>
           fst out = Returned tt
           /\ files (snd out) =
                if bool_decide (is_Some (files s !! output_path_of self p image_path))
                   || bool_decide (output_path_of self p image_path
                                     ∈ ({[ output_dir_of self p ]} ∪ dirs s : gset string))
                then files s
                else <[ output_path_of self p image_path := canvas ]> (files s)
       end.
Proof.
  unfold process_profile, letterbox, composite. simpl.
  destruct (orientation_skipped is_h p); [reflexivity|].
  unfold bind, makedirs, lift_result, log, path_exists, image_save, ret. simpl.
  fold (output_dir_of self p).
  destruct (letterbox_size ow oh (target_width p) (target_height p)) as [[nw nh]|e];
    simpl; [|auto].
  destruct (image_resize lanczos img (nw, nh)) as [scaled|e]; simpl; [|auto].
  destruct (image_new (target_width p, target_height p) (0, 0, 0)) as [canvas|e];
    simpl; [|auto].
  change (path_join (output_dir_of self p) (basename image_path))
    with (output_path_of self p image_path).
  destruct (bool_decide _ || bool_decide _); simpl; auto.
Qed.

Lemma process_profile_grows lanczos self img image_path ow oh is_h p s :
  let out := process_profile lanczos self img image_path ow oh is_h p s in
  files s ⊆ files (snd out) /\ dirs s ⊆ dirs (snd out).
Proof.
  pose proof (process_profile_cases lanczos self img image_path ow oh is_h p s) as H.
  simpl in *.
  destruct (orientation_skipped is_h p); [by rewrite H|].
  destruct H as [Hd H]. rewrite Hd. split; [|apply union_subseteq_r].
  destruct (letterbox _ _ _ _ _) as [canvas|e]; destruct H as [_ ->]; [|done].
  destruct (bool_decide (is_Some _)) eqn:Hex; simpl; [done|].
  destruct (bool_decide (_ ∈ _)); [done|].
  apply insert_subseteq. apply bool_decide_eq_false in Hex.
  by apply eq_None_not_Some.
Qed.

Lemma for_each_profile_grows lanczos self img image_path ow oh is_h ps : forall s,
  let out := for_each_profile lanczos self img image_path ow oh is_h ps s in
  files s ⊆ files (snd out) /\ dirs s ⊆ dirs (snd out).
Proof.
  induction ps as [|p ps IH]; intros s; simpl; [done|].
  unfold bind.
  pose proof (process_profile_grows lanczos self img image_path ow oh is_h p s) as [Hf Hd].
  simpl in *.
  destruct (process_profile _ _ _ _ _ _ _ _ s) as [[[]|e] s1]; simpl in *; [|done].
  destruct (IH s1) as [Hf' Hd']. split; etrans; eauto.
Qed.

Lemma resize_sync_cases lanczos self image_path s :
  match files s !! image_path with
  | None =>
      exists msg,
        _resize_image_sync lanczos self image_path s
        = (Returned (false, Some ("Failed to resize " ++ basename image_path
                                    ++ ". Error: " ++ msg)%string), s)
  | Some img =>
      let s0 := {| dirs := dirs s; files := files s;
                   work := work s ++ [Decode image_path] |} in
      let loop := for_each_profile lanczos self img image_path (img_width img)
                    (img_height img) (img_height img <=? img_width img)
                    (profiles self) s0 in
      _resize_image_sync lanczos self image_path s
      = (match fst loop with
         | Returned _ => Returned (true, None)
         | Raised e =>
             Returned (false, Some ("Failed to resize " ++ basename image_path
                                      ++ ". Error: " ++ exn_str e)%string)
         end, snd loop)
  end.
Proof.
  unfold _resize_image_sync, try_except, bind, image_open, ret.
  destruct (files s !! image_path) as [img|]; simpl.
  - destruct (for_each_profile _ _ _ _ _ _ _ _ _) as [[[]|e] s1]; reflexivity.
  - eexists. reflexivity.
Qed.










(** What one profile does when its output is already there: the file stays
    as it is, and the picture is scaled and pasted all the same; only the
    save is left out. *)
Lemma process_profile_existing_output lanczos self img image_path p s nw nh canvas old :
  orientation_skipped (img_height img <=? img_width img) p = false ->
  letterbox_size (img_width img) (img_height img) (target_width p) (target_height p)
    = Returned (nw, nh) ->
  composite lanczos img (target_width p, target_height p) (nw, nh) = Returned canvas ->
  files s !! output_path_of self p image_path = Some old ->
  let out := process_profile lanczos self img image_path (img_width img) (img_height img)
               (img_height img <=? img_width img) p s in
  fst out = Returned tt
  /\ files (snd out) = files s
  /\ work (snd out) =
       work s ++ [ Resize (nw, nh);
                   Paste (paste_offset (target_width p) (target_height p) nw nh) ].
Proof.
  intros Happ Hsize Hcomp Hfile. unfold process_profile.
  rewrite Happ, Hsize. unfold composite in Hcomp. simpl in Hcomp |- *.
  unfold bind, makedirs, lift_result, log, path_exists, image_save, ret. simpl.
  destruct (image_resize lanczos img (nw, nh)) as [scaled|e]; [|discriminate]. simpl.
  destruct (image_new (target_width p, target_height p) (0, 0, 0)) as [blank|e];
    [|discriminate]. simpl.
  fold (output_path_of self p image_path).
  rewrite Hfile. simpl. rewrite <- !app_assoc. repeat split.
Qed.

(** C5 at its failing input: the output of the example profile exists. The
    re-run leaves the file as it was, but it has decoded the picture, scaled
    it to 1000 by 500 and pasted it at (0, 250): the picture is processed
    again, and only the save is skipped. *)
Theorem rerun_processes_again_before_skipping lanczos px old :
  let img := picture 4000 2000 px in
  let out := _resize_image_sync lanczos example_processor
               "downloads/Holiday/a.jpg" (resized_before img old) in
  fst out = Returned (true, None)
  /\ files (snd out) = files (resized_before img old)
  /\ files (snd out) !! "resized/Holiday_sq/a.jpg" = Some old
  /\ work (snd out) =
       [ Decode "downloads/Holiday/a.jpg"; Resize (1000, 500); Paste (0, 250) ].
Proof. repeat split. Qed.

(** ** Rounding to binary64 *)

Module FloatFacts.

Import PyFloat.
Local Open Scope Q_scope.

Lemma pow2_pos e : 0 < pow2 e.
Proof. unfold pow2. apply Qpower_0_lt. reflexivity. Qed.

Lemma pow2_add a b : pow2 (a + b) == pow2 a * pow2 b.
Proof. unfold pow2. apply Qpower_plus. discriminate. Qed.

Lemma pow2_inject a : (0 <= a)%Z -> inject_Z (2 ^ a) == pow2 a.
Proof. intros Ha. unfold pow2. by rewrite Zpower_Qpower. Qed.

(** A positive rational lies between the powers of two that the integer
    logarithms of its numerator and denominator give. *)
Lemma log2_quotient_bounds q :
  0 < q ->
  let k := (Z.log2 (Qnum q) - Z.log2 (Zpos (Qden q)))%Z in
  pow2 (k - 1) < q /\ q < pow2 (k + 1).
Proof.
  intros Hq. destruct q as [n d]. simpl.
  assert (0 < n)%Z as Hn by (unfold Qlt in Hq; simpl in Hq; lia).
  set (a := Z.log2 n). set (b := Z.log2 (Zpos d)).
  destruct (Z.log2_spec n Hn) as [Ha1 Ha2]. fold a in Ha1, Ha2.
  destruct (Z.log2_spec (Zpos d) (Pos2Z.is_pos d)) as [Hb1 Hb2]. fold b in Hb1, Hb2.
  assert (0 <= a)%Z as Ha0 by apply Z.log2_nonneg.
  assert (0 <= b)%Z as Hb0 by apply Z.log2_nonneg.
  assert (n # d == inject_Z n / inject_Z (Zpos d)) as Hdiv by apply Qmake_Qdiv.
  assert (0 < inject_Z (Zpos d)) as HD by (unfold Qlt; simpl; lia).
  assert ((n # d) * inject_Z (Zpos d) == inject_Z n) as Hmul.
  { rewrite Hdiv. field. intros E. rewrite E in HD. by apply Qlt_irrefl in HD. }
  assert (pow2 a <= inject_Z n) as HA1.
  { rewrite <- pow2_inject by done. by rewrite <- Zle_Qle. }
  assert (inject_Z n < pow2 (a + 1)) as HA2.
  { rewrite <- pow2_inject by lia. by rewrite <- Zlt_Qlt. }
  assert (pow2 b <= inject_Z (Zpos d)) as HB1.
  { rewrite <- pow2_inject by done. by rewrite <- Zle_Qle. }
  assert (inject_Z (Zpos d) < pow2 (b + 1)) as HB2.
  { rewrite <- pow2_inject by lia. by rewrite <- Zlt_Qlt. }
  pose proof (pow2_pos (a - b - 1)) as Hlo.
  pose proof (pow2_pos (a - b + 1)) as Hhi.
  pose proof (pow2_pos b) as Hpb.
  assert (pow2 (a - b - 1) * pow2 (b + 1) == pow2 a) as E1.
  { rewrite <- pow2_add. replace (a - b - 1 + (b + 1))%Z with a by lia. reflexivity. }
  assert (pow2 (a - b + 1) * pow2 b == pow2 (a + 1)) as E2.
  { rewrite <- pow2_add. replace (a - b + 1 + b)%Z with (a + 1)%Z by lia. reflexivity. }
  split.
  - apply Qmult_lt_r with (z := inject_Z (Zpos d)); [exact HD|].
    rewrite Hmul.
    apply Qlt_le_trans with (y := pow2 (a - b - 1) * pow2 (b + 1)).
    + apply Qmult_lt_l; [exact Hlo | exact HB2].
    + rewrite E1. exact HA1.
  - apply Qmult_lt_r with (z := inject_Z (Zpos d)); [exact HD|].
    rewrite Hmul.
    apply Qlt_le_trans with (y := pow2 (a - b + 1) * pow2 b).
    + rewrite E2. exact HA2.
    + apply Qmult_le_l; [exact Hhi | exact HB1].
Qed.

Lemma ilog2_spec q :
  0 < q -> pow2 (ilog2 q) <= q /\ q < pow2 (ilog2 q + 1).
Proof.
  intros Hq. destruct (log2_quotient_bounds q Hq) as [Hlo Hhi].
  unfold ilog2.
  set (k := (Z.log2 (Qnum q) - Z.log2 (Zpos (Qden q)))%Z) in *.
  destruct (Qle_bool (pow2 k) q) eqn:E.
  - apply Qle_bool_iff in E. split; [exact E | exact Hhi].
  - split; [by apply Qlt_le_weak|].
    replace (k - 1 + 1)%Z with k by lia.
    apply Qnot_le_lt. intros Hle. apply Qle_bool_iff in Hle. congruence.
Qed.

Lemma round_half_even_bounds s :
  s - (1 # 2) <= inject_Z (round_half_even s)
  /\ inject_Z (round_half_even s) <= s + (1 # 2).
Proof.
  unfold round_half_even.
  pose proof (Qfloor_le s) as Hlo. pose proof (Qlt_floor s) as Hhi.
  rewrite inject_Z_plus in Hhi. change (inject_Z 1) with 1 in Hhi.
  destruct (Qcompare (s - inject_Z (Qfloor s)) (1 # 2)) eqn:E.
  - apply Qeq_alt in E.
    destruct (Z.even (Qfloor s)); rewrite ?inject_Z_plus;
      change (inject_Z 1) with 1; split; lra.
  - apply Qlt_alt in E. split; lra.
  - apply Qgt_alt in E. rewrite inject_Z_plus. change (inject_Z 1) with 1. split; lra.
Qed.

Lemma rnd_pos_error q :
  0 < q -> q * (1 - unit_roundoff) <= rnd_pos q /\ rnd_pos q <= q * (1 + unit_roundoff).
Proof.
  intros Hq. unfold rnd_pos.
  destruct (ilog2_spec q Hq) as [Hlg _].
  set (e := (ilog2 q - 52)%Z) in *.
  pose proof (pow2_pos e) as HP.
  assert (pow2 (ilog2 q) == 4503599627370496 * pow2 e) as Hsplit.
  { replace (ilog2 q) with (52 + e)%Z by (unfold e; lia).
    rewrite pow2_add. apply Qmult_comp; reflexivity. }
  rewrite Hsplit in Hlg.
  destruct (round_half_even_bounds (q / pow2 e)) as [Hlo Hhi].
  set (m := inject_Z (round_half_even (q / pow2 e))) in *.
  assert (q / pow2 e * pow2 e == q) as Hs by (field; lra).
  apply (Qmult_le_compat_r _ _ (pow2 e)) in Hlo; [|lra].
  apply (Qmult_le_compat_r _ _ (pow2 e)) in Hhi; [|lra].
  unfold unit_roundoff. split; lra.
Qed.

Lemma rnd53_error q :
  0 < q -> q * (1 - unit_roundoff) <= rnd53 q /\ rnd53 q <= q * (1 + unit_roundoff).
Proof.
  intros Hq. unfold rnd53. rewrite Qred_correct.
  destruct (Qcompare q 0) eqn:E.
  - apply Qeq_alt in E. lra.
  - apply Qlt_alt in E. lra.
  - by apply rnd_pos_error.
Qed.

Lemma rnd53_pos q : 0 < q -> 0 < rnd53 q.
Proof. intros Hq. destruct (rnd53_error q Hq) as [H _]. unfold unit_roundoff in H. lra. Qed.

(** The wide case: the height computed from a target width stays below
    the target height plus one. *)
Lemma wide_case_below TW TH t a n y x :
  0 < TW -> 0 < TH -> TH <= 2147483648 ->
  TW * (1 - unit_roundoff) <= t * TH ->
  t < a ->
  0 < n -> n <= TW * (1 + unit_roundoff) ->
  y * a == n ->
  x <= y * (1 + unit_roundoff) ->
  x < TH + 1.
Proof.
  intros HTW HTH Hbig Ht Hta Hn HnTW Hy Hx.
  assert (0 < 1 - unit_roundoff) as Hu1 by (unfold unit_roundoff; lra).
  assert (0 < t) as Ht0.
  { apply Qnot_le_lt. intros Hle.
    assert (t * TH <= 0 * TH) as H0 by (apply Qmult_le_compat_r; lra).
    assert (0 < TW * (1 - unit_roundoff)) as H1 by (apply Qmult_lt_0_compat; lra).
    lra. }
  assert (0 < a) as Ha0 by lra.
  assert (0 < y) as Hy0.
  { apply Qnot_le_lt. intros Hle.
    assert (y * a <= 0 * a) as H0 by (apply Qmult_le_compat_r; lra). lra. }
  assert (y * t <= y * a) as H1 by (apply Qmult_le_l; lra).
  assert (y * (TW * (1 - unit_roundoff)) <= y * (t * TH)) as H2 by (apply Qmult_le_l; lra).
  assert (y * t * TH <= TW * (1 + unit_roundoff) * TH) as H3 by (apply Qmult_le_compat_r; lra).
  assert (TW * (y * (1 - unit_roundoff)) <= TW * (TH * (1 + unit_roundoff))) as H4 by lra.
  apply Qmult_le_l in H4; [|exact HTW].
  unfold unit_roundoff in *. lra.
Qed.

(** The tall case: the width computed from a target height stays below the
    target width plus one. *)
Lemma tall_case_below TW TH t a n x :
  0 < TW -> TW <= 2147483648 -> 0 < TH ->
  t * TH <= TW * (1 + unit_roundoff) ->
  0 < a -> a <= t ->
  0 < n -> n <= TH * (1 + unit_roundoff) ->
  x <= n * a * (1 + unit_roundoff) ->
  x < TW + 1.
Proof.
  unfold unit_roundoff. intros HTW Hbig HTH Ht Ha0 Hat Hn HnTH Hx.
  set (c := 1 + (1 # 9007199254740992)) in *.
  assert (0 < c) as Hc by (unfold c; lra).
  assert (n * a <= TH * c * a) as H1 by (apply Qmult_le_compat_r; lra).
  assert (a * TH <= t * TH) as H2 by (apply Qmult_le_compat_r; lra).
  assert (c * (a * TH) <= c * (TW * c)) as H3 by (apply Qmult_le_l; lra).
  assert (n * a * c <= c * (TW * c) * c) as H4 by (apply Qmult_le_compat_r; lra).
  unfold c in *. lra.
Qed.

Lemma inject_Z_pos n : (0 < n)%Z -> 0 < inject_Z n.
Proof. intros H. change 0 with (inject_Z 0). by rewrite <- Zlt_Qlt. Qed.

Lemma of_int_bounds n :
  (0 < n)%Z -> 0 < of_int n /\ of_int n <= inject_Z n * (1 + unit_roundoff).
Proof.
  intros Hn. unfold of_int. split.
  - by apply rnd53_pos, inject_Z_pos.
  - by apply rnd53_error, inject_Z_pos.
Qed.

(** [int] of a float that lies in [0, n + 1) is in [0, n]. *)
Lemma int_of_float_below x n :
  0 <= x -> x < inject_Z n + 1 -> (0 <= int_of_float x <= n)%Z.
Proof.
  intros H0 Hn. unfold int_of_float.
  apply Qle_bool_iff in H0 as Hb. rewrite Hb. split.
  - change 0%Z with (Qfloor 0). by apply Qfloor_resp_le.
  - pose proof (Qfloor_le x) as Hf.
    assert (inject_Z (Qfloor x) < inject_Z (n + 1)) as Hlt
      by (rewrite inject_Z_plus; change (inject_Z 1) with 1; lra).
    rewrite <- Zlt_Qlt in Hlt. lia.
Qed.

End FloatFacts.

(** ** The size of the scaled picture *)


(** C2, as amended. For a picture and a target box with sides between 1
    and 2^31, the aspect ratios exist; if the picture's ratio is the
    greater the scaled size is [(tw, int(tw / (w/h)))], otherwise it is
    [(int(th * (w/h)), th)], with [int] the truncation toward zero that the
    source applies where the claim has [round]; and in both cases the
    scaled picture fits the box: [0 <= new_width <= tw] and
    [0 <= new_height <= th]. *)
Theorem letterbox_size_truncates_and_fits w h tw th :
  0 < w < 2 ^ 31 -> 0 < h < 2 ^ 31 -> 0 < tw < 2 ^ 31 -> 0 < th < 2 ^ 31 ->
  exists original_aspect target_aspect new_width new_height,
    int_truediv w h = Returned original_aspect
    /\ int_truediv tw th = Returned target_aspect
    /\ letterbox_size w h tw th = Returned (new_width, new_height)
    /\ (if gt original_aspect target_aspect
        then new_width = tw
             /\ exists x, int_div_float tw original_aspect = Returned x
                          /\ new_height = int_of_float x
        else new_height = th
             /\ new_width = int_of_float (int_mul_float th original_aspect))
    /\ 0 <= new_width <= tw
    /\ 0 <= new_height <= th.
Proof.
  intros Hw Hh Htw Hth.
  unfold letterbox_size, int_truediv.
  destruct (Z.eqb_spec h 0) as [|_]; [lia|].
  destruct (Z.eqb_spec th 0) as [|_]; [lia|].
  set (a := rnd53 (inject_Z w / inject_Z h)).
  set (t := rnd53 (inject_Z tw / inject_Z th)).
  pose proof (FloatFacts.inject_Z_pos w (proj1 Hw)) as HW.
  pose proof (FloatFacts.inject_Z_pos h (proj1 Hh)) as HH.
  pose proof (FloatFacts.inject_Z_pos tw (proj1 Htw)) as HTW.
  pose proof (FloatFacts.inject_Z_pos th (proj1 Hth)) as HTH.
  assert (inject_Z tw <= 2147483648)%Q as HTWb
    by (change 2147483648%Q with (inject_Z (2 ^ 31)); rewrite <- Zle_Qle; lia).
  assert (inject_Z th <= 2147483648)%Q as HTHb
    by (change 2147483648%Q with (inject_Z (2 ^ 31)); rewrite <- Zle_Qle; lia).
  assert (0 < inject_Z w / inject_Z h)%Q as Hq1 by (apply Qlt_shift_div_l; lra).
  assert (0 < inject_Z tw / inject_Z th)%Q as Hq2 by (apply Qlt_shift_div_l; lra).
  pose proof (FloatFacts.rnd53_pos _ Hq1) as Ha0. fold a in Ha0.
  destruct (FloatFacts.rnd53_error _ Hq2) as [Htlo Hthi]. fold t in Htlo, Hthi.
  assert (inject_Z tw / inject_Z th * inject_Z th == inject_Z tw)%Q as Hr
    by (field; lra).
  assert (inject_Z tw * (1 - unit_roundoff) <= t * inject_Z th)%Q as Htlo'.
  { apply (Qmult_le_compat_r _ _ (inject_Z th)) in Htlo; [|lra].
    unfold unit_roundoff in *. lra. }
  assert (t * inject_Z th <= inject_Z tw * (1 + unit_roundoff))%Q as Hthi'.
  { apply (Qmult_le_compat_r _ _ (inject_Z th)) in Hthi; [|lra].
    unfold unit_roundoff in *. lra. }
  exists a, t.
  unfold gt. destruct (Qle_bool a t) eqn:Hcmp; simpl.
  - (* the picture is not the wider one: fit to the target height *)
    apply Qle_bool_iff in Hcmp.
    exists (int_of_float (int_mul_float th a)), th.
    split; [reflexivity|]. split; [reflexivity|]. split; [reflexivity|].
    split; [split; reflexivity|]. split; [|lia].
    destruct (FloatFacts.of_int_bounds th (proj1 Hth)) as [Hn0 Hn].
    unfold int_mul_float.
    assert (0 < of_int th * a)%Q as Hz by (apply Qmult_lt_0_compat; lra).
    destruct (FloatFacts.rnd53_error _ Hz) as [_ Hx].
    pose proof (FloatFacts.rnd53_pos _ Hz) as Hx0.
    apply FloatFacts.int_of_float_below; [lra|].
    eapply FloatFacts.tall_case_below with (TH := inject_Z th) (t := t) (a := a)
      (n := of_int th); eauto.
  - (* the picture is the wider one: fit to the target width *)
    assert (t < a)%Q as Hta.
    { apply Qnot_le_lt. intros Hle. apply Qle_bool_iff in Hle. congruence. }
    unfold int_div_float.
    destruct (Qeq_bool a 0) eqn:Hz0.
    { apply Qeq_bool_iff in Hz0. lra. }
    exists tw, (int_of_float (rnd53 (of_int tw / a))).
    split; [reflexivity|]. split; [reflexivity|]. split; [reflexivity|].
    split; [split; [reflexivity | eexists; split; reflexivity]|].
    split; [lia|].
    destruct (FloatFacts.of_int_bounds tw (proj1 Htw)) as [Hn0 Hn].
    assert (0 < of_int tw / a)%Q as Hy by (apply Qlt_shift_div_l; lra).
    destruct (FloatFacts.rnd53_error _ Hy) as [_ Hx].
    pose proof (FloatFacts.rnd53_pos _ Hy) as Hx0.
    apply FloatFacts.int_of_float_below; [lra|].
    eapply FloatFacts.wide_case_below with (TW := inject_Z tw) (t := t) (a := a)
      (n := of_int tw) (y := (of_int tw / a)%Q); eauto.
    field. lra.
Qed.

(** At the example of the specification. *)
Lemma letterbox_size_truncates_and_fits_witness :
  exists new_width new_height,
    letterbox_size 4000 2000 1000 1000 = Returned (new_width, new_height)
    /\ 0 <= new_width <= 1000 /\ 0 <= new_height <= 1000.
Proof.
  destruct (letterbox_size_truncates_and_fits 4000 2000 1000 1000)
    as (a & t & nw & nh & _ & _ & Hsize & _ & Hw & Hh); try lia.
  exists nw, nh. split; [exact Hsize|]. split; [exact Hw | exact Hh].
Defined.

(** C2 as stated fails: for a 3 by 2 picture and a 4 by 100 box the source
    computes the height [int(4 / 1.5) = 2] where [round] gives 3; for a 29
    by 100 picture and a 1000 by 100 box it computes the width
    [int(100 * 0.29) = 28] where [round] gives 29. *)
Lemma letterbox_size_is_not_rounded :
  letterbox_size 3 2 4 100 = Returned (4, 2)
  /\ letterbox_size_rounded 3 2 4 100 = Returned (4, 3)
  /\ letterbox_size 29 100 1000 100 = Returned (28, 100)
  /\ letterbox_size_rounded 29 100 1000 100 = Returned (29, 100).
Proof. repeat split; vm_compute; reflexivity. Qed.

(** The rounding of the model against the IEEE 754 reference
    implementation of the Standard Library, on the values above. *)
Example rnd53_agrees_with_reference :
  sf_value (SFdiv 53 1024 (b64 29) (b64 100)) = rnd53 (29 # 100)
  /\ sf_value (SFmul 53 1024 (b64 100) (SFdiv 53 1024 (b64 29) (b64 100)))
       = int_mul_float 100 (rnd53 (29 # 100))
  /\ sf_value (SFdiv 53 1024 (b64 4) (SFdiv 53 1024 (b64 3) (b64 2)))
       = rnd53 (of_int 4 / rnd53 (3 # 2))
  /\ sf_value (b64 9007199254740993) = of_int 9007199254740993.
Proof. repeat split; vm_compute; reflexivity. Qed.

(* --------------------------------------------------------------------- *)
(** ** More of the task and album store *)

Import StoreOps.

Lemma dict_of_rows_snoc rows k v :
  dict_of_rows (rows ++ [(k, v)]) = <[k := v]> (dict_of_rows rows).
Proof. unfold dict_of_rows. by rewrite fold_left_app. Qed.

Lemma dict_of_rows_lookup rows a :
  dict_of_rows rows !! a = snd <$> last (filter (fun row => fst row = a) rows).
Proof.
  induction rows as [|[k v] rows IH] using rev_ind; [done|].
  rewrite dict_of_rows_snoc, filter_app.
  rewrite filter_cons, filter_nil. simpl.
  destruct (decide (k = a)) as [->|Hne].
  - rewrite lookup_insert_eq, last_snoc. reflexivity.
  - rewrite lookup_insert_ne by done. rewrite app_nil_r. exact IH.
Qed.

(** A read uses its entry of the schedule and leaves the rest of the world;
    it raises when the store refuses it and yields the value otherwise. *)
Lemma query_outcome {A} (q : db -> A) w :
  query q w = (unless_refused w (q (w_db w)), after_unit w).
Proof.
  unfold query, unless_refused, after_unit.
  destruct (w_faults w) as [|[msg|] fs]; reflexivity.
Qed.

(** X3. [get_local_asset_counts] changes no table. When the store refuses
    the read it raises [OperationalError], which the method does not
    handle. Otherwise it maps each gallery album id that has a row in
    [downloaded_albums] to the [photo_count] of the latest such row, so an
    album downloaded twice is counted once, with the later count; an album
    without a row has no entry. *)
Theorem get_local_asset_counts_last_row_wins w :
  exists m,
    get_local_asset_counts w = (unless_refused w m, after_unit w)
    /\ forall album_id,
         m !! album_id =
           da_photo_count <$>
             last (filter (fun a => da_album_id a = album_id) (downloaded_albums (w_db w))).
Proof.
  exists (dict_of_rows (select_album_counts (w_db w))). split.
  - unfold get_local_asset_counts, bind. rewrite query_outcome.
    unfold unless_refused, ret. destruct (w_faults w) as [|[msg|] fs]; reflexivity.
  - intros album_id.
    rewrite dict_of_rows_lookup. unfold select_album_counts.
    induction (downloaded_albums (w_db w)) as [|r l IH] using rev_ind; [done|].
    rewrite map_app, !filter_app. simpl. rewrite !filter_cons, !filter_nil. simpl.
    destruct (decide (da_album_id r = album_id)).
    + by rewrite !last_snoc.
    + by rewrite !app_nil_r.
Qed.

Lemma get_resize_task_zip_outcome task_id w :
  get_resize_task_zip task_id w
  = (unless_refused w (match select_completed_zip task_id (w_db w) with
                       | Some zip_data => zip_data
                       | None => None
                       end), after_unit w).
Proof.
  unfold get_resize_task_zip, bind. rewrite query_outcome.
  unfold unless_refused, ret. destruct (w_faults w) as [|[msg|] fs]; reflexivity.
Qed.

(** X11. [delete_completed_download]. When the store refuses the unit of work
    the call raises [OperationalError] (it has no handler) and the database
    is unchanged. Otherwise it returns [True] exactly when the table holds a
    task of that id whose status is ['completed'], and then removes that row
    and nothing else; for an unknown id and for a task in any other status it
    returns [False] and changes nothing. Either way a [get_resize_task_zip]
    that the store lets through yields [None] for the id afterwards, and
    the other tables are as before. *)
Theorem delete_completed_download_spec task_id w :
  let out := delete_completed_download task_id w in
  match w_faults w with
  | Some msg :: _ =>
      fst out = Raised (OperationalError msg) /\ w_db (snd out) = w_db w
  | _ =>
      exists deleted : bool,
        fst out = Returned deleted
        /\ (deleted = true <->
            exists row, resize_tasks (w_db w) !! task_id = Some row
                        /\ rt_status row = "completed"%string)
        /\ resize_tasks (w_db (snd out)) =
             (if deleted then delete task_id (resize_tasks (w_db w))
              else resize_tasks (w_db w))
        /\ download_tasks (w_db (snd out)) = download_tasks (w_db w)
        /\ downloaded_albums (w_db (snd out)) = downloaded_albums (w_db w)
        /\ album_chunks (w_db (snd out)) = album_chunks (w_db w)
        /\ fst (get_resize_task_zip task_id (snd out)) = unless_refused (snd out) None
  end.
Proof.
  simpl. rewrite get_resize_task_zip_outcome. simpl.
  unfold delete_completed_download, bind, transaction, delete_completed_resize_task, ret.
  unfold select_completed_zip.
  destruct (w_faults w) as [|[msg|] fs]; simpl; [|done|];
    (destruct (resize_tasks (w_db w) !! task_id) as [row|] eqn:Hrow;
     [destruct (String.eqb_spec (rt_status row) "completed") as [Hst|Hst]|]; simpl;
     [ exists true; rewrite lookup_delete_eq; repeat split; eauto
     | exists false; rewrite Hrow; simpl;
       rewrite (proj2 (String.eqb_neq _ _) Hst); repeat split; try done;
       intros (row' & [= <-] & ?); done
     | exists false; rewrite Hrow; repeat split; try done;
       intros (row' & ? & ?); done ]).
Qed.



(** X5. An update whose arguments are all absent or falsy ([None], the empty
    string for [status] and [current_step], empty bytes for [zip_data])
    returns without opening a connection: the world is as before, no unit of
    work is used, and a busy store cannot make it fail. Hence no update can
    clear [current_step] or store an empty archive. *)
Theorem update_without_values_is_a_no_op task_id w :
  (forall status progress current_step,
     truthy_str status = None -> progress = None -> truthy_str current_step = None ->
     update_download_task task_id status progress current_step w = (Returned tt, w))
  /\ (forall a,
        truthy_str (ru_status a) = None -> ru_progress a = None ->
        truthy_str (ru_current_step a) = None -> truthy_bytes (ru_zip_data a) = None ->
        ru_zip_size a = None -> ru_processed_count a = None -> ru_total a = None ->
        update_resize_task task_id a w = (Returned tt, w)).
Proof.
  split.
  - intros status progress current_step Hs -> Hc. unfold update_download_task.
    rewrite Hs, Hc. reflexivity.
  - intros a Hs Hp Hc Hz Hn Hpc Ht. unfold update_resize_task.
    rewrite Hs, Hp, Hc, Hz, Hn, Hpc, Ht. reflexivity.
Qed.

(** An update that passes only empty strings, on a busy store: it returns,
    and the world is as before. *)
Lemma update_without_values_is_a_no_op_witness :
  update_download_task "t1" (Some ""%string) None (Some ""%string) (busy world_pending)
  = (Returned tt, busy world_pending).
Proof.
  exact (proj1 (update_without_values_is_a_no_op "t1" (busy world_pending))
           (Some ""%string) None (Some ""%string) eq_refl eq_refl eq_refl).
Defined.

Lemma alter_absent {A} (f : A -> A) (k : string) (m : gmap string A) :
  m !! k = None -> alter f k m = m.
Proof.
  intros Hk. apply map_eq. intros k'.
  destruct (decide (k' = k)) as [->|Hne].
  - by rewrite lookup_alter_eq, Hk.
  - by rewrite lookup_alter_ne.
Qed.

Lemma with_resize_tasks_same d : with_resize_tasks (resize_tasks d) d = d.
Proof. by destruct d. Qed.

(** X6. Updating a task id that has no row changes no table, creates no row
    and prints nothing. [update_resize_task] returns, unless the store
    refuses the unit of work. The updates of a download task do not reach
    the store, for a missing id as for any other:
    [update_download_task_total] raises [TypeError], and so does
    [update_download_task] whenever it has a value to write; both leave
    the world as it was. *)
Theorem update_of_unknown_task_is_silent task_id w :
  (resize_tasks (w_db w) !! task_id = None ->
   forall a,
     w_db (snd (update_resize_task task_id a w)) = w_db w
     /\ w_stdout (snd (update_resize_task task_id a w)) = w_stdout w
     /\ (refused w = false -> fst (update_resize_task task_id a w) = Returned tt))
  /\ (forall status progress current_step,
        update_download_task task_id status progress current_step w
        = (match truthy_str status, progress, truthy_str current_step with
           | None, None, None => Returned tt
           | _, _, _ => Raised (TypeError not_a_context_manager)
           end, w))
  /\ (forall total,
        update_download_task_total task_id total w
        = (Raised (TypeError not_a_context_manager), w)).
Proof.
  split; [|split].
  - intros Hnone a. unfold update_resize_task.
    destruct (truthy_str (ru_status a)) as [s|]; [destruct (String.eqb s "completed")|];
      split_resize_args a; run_update;
      try (destruct (w_faults w) as [|[msg|] fs]; simpl);
      rewrite ?alter_absent, ?with_resize_tasks_same by done;
      (split; [reflexivity|]); (split; [reflexivity | intros; done]).
  - intros status progress current_step. unfold update_download_task.
    destruct (truthy_str status) as [s|]; [destruct (String.eqb s "completed")|];
      destruct progress as [p|], (truthy_str current_step) as [c|]; reflexivity.
  - intros total. reflexivity.
Qed.

(** Completing a resize task that does not exist returns and changes
    nothing. *)
Lemma update_of_unknown_task_is_silent_witness :
  fst (update_resize_task "nobody" (only_status "completed") world_resizing) = Returned tt
  /\ w_db (snd (update_resize_task "nobody" (only_status "completed") world_resizing))
     = w_db world_resizing.
Proof.
  destruct (proj1 (update_of_unknown_task_is_silent "nobody" world_resizing) eq_refl
              (only_status "completed")) as (Hdb & _ & Hr).
  split; [exact (Hr eq_refl) | exact Hdb].
Defined.

Lemma do_step_frame s w :
  dom (download_tasks (w_db (do_step s w))) = dom (download_tasks (w_db w))
  /\ dom (resize_tasks (w_db (do_step s w))) = dom (resize_tasks (w_db w))
  /\ downloaded_albums (w_db (do_step s w)) = downloaded_albums (w_db w)
  /\ downloaded_albums_seq (w_db (do_step s w)) = downloaded_albums_seq (w_db w)
  /\ album_chunks (w_db (do_step s w)) = album_chunks (w_db w).
Proof.
  destruct s as [now faults c]. unfold do_step. simpl.
  destruct c as [id st pr cs | id tot | id a]; simpl.
  - by rewrite update_download_task_world.
  - done.
  - unfold update_resize_task.
    destruct (truthy_str (ru_status a)) as [s|]; [destruct (String.eqb s "completed")|];
      split_resize_args a; run_update;
      try (destruct faults as [|[msg|] fs]; simpl);
      rewrite ?dom_alter_L; done.
Qed.

(** A run of updates keeps the ids of both task tables. *)
Lemma run_steps_keep_ids steps : forall w,
  dom (download_tasks (w_db (run_steps steps w))) = dom (download_tasks (w_db w))
  /\ dom (resize_tasks (w_db (run_steps steps w))) = dom (resize_tasks (w_db w)).
Proof.
  induction steps as [|s steps IH]; intros w; simpl; [done|].
  destruct (IH (do_step s w)) as (H1 & H2).
  destruct (do_step_frame s w) as (F1 & F2 & _).
  unfold run_steps in *. simpl. rewrite H1, H2, F1, F2. done.
Qed.

(** X8. No run of task updates, under any faults of the store, creates or
    deletes a task, an album row or a chunk row: the ids of both task tables
    and the contents of the two album tables are after the run what they were
    before it. *)
Theorem updates_keep_the_set_of_tasks steps w :
  dom (download_tasks (w_db (run_steps steps w))) = dom (download_tasks (w_db w))
  /\ dom (resize_tasks (w_db (run_steps steps w))) = dom (resize_tasks (w_db w))
  /\ downloaded_albums (w_db (run_steps steps w)) = downloaded_albums (w_db w)
  /\ album_chunks (w_db (run_steps steps w)) = album_chunks (w_db w).
Proof.
  revert w. induction steps as [|s steps IH]; intros w; [done|].
  destruct (IH (do_step s w)) as (H1 & H2 & H3 & H4).
  destruct (do_step_frame s w) as (F1 & F2 & F3 & _ & F4).
  unfold run_steps in *. simpl.
  rewrite H1, H2, H3, H4, F1, F2, F3, F4. done.
Qed.

Lemma create_download_task_returned task_id album_id album_name total w :
  fst (create_download_task task_id album_id album_name total w) = Returned tt ->
  download_tasks (w_db (snd (create_download_task task_id album_id album_name total w)))
    !! task_id
  = Some {| dt_album_id := album_id; dt_album_name := album_name;
            dt_status := "pending"; dt_progress := 0; dt_total := total;
            dt_current_step := Some "Initializing..."%string;
            dt_created_at := w_now w; dt_completed_at := None |}.
Proof.
  unfold create_download_task, transaction, insert_download_task.
  destruct (w_faults w) as [|[msg|] fs]; simpl; try discriminate;
    (destruct (download_tasks (w_db w) !! task_id); simpl; [discriminate|]);
    intros _; by rewrite lookup_insert_eq.
Qed.

Lemma create_resize_task_returned task_id downloaded_album_id profile_id total w :
  fst (create_resize_task task_id downloaded_album_id profile_id total w) = Returned tt ->
  resize_tasks (w_db (snd (create_resize_task task_id downloaded_album_id profile_id total w)))
    !! task_id
  = Some {| rt_downloaded_album_id := downloaded_album_id; rt_profile_id := profile_id;
            rt_status := "pending"; rt_progress := 0; rt_total := total;
            rt_current_step := Some "Initializing..."%string;
            rt_zip_data := None; rt_zip_size := 0; rt_processed_count := 0;
            rt_created_at := w_now w; rt_completed_at := None |}.
Proof.
  unfold create_resize_task, transaction, insert_resize_task.
  destruct (w_faults w) as [|[msg|] fs]; simpl; try discriminate;
    (destruct (resize_tasks (w_db w) !! task_id); simpl; [discriminate|]);
    intros _; by rewrite lookup_insert_eq.
Qed.

Lemma create_download_task_taken task_id album_id album_name total w :
  is_Some (download_tasks (w_db w) !! task_id) ->
  refused w = false ->
  create_download_task task_id album_id album_name total w
  = (Raised (IntegrityError "UNIQUE constraint failed: download_tasks.id"),
     set_faults (tail (w_faults w)) w).
Proof.
  intros [row Hrow] Hok.
  unfold create_download_task, transaction, insert_download_task, refused in *.
  destruct (w_faults w) as [|[msg|] fs]; try discriminate; by rewrite Hrow.
Qed.

Lemma create_resize_task_taken task_id downloaded_album_id profile_id total w :
  is_Some (resize_tasks (w_db w) !! task_id) ->
  refused w = false ->
  create_resize_task task_id downloaded_album_id profile_id total w
  = (Raised (IntegrityError "UNIQUE constraint failed: resize_tasks.id"),
     set_faults (tail (w_faults w)) w).
Proof.
  intros [row Hrow] Hok.
  unfold create_resize_task, transaction, insert_resize_task, refused in *.
  destruct (w_faults w) as [|[msg|] fs]; try discriminate; by rewrite Hrow.
Qed.

(** X9. A task id is taken for good. Once [create_download_task] has
    returned, creating a download task of the same id again raises
    [IntegrityError], which the function does not handle, and leaves the
    database as it is, whatever updates the tasks have seen in between; and
    likewise for [create_resize_task]. *)
Theorem created_task_id_stays_taken task_id steps w :
  (forall album_id album_name total,
     fst (create_download_task task_id album_id album_name total w) = Returned tt ->
     let w1 := run_steps steps
                 (snd (create_download_task task_id album_id album_name total w)) in
     forall album_id' album_name' total' w2,
       w_db w2 = w_db w1 -> refused w2 = false ->
       fst (create_download_task task_id album_id' album_name' total' w2)
         = Raised (IntegrityError "UNIQUE constraint failed: download_tasks.id")
       /\ w_db (snd (create_download_task task_id album_id' album_name' total' w2))
          = w_db w1)
  /\ (forall downloaded_album_id profile_id total,
        fst (create_resize_task task_id downloaded_album_id profile_id total w)
          = Returned tt ->
        let w1 := run_steps steps
                    (snd (create_resize_task task_id downloaded_album_id profile_id
                            total w)) in
        forall downloaded_album_id' profile_id' total' w2,
          w_db w2 = w_db w1 -> refused w2 = false ->
          fst (create_resize_task task_id downloaded_album_id' profile_id' total' w2)
            = Raised (IntegrityError "UNIQUE constraint failed: resize_tasks.id")
          /\ w_db (snd (create_resize_task task_id downloaded_album_id' profile_id'
                          total' w2))
             = w_db w1).
Proof.
  split.
  - intros album_id album_name total Hret w1 album_id' album_name' total' w2 Hdb Hok.
    apply create_download_task_returned in Hret.
    assert (is_Some (download_tasks (w_db w2) !! task_id)) as Htaken.
    { rewrite Hdb. apply elem_of_dom. subst w1.
      rewrite (proj1 (run_steps_keep_ids steps _)).
      apply elem_of_dom. eauto. }
    rewrite create_download_task_taken by done. simpl. by rewrite <- Hdb.
  - intros da pid total Hret w1 da' pid' total' w2 Hdb Hok.
    apply create_resize_task_returned in Hret.
    assert (is_Some (resize_tasks (w_db w2) !! task_id)) as Htaken.
    { rewrite Hdb. apply elem_of_dom. subst w1.
      rewrite (proj2 (run_steps_keep_ids steps _)).
      apply elem_of_dom. eauto. }
    rewrite create_resize_task_taken by done. simpl. by rewrite <- Hdb.
Qed.

(** The resize task "r1" is created, completed, and cannot be created
    again. *)
Lemma created_task_id_stays_taken_witness :
  fst (create_resize_task "r1" 2 1 3
         (run_steps
            [ {| s_now := 5; s_faults := [];
                 s_call := UpdateResize "r1" (only_status "completed") |} ]
            (snd (create_resize_task "r1" 1 1 10 world0))))
  = Raised (IntegrityError "UNIQUE constraint failed: resize_tasks.id").
Proof.
  exact (proj1 (proj2 (created_task_id_stays_taken "r1"
                  [ {| s_now := 5; s_faults := [];
                       s_call := UpdateResize "r1" (only_status "completed") |} ]
                  world0)
                  1 1 10 eq_refl
                  2 1 3
                  (run_steps
                     [ {| s_now := 5; s_faults := [];
                          s_call := UpdateResize "r1" (only_status "completed") |} ]
                     (snd (create_resize_task "r1" 1 1 10 world0)))
                  eq_refl eq_refl)).
Defined.

(** X7. An update touches one row. Every other row of the task's table and
    the whole other task table are as before; and in the addressed row the
    columns that identify the task stay: [album_id], [album_name], [total]
    and [created_at] of a download task, [downloaded_album_id], [profile_id]
    and [created_at] of a resize task. *)
Theorem task_update_touches_one_row task_id w :
  (forall status progress current_step,
     let w' := snd (update_download_task task_id status progress current_step w) in
     (forall id', id' <> task_id ->
        download_tasks (w_db w') !! id' = download_tasks (w_db w) !! id')
     /\ resize_tasks (w_db w') = resize_tasks (w_db w)
     /\ forall row, download_tasks (w_db w) !! task_id = Some row ->
          exists row',
            download_tasks (w_db w') !! task_id = Some row'
            /\ dt_album_id row' = dt_album_id row
            /\ dt_album_name row' = dt_album_name row
            /\ dt_total row' = dt_total row
            /\ dt_created_at row' = dt_created_at row)
  /\ (forall a,
        let w' := snd (update_resize_task task_id a w) in
        (forall id', id' <> task_id ->
           resize_tasks (w_db w') !! id' = resize_tasks (w_db w) !! id')
        /\ download_tasks (w_db w') = download_tasks (w_db w)
        /\ forall row, resize_tasks (w_db w) !! task_id = Some row ->
             exists row',
               resize_tasks (w_db w') !! task_id = Some row'
               /\ rt_downloaded_album_id row' = rt_downloaded_album_id row
               /\ rt_profile_id row' = rt_profile_id row
               /\ rt_created_at row' = rt_created_at row).
Proof.
  split.
  - intros status progress current_step w'. subst w'.
    rewrite update_download_task_world.
    split; [done|]. split; [done|]. intros row Hrow. eauto 10.
  - intros a w'. subst w'.
    split; [intros id' Hne; by apply update_resize_task_other|].
    split; [apply update_resize_task_download_tasks|].
    intros row Hrow. unfold update_resize_task.
    destruct (truthy_str (ru_status a)) as [s|]; [destruct (String.eqb s "completed")|];
      split_resize_args a; run_update;
      try (destruct (w_faults w) as [|[msg|] fs]; simpl);
      rewrite ?lookup_alter_eq, ?Hrow; simpl; eauto 10.
Qed.

(** Failing the running resize task of [world_resizing] keeps its album and
    its profile. *)
Lemma task_update_touches_one_row_witness :
  exists row',
    resize_tasks
      (w_db (snd (update_resize_task "r1" (only_status "failed") world_resizing)))
      !! "r1" = Some row'
    /\ rt_downloaded_album_id row' = 1
    /\ rt_profile_id row' = 1.
Proof.
  destruct (proj2 (proj2 (proj2 (task_update_touches_one_row "r1" world_resizing)
                            (only_status "failed")))
              {| rt_downloaded_album_id := 1; rt_profile_id := 1;
                 rt_status := "running"; rt_progress := 5; rt_total := 10;
                 rt_current_step := Some "Resizing"%string;
                 rt_zip_data := None; rt_zip_size := 0; rt_processed_count := 0;
                 rt_created_at := 0; rt_completed_at := None |}
              eq_refl) as (row' & Hrow & Ha & Hp & _).
  exists row'. split; [exact Hrow|]. split; [exact Ha | exact Hp].
Defined.

(** X12. The asset-count expression of [sync_immich_albums] never raises. It
    is 0 whenever the record has no list under ['assets'], whatever its count
    fields say; otherwise it is [assetCount] if that is truthy, else
    [assetCountTotal] if that is truthy, else the list under ['assets']
    itself. *)
Theorem asset_count_never_raises album :
  exists v,
    asset_count album = Returned v
    /\ match album !! "assets" with
       | Some (PyList l) =>
           v = (if truthy (dict_get album "assetCount") then dict_get album "assetCount"
                else if truthy (dict_get album "assetCountTotal")
                     then dict_get album "assetCountTotal"
                     else PyList l)
       | _ => v = PyInt 0
       end.
Proof.
  rewrite asset_count_cases. unfold py_or.
  destruct (album !! "assets") as [[| | | | l |]|]; eauto.
Qed.

(* --------------------------------------------------------------------- *)
(** ** More of the resize engine *)

(** X13. [_resize_image_sync] never raises: every exception ends as the
    pair [(False, message)], and the flag is [True] exactly when there is no
    message. So the handler of the wrapper [resize_image] is never entered,
    and the wrapper returns what the body returns. *)
Theorem resize_image_never_raises lanczos self image_path s :
  exists ok msg,
    fst (_resize_image_sync lanczos self image_path s) = Returned (ok, msg)
    /\ (ok = true <-> msg = None)
    /\ resize_image lanczos self image_path s
       = _resize_image_sync lanczos self image_path s.
Proof.
  unfold resize_image, try_except.
  pose proof (resize_sync_cases lanczos self image_path s) as H.
  destruct (files s !! image_path) as [img|].
  - simpl in H. rewrite H.
    destruct (fst (for_each_profile _ _ _ _ _ _ _ _ _)) as [[]|e]; simpl;
      eexists _, _; (split; [reflexivity|]); split; done.
  - destruct H as [msg ->]. simpl. eexists _, _. split; [reflexivity|]. split; done.
Qed.

(** X14. A resize call never overwrites or removes anything: every file that
    exists before the call exists after it with the same content, and every
    directory stays. This holds whether the call succeeds or fails, and for
    any resampling filter. *)
Theorem resize_keeps_every_existing_file lanczos self image_path s :
  let s' := snd (_resize_image_sync lanczos self image_path s) in
  (forall path img, files s !! path = Some img -> files s' !! path = Some img)
  /\ dirs s ⊆ dirs s'.
Proof.
  simpl.
  pose proof (resize_sync_cases lanczos self image_path s) as H.
  destruct (files s !! image_path) as [img|].
  - simpl in H. rewrite H. simpl.
    match goal with |- context [for_each_profile ?a ?b ?c ?d ?e ?f ?g ?h ?i] =>
      destruct (for_each_profile_grows a b c d e f g h i) as [Hf Hd] end.
    simpl in *. split; [|exact Hd].
    intros path img0 Hp. eapply lookup_weaken; eauto.
  - destruct H as [msg ->]. simpl. split; [auto | done].
Qed.

(** The output that is there before the re-run is there after it. *)
Lemma resize_keeps_every_existing_file_witness :
  files (snd (_resize_image_sync nearest_neighbour example_processor
                "downloads/Holiday/a.jpg"
                (resized_before (picture 4000 2000 white) (picture 1 1 white))))
    !! "resized/Holiday_sq/a.jpg"%string
  = Some (picture 1 1 white).
Proof.
  exact (proj1 (resize_keeps_every_existing_file nearest_neighbour example_processor
                  "downloads/Holiday/a.jpg"
                  (resized_before (picture 4000 2000 white) (picture 1 1 white)))
           "resized/Holiday_sq/a.jpg"%string (picture 1 1 white) eq_refl).
Defined.

Lemma for_each_profile_album lanczos self self' img image_path ow oh is_h ps s :
  album_name self' = album_name self ->
  for_each_profile lanczos self' img image_path ow oh is_h ps s
  = for_each_profile lanczos self img image_path ow oh is_h ps s.
Proof.
  intros Hn. revert s. induction ps as [|p ps IH]; intros s; simpl; [done|].
  unfold bind, process_profile. rewrite Hn.
  match goal with |- match ?x with _ => _ end = _ => destruct x as [[[]|e] s1] end;
    [apply IH | reflexivity].
Qed.

Lemma for_each_profile_applicable lanczos self img image_path ow oh ps : forall s,
  for_each_profile lanczos self img image_path ow oh (img_height img <=? img_width img) ps s
  = for_each_profile lanczos self img image_path ow oh (img_height img <=? img_width img)
      (filter (fun p => applies_to img p = true) ps) s.
Proof.
  induction ps as [|p ps IH]; intros s; [done|].
  rewrite filter_cons.
  destruct (decide (applies_to img p = true)) as [Happ|Happ]; simpl.
  - unfold bind.
    destruct (process_profile _ _ _ _ _ _ _ _ s) as [[[]|e] s1]; [apply IH | reflexivity].
  - unfold applies_to in Happ. apply not_true_is_false, negb_false_iff in Happ.
    unfold bind, process_profile. rewrite Happ. simpl. apply IH.
Qed.

(** X16. Profiles whose orientation setting excludes the picture have no
    effect: the call behaves as if they were not in the list, and creates no
    directory for them. When no profile takes the picture the call decodes
    it, writes nothing and still returns [(True, None)]. A square picture
    counts as horizontal. *)
Theorem excluded_profiles_have_no_effect lanczos self image_path s img :
  files s !! image_path = Some img ->
  let taking := filter (fun p => applies_to img p = true) (profiles self) in
  _resize_image_sync lanczos self image_path s
  = _resize_image_sync lanczos (with_profiles self taking) image_path s
  /\ (taking = [] ->
      _resize_image_sync lanczos self image_path s
      = (Returned (true, None),
         {| dirs := dirs s; files := files s; work := work s ++ [Decode image_path] |}))
  /\ (forall p, img_width img = img_height img ->
        applies_to img p = include_horizontal p).
Proof.
  intros Himg taking.
  pose proof (resize_sync_cases lanczos self image_path s) as H1.
  pose proof (resize_sync_cases lanczos (with_profiles self taking) image_path s) as H2.
  rewrite Himg in H1, H2. simpl in H1, H2.
  rewrite for_each_profile_applicable in H1. fold taking in H1.
  rewrite (for_each_profile_album lanczos self (with_profiles self taking)) in H2
    by reflexivity.
  split; [by rewrite H1, H2|]. split.
  - intros Hnil. rewrite H1, Hnil. reflexivity.
  - intros p Heq. unfold applies_to, orientation_skipped. rewrite Heq, Z.leb_refl.
    simpl. by rewrite orb_false_r, negb_involutive.
Qed.

(** The horizontal-only profile and a 2000 by 4000 picture: the call
    succeeds, having decoded the picture and written nothing. *)
Lemma excluded_profiles_have_no_effect_witness :
  _resize_image_sync nearest_neighbour example_processor "downloads/Holiday/a.jpg"
    (downloaded (picture 2000 4000 white))
  = (Returned (true, None),
     {| dirs := dirs (downloaded (picture 2000 4000 white));
        files := files (downloaded (picture 2000 4000 white));
        work := [Decode "downloads/Holiday/a.jpg"] |}).
Proof.
  exact (proj1 (proj2 (excluded_profiles_have_no_effect nearest_neighbour example_processor
                         "downloads/Holiday/a.jpg" (downloaded (picture 2000 4000 white))
                         (picture 2000 4000 white) eq_refl))
           eq_refl).
Defined.

Lemma for_each_profile_app lanczos self img image_path ow oh is_h ps1 ps2 : forall s,
  for_each_profile lanczos self img image_path ow oh is_h (ps1 ++ ps2) s
  = match for_each_profile lanczos self img image_path ow oh is_h ps1 s with
    | (Returned _, s1) => for_each_profile lanczos self img image_path ow oh is_h ps2 s1
    | (Raised e, s1) => (Raised e, s1)
    end.
Proof.
  induction ps1 as [|p ps1 IH]; intros s; simpl; [done|].
  unfold bind.
  destruct (process_profile _ _ _ _ _ _ _ _ s) as [[[]|e] s1]; [apply IH | reflexivity].
Qed.

Lemma letterbox_size_zero_height ow oh tw :
  exists e, letterbox_size ow oh tw 0 = Raised e.
Proof.
  unfold letterbox_size, int_truediv.
  destruct (oh =? 0); simpl; eauto.
Qed.

(** X17. A profile of target height 0 that takes the picture makes the call
    return [(False, message)], the division by zero having been caught. The
    files on disk are then those a run with only the profiles before it
    leaves: their outputs are written, and no profile after the failing one
    is processed. *)
Theorem zero_height_profile_stops_the_run lanczos self image_path s img before p after :
  files s !! image_path = Some img ->
  profiles self = before ++ p :: after ->
  applies_to img p = true ->
  target_height p = 0 ->
  let out := _resize_image_sync lanczos self image_path s in
  (exists msg, fst out = Returned (false, Some msg))
  /\ files (snd out)
     = files (snd (_resize_image_sync lanczos (with_profiles self before) image_path s)).
Proof.
  intros Himg Hps Happ Hzero out. subst out.
  pose proof (resize_sync_cases lanczos self image_path s) as H1.
  pose proof (resize_sync_cases lanczos (with_profiles self before) image_path s) as H2.
  rewrite Himg in H1, H2. simpl in H1, H2.
  rewrite (for_each_profile_album lanczos self (with_profiles self before)) in H2
    by reflexivity.
  rewrite H1, H2, Hps, for_each_profile_app. simpl.
  destruct (for_each_profile _ _ _ _ _ _ _ before _) as [[[]|e] s1]; simpl.
  - unfold bind.
    pose proof (process_profile_cases lanczos self img image_path (img_width img)
                  (img_height img) (img_height img <=? img_width img) p s1) as Hc.
    simpl in Hc. unfold applies_to in Happ.
    apply negb_true_iff in Happ. rewrite Happ in Hc.
    assert (exists e, letterbox lanczos img (img_width img) (img_height img) p = Raised e)
      as [e He].
    { unfold letterbox. rewrite Hzero.
      destruct (letterbox_size_zero_height (img_width img) (img_height img)
                  (target_width p)) as [e ->]. eauto. }
    rewrite He in Hc. destruct Hc as (_ & Hr & Hf).
    destruct (process_profile _ _ _ _ _ _ _ _ s1) as [r s2]. simpl in *. subst r.
    split; [eauto | exact Hf].
  - split; [eauto | reflexivity].
Qed.

(** Three profiles, the second of height 0: the first one's output is
    written, the third one's is not, and the call reports a failure. *)
Lemma zero_height_profile_stops_the_run_witness :
  let flat := {| profile_name := "flat"; target_width := 800; target_height := 0;
                 include_horizontal := true; include_vertical := true |} in
  let wide := {| profile_name := "wide"; target_width := 800; target_height := 400;
                 include_horizontal := true; include_vertical := true |} in
  let self := {| album_name := "Holiday"; profiles := [square_profile; flat; wide] |} in
  let out := _resize_image_sync nearest_neighbour self "downloads/Holiday/a.jpg"
               (downloaded (picture 4000 2000 white)) in
  (exists msg, fst out = Returned (false, Some msg))
  /\ is_Some (files (snd out) !! "resized/Holiday_sq/a.jpg"%string)
  /\ files (snd out) !! "resized/Holiday_wide/a.jpg"%string = None.
Proof.
  intros flat wide self out.
  destruct (zero_height_profile_stops_the_run nearest_neighbour self
              "downloads/Holiday/a.jpg" (downloaded (picture 4000 2000 white))
              (picture 4000 2000 white) [square_profile] flat [wide]
              eq_refl eq_refl eq_refl eq_refl) as [Hmsg Hfiles].
  split; [exact Hmsg|]. fold out in Hfiles. rewrite Hfiles.
  split; [vm_compute; eexists; reflexivity | vm_compute; reflexivity].
Defined.

(** A second pass over the profiles, on a file system that holds what the
    first pass left, changes no file and no directory and ends as the
    first did. *)
Lemma for_each_profile_settled lanczos self img image_path ow oh is_h ps : forall s s2,
  files (snd (for_each_profile lanczos self img image_path ow oh is_h ps s)) ⊆ files s2 ->
  dirs (snd (for_each_profile lanczos self img image_path ow oh is_h ps s)) ⊆ dirs s2 ->
  files (snd (for_each_profile lanczos self img image_path ow oh is_h ps s2)) = files s2
  /\ dirs (snd (for_each_profile lanczos self img image_path ow oh is_h ps s2)) = dirs s2
  /\ fst (for_each_profile lanczos self img image_path ow oh is_h ps s2)
     = fst (for_each_profile lanczos self img image_path ow oh is_h ps s).
Proof.
  induction ps as [|p ps IH]; intros s s2; simpl; [done|].
  unfold bind.
  pose proof (process_profile_cases lanczos self img image_path ow oh is_h p s) as C1.
  pose proof (process_profile_cases lanczos self img image_path ow oh is_h p s2) as C2.
  simpl in C1, C2.
  destruct (orientation_skipped is_h p).
  { rewrite C1, C2. apply IH. }
  destruct C1 as [D1 C1], C2 as [D2 C2].
  destruct (process_profile _ _ _ _ _ _ _ _ s) as [r1 s1].
  destruct (process_profile _ _ _ _ _ _ _ _ s2) as [r2 s2'].
  simpl in *.
  destruct (letterbox lanczos img ow oh p) as [canvas|e].
  - destruct C1 as [-> F1], C2 as [-> F2].
    intros Hf Hd.
    destruct (for_each_profile_grows lanczos self img image_path ow oh is_h ps s1)
      as [Gf Gd]. simpl in Gf, Gd.
    assert (files s1 ⊆ files s2) as Hf1 by (etrans; eauto).
    assert (dirs s1 ⊆ dirs s2) as Hd1 by (etrans; eauto).
    assert (dirs s2' = dirs s2) as Hd2.
    { rewrite D2. apply leibniz_equiv. apply subseteq_union_1.
      apply singleton_subseteq_l. apply Hd1. rewrite D1.
      apply elem_of_union_l, elem_of_singleton. reflexivity. }
    assert (files s2' = files s2) as Hf2.
    { rewrite F2.
      assert (bool_decide (is_Some (files s2 !! output_path_of self p image_path))
              || bool_decide (output_path_of self p image_path
                                ∈ ({[ output_dir_of self p ]} ∪ dirs s2 : gset string))
              = true) as ->; [|done].
      apply orb_true_iff.
      destruct (bool_decide (is_Some (files s !! output_path_of self p image_path)))
        eqn:E1; simpl in F1.
      - left. apply bool_decide_eq_true. apply bool_decide_eq_true in E1 as [x Hx].
        exists x. eapply lookup_weaken; [|exact Hf1]. by rewrite F1.
      - destruct (bool_decide (output_path_of self p image_path
                                 ∈ ({[ output_dir_of self p ]} ∪ dirs s : gset string)))
          eqn:E2.
        + right. apply bool_decide_eq_true. apply bool_decide_eq_true in E2.
          apply elem_of_union_r. apply Hd1. by rewrite D1.
        + left. apply bool_decide_eq_true. eexists.
          eapply lookup_weaken; [|exact Hf1]. rewrite F1. apply lookup_insert_eq. }
    destruct (IH s1 s2') as (I1 & I2 & I3).
    + by rewrite Hf2.
    + by rewrite Hd2.
    + rewrite I1, I2, I3. done.
  - destruct C1 as [-> F1], C2 as [-> F2]. simpl.
    intros Hf Hd. split; [exact F2|]. split; [|reflexivity].
    rewrite D2. apply leibniz_equiv. apply subseteq_union_1.
    apply singleton_subseteq_l. apply Hd. rewrite D1.
    apply elem_of_union_l, elem_of_singleton. reflexivity.
Qed.

(** X15. Running the same resize again changes nothing on disk: the files and
    the directories after the second run are those after the first, and the
    second run returns what the first returned. *)
Theorem rerun_changes_no_file lanczos self image_path s :
  let first := _resize_image_sync lanczos self image_path s in
  let second := _resize_image_sync lanczos self image_path (snd first) in
  files (snd second) = files (snd first)
  /\ dirs (snd second) = dirs (snd first)
  /\ fst second = fst first.
Proof.
  simpl.
  pose proof (resize_sync_cases lanczos self image_path s) as H1.
  destruct (files s !! image_path) as [img|] eqn:Himg.
  - simpl in H1. rewrite H1. simpl.
    set (s0 := {| dirs := dirs s; files := files s;
                  work := work s ++ [Decode image_path] |}) in *.
    set (loop := for_each_profile lanczos self img image_path (img_width img)
                   (img_height img) (img_height img <=? img_width img)
                   (profiles self)) in *.
    destruct (for_each_profile_grows lanczos self img image_path (img_width img)
                (img_height img) (img_height img <=? img_width img) (profiles self) s0)
      as [Gf Gd]. fold loop in Gf, Gd. simpl in Gf, Gd.
    pose proof (resize_sync_cases lanczos self image_path (snd (loop s0))) as H2.
    assert (files (snd (loop s0)) !! image_path = Some img) as Himg2
      by (eapply lookup_weaken; eauto).
    rewrite Himg2 in H2. simpl in H2. rewrite H2. simpl. fold loop.
    destruct (for_each_profile_settled lanczos self img image_path (img_width img)
                (img_height img) (img_height img <=? img_width img) (profiles self) s0
                {| dirs := dirs (snd (loop s0)); files := files (snd (loop s0));
                   work := work (snd (loop s0)) ++ [Decode image_path] |})
      as (I1 & I2 & I3); [done | done |].
    fold loop in I1, I2, I3. simpl in I1, I2, I3.
    rewrite I1, I2, I3. done.
  - destruct H1 as [msg H1]. rewrite H1. simpl. rewrite H1. done.
Qed.

Lemma string_app_assoc (a b c : string) : ((a ++ b) ++ c = a ++ (b ++ c))%string.
Proof.
  induction a as [|x a IH]; [done|].
  change (String x ((a ++ b) ++ c) = String x (a ++ (b ++ c)))%string.
  by rewrite IH.
Qed.

Lemma has_slash_app a b : has_slash (a ++ b)%string = has_slash a || has_slash b.
Proof. induction a as [|c a IH]; simpl; [done|]. by rewrite IH, orb_assoc. Qed.

Lemma basename_from_no_slash p : forall acc,
  has_slash acc = false -> has_slash (basename_from acc p) = false.
Proof.
  induction p as [|c p IH]; intros acc Hacc; simpl; [done|].
  destruct (Ascii.eqb c "/") eqn:Hc; [by apply IH|].
  apply IH. rewrite has_slash_app, Hacc. simpl. by rewrite Hc.
Qed.

Lemma no_slash_not_absolute s : has_slash s = false -> is_absolute s = false.
Proof.
  destruct s as [|c s]; simpl; [done|].
  destruct (Ascii.eqb_spec c "/") as [->|Hne]; [discriminate|].
  intros _. destruct c as [[] [] [] [] [] [] [] []]; try reflexivity. by destruct Hne.
Qed.

Lemma path_join_relative a b :
  is_absolute b = false ->
  path_join a b = (if String.eqb a "" || ends_with_slash a then a ++ b
                   else a ++ "/" ++ b)%string.
Proof.
  unfold path_join, is_absolute. intros Hb.
  destruct b as [|c b]; [done|].
  destruct c as [[] [] [] [] [] [] [] []]; try reflexivity. discriminate.
Qed.

Lemma path_join_absolute a b : is_absolute b = true -> path_join a b = b.
Proof.
  unfold path_join, is_absolute.
  destruct b as [|c b]; [discriminate|].
  destruct c as [[] [] [] [] [] [] [] []]; try discriminate. reflexivity.
Qed.

Lemma is_absolute_app a b :
  is_absolute (a ++ b)%string = if String.eqb a "" then is_absolute b else is_absolute a.
Proof. destruct a as [|c a]; reflexivity. Qed.

Lemma prefix_app a b : String.prefix a (a ++ b)%string = true.
Proof.
  induction a as [|c a IH]; simpl; [by destruct b|].
  destruct (ascii_dec c c); [exact IH | done].
Qed.

Lemma ends_with_slash_app a b :
  b <> ""%string -> ends_with_slash (a ++ b)%string = ends_with_slash b.
Proof.
  intros Hb. induction a as [|c a IH]; simpl; [done|].
  destruct (a ++ b)%string eqn:E; [|exact IH].
  destruct a; simpl in E; [by subst | discriminate].
Qed.

(** X18. Where the outputs go. The file name is the last component of the
    source path and contains no slash. If the album name does not begin with
    a slash, the output directory is [resized/<album>_<profile>] and the
    output path begins with [resized/]; it is
    [resized/<album>_<profile>/<file>] when the profile name does not end
    with a slash. If the album name begins with a slash, [os.path.join] drops
    [resized]: the directory is [<album>_<profile>] itself, an absolute path
    that does not lie under [resized]. *)
Theorem output_path_shape self p image_path :
  let named := (album_name self ++ "_" ++ profile_name p)%string in
  has_slash (basename image_path) = false
  /\ (is_absolute (album_name self) = false ->
      output_dir_of self p = ("resized/" ++ named)%string
      /\ String.prefix "resized/" (output_path_of self p image_path) = true
      /\ (ends_with_slash (profile_name p) = false ->
          output_path_of self p image_path
          = ("resized/" ++ named ++ "/" ++ basename image_path)%string))
  /\ (is_absolute (album_name self) = true ->
      output_dir_of self p = named
      /\ is_absolute (output_path_of self p image_path) = true
      /\ String.prefix "resized" (output_path_of self p image_path) = false).
Proof.
  intros named.
  assert (has_slash (basename image_path) = false) as Hbase
    by (by apply basename_from_no_slash).
  pose proof (no_slash_not_absolute _ Hbase) as Hrel.
  split; [exact Hbase|].
  unfold output_path_of, output_dir_of. fold named.
  assert (is_absolute named = is_absolute (album_name self)) as Hnamed.
  { unfold named. rewrite is_absolute_app.
    destruct (String.eqb_spec (album_name self) "") as [->|]; reflexivity. }
  split.
  - intros Halb. rewrite <- Hnamed in Halb.
    assert (path_join "resized" named = ("resized/" ++ named)%string) as ->.
    { rewrite path_join_relative by exact Halb. reflexivity. }
    split; [reflexivity|].
    rewrite (path_join_relative _ _ Hrel).
    split.
    + destruct (_ || _); rewrite string_app_assoc; apply prefix_app.
    + intros Hp.
      assert (ends_with_slash ("resized/" ++ named) = false) as Hend.
      { unfold named.
        rewrite <- (string_app_assoc "resized/" (album_name self)).
        rewrite ends_with_slash_app by (by destruct (profile_name p)).
        destruct (profile_name p) as [|c r]; [reflexivity | exact Hp]. }
      rewrite Hend. rewrite string_app_assoc. reflexivity.
  - intros Halb. rewrite <- Hnamed in Halb.
    rewrite (path_join_absolute "resized" named Halb).
    split; [reflexivity|].
    rewrite (path_join_relative _ _ Hrel).
    destruct named as [|c r]; [discriminate|].
    unfold is_absolute in Halb.
    destruct c as [[] [] [] [] [] [] [] []]; try discriminate.
    destruct (_ || _); split; reflexivity.
Qed.

(** The example of the specification, and an album whose name begins with a
    slash. *)
Lemma output_path_shape_witness :
  output_path_of example_processor square_profile "downloads/Holiday/a.jpg"
    = "resized/Holiday_sq/a.jpg"%string
  /\ output_dir_of {| album_name := "/srv/www"; profiles := [square_profile] |}
       square_profile
     = "/srv/www_sq"%string.
Proof.
  split.
  - exact (proj2 (proj2 (proj1 (proj2 (output_path_shape example_processor square_profile
                                         "downloads/Holiday/a.jpg")) eq_refl))
             eq_refl).
  - exact (proj1 (proj2 (proj2 (output_path_shape
                                  {| album_name := "/srv/www";
                                     profiles := [square_profile] |}
                                  square_profile "downloads/Holiday/a.jpg")) eq_refl)).
Defined.

(* --------------------------------------------------------------------- *)
(** ** The aspect ratio of the scaled picture *)

Module AspectFacts.

Import PyFloat.
Local Open Scope Q_scope.

(** The wide case: the float height is the exact proportional height up
    to three roundings. *)
Lemma wide_case_close TW TH q E t a n y x :
  0 < q -> 0 < TW -> 0 < TH -> TH <= 2147483648 ->
  E * q == TW ->
  q * (1 - unit_roundoff) <= a -> a <= q * (1 + unit_roundoff) ->
  TW * (1 - unit_roundoff) <= t * TH ->
  t < a ->
  TW * (1 - unit_roundoff) <= n -> n <= TW * (1 + unit_roundoff) ->
  y * a == n ->
  y * (1 - unit_roundoff) <= x -> x <= y * (1 + unit_roundoff) ->
  E - (1 # 1048576) <= x /\ x <= E + (1 # 1048576).
Proof.
  unfold unit_roundoff.
  intros Hq HTW HTH Hbig HE Halo Hahi Ht Hta Hnlo Hnhi Hy Hxlo Hxhi.
  set (u := 1 # 9007199254740992) in *.
  assert (0 < 1 - u) as Hu1 by (unfold u; lra).
  assert (0 < 1 + u) as Hu2 by (unfold u; lra).
  assert (0 < a) as Ha0.
  { assert (0 < q * (1 - u)) by (apply Qmult_lt_0_compat; lra). unfold u in *; lra. }
  assert (0 < E) as HE0.
  { apply Qnot_le_lt. intros Hle.
    assert (E * q <= 0 * q) by (apply Qmult_le_compat_r; lra). lra. }
  assert (0 < y) as Hy0.
  { apply Qnot_le_lt. intros Hle.
    assert (y * a <= 0 * a) by (apply Qmult_le_compat_r; lra).
    assert (0 < TW * (1 - u)) by (apply Qmult_lt_0_compat; lra). unfold u in *; lra. }
  (* E (1 - u) <= (1 + u) TH *)
  assert (E * (1 - u) <= (1 + u) * TH) as HEb.
  { apply (Qmult_le_l _ _ q Hq).
    assert (t * TH <= a * TH) by (apply Qmult_le_compat_r; lra).
    assert (a * TH <= q * (1 + u) * TH) by (apply Qmult_le_compat_r; lra).
    unfold u in *; lra. }
  (* y (1 - u) <= E (1 + u) *)
  assert (y * (1 - u) <= E * (1 + u)) as Hy1.
  { apply (Qmult_le_l _ _ q Hq).
    assert (y * (q * (1 - u)) <= y * a) by (apply Qmult_le_l; lra).
    unfold u in *; lra. }
  (* E (1 - u) <= y (1 + u) *)
  assert (E * (1 - u) <= y * (1 + u)) as Hy2.
  { apply (Qmult_le_l _ _ q Hq).
    assert (y * a <= y * (q * (1 + u))) by (apply Qmult_le_l; lra).
    unfold u in *; lra. }
  unfold u in *. split; lra.
Qed.

(** The tall case. *)
Lemma tall_case_close TW TH q E t a n x :
  0 < q -> 0 < TW -> TW <= 2147483648 -> 0 < TH ->
  E == TH * q ->
  q * (1 - unit_roundoff) <= a -> a <= q * (1 + unit_roundoff) ->
  t * TH <= TW * (1 + unit_roundoff) ->
  a <= t ->
  TH * (1 - unit_roundoff) <= n -> n <= TH * (1 + unit_roundoff) ->
  n * a * (1 - unit_roundoff) <= x -> x <= n * a * (1 + unit_roundoff) ->
  E - (1 # 1048576) <= x /\ x <= E + (1 # 1048576).
Proof.
  unfold unit_roundoff.
  intros Hq HTW Hbig HTH HE Halo Hahi Ht Hat Hnlo Hnhi Hxlo Hxhi.
  set (u := 1 # 9007199254740992) in *.
  assert (0 < 1 - u) as Hu1 by (unfold u; lra).
  assert (0 < 1 + u) as Hu2 by (unfold u; lra).
  assert (0 < a) as Ha0.
  { assert (0 < q * (1 - u)) by (apply Qmult_lt_0_compat; lra). unfold u in *; lra. }
  assert (0 < n) as Hn0.
  { assert (0 < TH * (1 - u)) by (apply Qmult_lt_0_compat; lra). unfold u in *; lra. }
  assert (E * (1 - u) <= TW * (1 + u)) as HEb.
  { assert (a * TH <= t * TH) by (apply Qmult_le_compat_r; lra).
    assert (q * (1 - u) * TH <= a * TH) by (apply Qmult_le_compat_r; lra).
    unfold u in *; lra. }
  assert (n * a <= E * ((1 + u) * (1 + u))) as Hhi.
  { assert (n * a <= TH * (1 + u) * a) by (apply Qmult_le_compat_r; lra).
    assert (0 < TH * (1 + u)) by (apply Qmult_lt_0_compat; lra).
    assert (TH * (1 + u) * a <= TH * (1 + u) * (q * (1 + u))) by (apply Qmult_le_l; lra).
    unfold u in *; lra. }
  assert (E * ((1 - u) * (1 - u)) <= n * a) as Hlo.
  { assert (TH * (1 - u) * a <= n * a) by (apply Qmult_le_compat_r; lra).
    assert (0 < TH * (1 - u)) by (apply Qmult_lt_0_compat; lra).
    assert (TH * (1 - u) * (q * (1 - u)) <= TH * (1 - u) * a) by (apply Qmult_le_l; lra).
    unfold u in *; lra. }
  unfold u in *. split; lra.
Qed.

End AspectFacts.

Lemma int_of_float_floor x :
  (0 <= x)%Q -> (inject_Z (int_of_float x) <= x /\ x < inject_Z (int_of_float x) + 1)%Q.
Proof.
  intros H0. unfold int_of_float.
  apply Qle_bool_iff in H0. rewrite H0.
  pose proof (Qfloor_le x) as Hlo. pose proof (Qlt_floor x) as Hhi.
  rewrite inject_Z_plus in Hhi. change (inject_Z 1) with 1%Q in Hhi. split; lra.
Qed.

(** X19. The aspect ratio is kept to within a pixel. For sides between 1 and
    2^31, either the scaled width is the target width and the scaled height
    lies in the interval (tw*h/w - 1 - 2^-20, tw*h/w + 2^-20], or the scaled
    height is the target height and the scaled width lies in
    (th*w/h - 1 - 2^-20, th*w/h + 2^-20]: the exact proportional size,
    truncated, up to the rounding of the three float operations. *)
Theorem letterbox_size_keeps_the_aspect w h tw th new_width new_height :
  0 < w < 2 ^ 31 -> 0 < h < 2 ^ 31 -> 0 < tw < 2 ^ 31 -> 0 < th < 2 ^ 31 ->
  letterbox_size w h tw th = Returned (new_width, new_height) ->
  (new_width = tw
   /\ (inject_Z tw * inject_Z h / inject_Z w - 1 - (1 # 1048576) < inject_Z new_height)%Q
   /\ (inject_Z new_height <= inject_Z tw * inject_Z h / inject_Z w + (1 # 1048576))%Q)
  \/ (new_height = th
      /\ (inject_Z th * inject_Z w / inject_Z h - 1 - (1 # 1048576) < inject_Z new_width)%Q
      /\ (inject_Z new_width <= inject_Z th * inject_Z w / inject_Z h + (1 # 1048576))%Q).
Proof.
  intros Hw Hh Htw Hth.
  unfold letterbox_size, int_truediv.
  destruct (Z.eqb_spec h 0) as [|_]; [lia|].
  destruct (Z.eqb_spec th 0) as [|_]; [lia|].
  set (a := rnd53 (inject_Z w / inject_Z h)).
  set (t := rnd53 (inject_Z tw / inject_Z th)).
  pose proof (FloatFacts.inject_Z_pos w (proj1 Hw)) as HW.
  pose proof (FloatFacts.inject_Z_pos h (proj1 Hh)) as HH.
  pose proof (FloatFacts.inject_Z_pos tw (proj1 Htw)) as HTW.
  pose proof (FloatFacts.inject_Z_pos th (proj1 Hth)) as HTH.
  assert (inject_Z tw <= 2147483648)%Q as HTWb
    by (change 2147483648%Q with (inject_Z (2 ^ 31)); rewrite <- Zle_Qle; lia).
  assert (inject_Z th <= 2147483648)%Q as HTHb
    by (change 2147483648%Q with (inject_Z (2 ^ 31)); rewrite <- Zle_Qle; lia).
  assert (0 < inject_Z w / inject_Z h)%Q as Hq1 by (apply Qlt_shift_div_l; lra).
  assert (0 < inject_Z tw / inject_Z th)%Q as Hq2 by (apply Qlt_shift_div_l; lra).
  pose proof (FloatFacts.rnd53_pos _ Hq1) as Ha0. fold a in Ha0.
  destruct (FloatFacts.rnd53_error _ Hq1) as [Halo Hahi]. fold a in Halo, Hahi.
  destruct (FloatFacts.rnd53_error _ Hq2) as [Htlo Hthi]. fold t in Htlo, Hthi.
  assert (inject_Z tw / inject_Z th * inject_Z th == inject_Z tw)%Q as Hr
    by (field; lra).
  assert (inject_Z tw * (1 - unit_roundoff) <= t * inject_Z th)%Q as Htlo'.
  { apply (Qmult_le_compat_r _ _ (inject_Z th)) in Htlo; [|lra].
    unfold unit_roundoff in *. lra. }
  assert (t * inject_Z th <= inject_Z tw * (1 + unit_roundoff))%Q as Hthi'.
  { apply (Qmult_le_compat_r _ _ (inject_Z th)) in Hthi; [|lra].
    unfold unit_roundoff in *. lra. }
  unfold gt. destruct (Qle_bool a t) eqn:Hcmp; simpl.
  - (* fit to the target height *)
    apply Qle_bool_iff in Hcmp.
    intros [= <- <-]. right. split; [reflexivity|].
    destruct (FloatFacts.rnd53_error (inject_Z th) HTH) as [Hnlo Hnhi].
    fold (of_int th) in Hnlo, Hnhi.
    pose proof (FloatFacts.rnd53_pos _ HTH) as Hn0. fold (of_int th) in Hn0.
    unfold int_mul_float.
    assert (0 < of_int th * a)%Q as Hz by (apply Qmult_lt_0_compat; lra).
    destruct (FloatFacts.rnd53_error _ Hz) as [Hxlo Hxhi].
    pose proof (FloatFacts.rnd53_pos _ Hz) as Hx0.
    destruct (AspectFacts.tall_case_close (inject_Z tw) (inject_Z th)
                (inject_Z w / inject_Z h) (inject_Z th * inject_Z w / inject_Z h)
                t a (of_int th) (rnd53 (of_int th * a)))
      as [Hlo Hhi]; try assumption.
    { field. lra. }
    destruct (int_of_float_floor (rnd53 (of_int th * a))) as [Hf1 Hf2]; [lra|].
    split; lra.
  - (* fit to the target width *)
    assert (t < a)%Q as Hta.
    { apply Qnot_le_lt. intros Hle. apply Qle_bool_iff in Hle. congruence. }
    unfold int_div_float.
    destruct (Qeq_bool a 0) eqn:Hz0.
    { apply Qeq_bool_iff in Hz0. lra. }
    intros [= <- <-]. left. split; [reflexivity|].
    destruct (FloatFacts.rnd53_error (inject_Z tw) HTW) as [Hnlo Hnhi].
    fold (of_int tw) in Hnlo, Hnhi.
    pose proof (FloatFacts.rnd53_pos _ HTW) as Hn0. fold (of_int tw) in Hn0.
    assert (0 < of_int tw / a)%Q as Hy by (apply Qlt_shift_div_l; lra).
    destruct (FloatFacts.rnd53_error _ Hy) as [Hxlo Hxhi].
    pose proof (FloatFacts.rnd53_pos _ Hy) as Hx0.
    destruct (AspectFacts.wide_case_close (inject_Z tw) (inject_Z th)
                (inject_Z w / inject_Z h) (inject_Z tw * inject_Z h / inject_Z w)
                t a (of_int tw) (of_int tw / a)%Q (rnd53 (of_int tw / a)))
      as [Hlo Hhi]; try assumption.
    { field. lra. }
    { field. lra. }
    destruct (int_of_float_floor (rnd53 (of_int tw / a))) as [Hf1 Hf2]; [lra|].
    split; lra.
Qed.

(** A 3 by 2 picture in a 4 by 100 box: height 2, where 4 * 2 / 3 is 2.67. *)
Lemma letterbox_size_keeps_the_aspect_witness :
  letterbox_size 3 2 4 100 = Returned (4, 2)
  /\ ((4 = 4
       /\ (inject_Z 4 * inject_Z 2 / inject_Z 3 - 1 - (1 # 1048576) < inject_Z 2)%Q
       /\ (inject_Z 2 <= inject_Z 4 * inject_Z 2 / inject_Z 3 + (1 # 1048576))%Q)
      \/ (2 = 100
          /\ (inject_Z 100 * inject_Z 3 / inject_Z 2 - 1 - (1 # 1048576) < inject_Z 4)%Q
          /\ (inject_Z 4 <= inject_Z 100 * inject_Z 3 / inject_Z 2 + (1 # 1048576))%Q)).
Proof.
  split; [vm_compute; reflexivity|].
  apply (letterbox_size_keeps_the_aspect 3 2 4 100 4 2); try lia.
  vm_compute; reflexivity.
Defined.

(* --------------------------------------------------------------------- *)
(** ** Users, resize profiles and listings *)

Import sorting.
Import Catalog.
Local Open Scope Z_scope.

(** A read of the file uses its entry of the schedule; it raises when the
    store refuses it and yields the value otherwise. *)
Lemma app_query_outcome {A} (q : db -> catalog -> A) s :
  app_query q s
  = (unless_refused (app_world s) (q (w_db (app_world s)) (app_catalog s)),
     with_faults (tail (w_faults (app_world s))) s).
Proof.
  unfold app_query, unless_refused, with_faults.
  destruct (w_faults (app_world s)) as [|[msg|] fs]; reflexivity.
Qed.

Lemma bind_unless_refused {S A B} (w : world) (a : A) (f : A -> B) (s' : S) :
  (let (r, s1) := (unless_refused w a, s') in
   match r with
   | Returned x => ret (f x) s1
   | Raised e => (Raised e, s1)
   end) = (unless_refused w (f a), s').
Proof. unfold unless_refused, ret. destruct (w_faults w) as [|[msg|] fs]; reflexivity. Qed.

(** ** Users *)

Lemma existsb_username username (l : list user) :
  existsb (fun u => String.eqb (u_username u) username) l = true
  <-> exists u, u ∈ l /\ u_username u = username.
Proof.
  rewrite existsb_exists. split.
  - intros (u & Hin & Hu). apply String.eqb_eq in Hu.
    exists u. split; [by apply list_elem_of_In | done].
  - intros (u & Hin & Hu). exists u. split; [by apply list_elem_of_In|].
    by apply String.eqb_eq.
Qed.

Lemma find_user_some (sha256 : string -> string) username password (l : list user) :
  is_Some (List.find (fun u => String.eqb (u_username u) username
                               && String.eqb (u_password_hash u) (sha256 password)) l)
  <-> exists u, u ∈ l /\ u_username u = username /\ u_password_hash u = sha256 password.
Proof.
  split.
  - intros [u Hu]. apply find_some in Hu as [Hin Hu].
    apply andb_true_iff in Hu as [H1 H2].
    apply String.eqb_eq in H1, H2. exists u. split; [by apply list_elem_of_In | done].
  - intros (u & Hin & H1 & H2).
    destruct (List.find _ l) as [u'|] eqn:E; [eauto|].
    apply list_elem_of_In in Hin.
    eapply find_none in E; [|exact Hin]. simpl in E.
    rewrite H1, H2, !String.eqb_refl in E. discriminate.
Qed.

(** X20. [create_user]. When the store refuses the unit of work the call
    raises [OperationalError] (only [IntegrityError] is handled) and changes
    nothing. Otherwise, if the user name is taken it returns [False] and
    changes nothing; if not it returns [True], having appended the user with
    the digest of the password, after which [verify_user] accepts the pair
    and [user_exists] is [True], each unless the store refuses that read,
    which then raises [OperationalError]. This holds for any digest
    function. *)
Theorem create_user_then_verify (sha256 : string -> string) username password s :
  let out := create_user sha256 username password s in
  match w_faults (app_world s) with
  | Some msg :: _ =>
      fst out = Raised (OperationalError msg) /\ app_catalog (snd out) = app_catalog s
  | _ =>
      ((exists u, u ∈ users (app_catalog s) /\ u_username u = username)
       /\ fst out = Returned false
       /\ app_catalog (snd out) = app_catalog s)
      \/ ((forall u, u ∈ users (app_catalog s) -> u_username u <> username)
          /\ fst out = Returned true
          /\ users (app_catalog (snd out)) =
               users (app_catalog s) ++
               [ {| u_id := Z.of_N (users_seq (app_catalog s) + 1);
                    u_username := username; u_password_hash := sha256 password;
                    u_created_at := w_now (app_world s) |} ]
          /\ fst (verify_user sha256 username password (snd out))
             = unless_refused (app_world (snd out)) true
          /\ fst (user_exists (snd out)) = unless_refused (app_world (snd out)) true)
  end.
Proof.
  simpl.
  unfold verify_user, user_exists, bind. rewrite !app_query_outcome.
  rewrite !bind_unless_refused. simpl.
  unfold create_user, try_except, bind, cat_transaction, insert_user, ret.
  destruct (w_faults (app_world s)) as [|[msg|] fs] eqn:Hf; simpl; [|done|].
  all: destruct (existsb _ (users (app_catalog s))) eqn:Hex; simpl.
  all: try (left; split; [by apply existsb_username | done]).
  all: right; split;
    [ intros u Hin Hu;
      assert (existsb (fun u => String.eqb (u_username u) username)
                (users (app_catalog s)) = true) as Ht
        by (apply existsb_username; eauto);
      congruence |].
  all: split; [reflexivity|]; split; [reflexivity|]; split.
  all: unfold select_user_id; f_equal; cbn [users].
  all: try (destruct (find_user_some sha256 username password
                        (users (app_catalog s) ++
                         [ {| u_id := Z.of_N (users_seq (app_catalog s) + 1);
                              u_username := username;
                              u_password_hash := sha256 password;
                              u_created_at := w_now (app_world s) |} ])) as [_ Hfind];
            destruct Hfind as [u' Hu'];
            [ eexists; split; [apply elem_of_app; right; apply list_elem_of_singleton;
                               reflexivity | done]
            | by rewrite Hu' ]).
  all: unfold len; apply Z.ltb_lt; rewrite length_app; simpl; lia.
Qed.

(** X21. [verify_user] only reads. When the store refuses the read it
    raises [OperationalError]; otherwise it returns [True] exactly when a
    user row has this name and the digest of this password, so it accepts
    the passwords of equal digest and no others. And [create_user] never
    touches an existing row (the users before are a prefix of the users
    after) and keeps the user names pairwise distinct. *)
Theorem verify_user_checks_the_digest (sha256 : string -> string) username password s :
  (exists ok,
     verify_user sha256 username password s
     = (unless_refused (app_world s) ok, with_faults (tail (w_faults (app_world s))) s)
     /\ (ok = true <->
         exists u, u ∈ users (app_catalog s) /\ u_username u = username
                   /\ u_password_hash u = sha256 password))
  /\ (forall username' password',
        let s' := snd (create_user sha256 username' password' s) in
        users (app_catalog s) `prefix_of` users (app_catalog s')
        /\ (NoDup (map u_username (users (app_catalog s))) ->
            NoDup (map u_username (users (app_catalog s'))))).
Proof.
  split.
  - unfold verify_user, bind. rewrite app_query_outcome, bind_unless_refused.
    unfold select_user_id.
    pose proof (find_user_some sha256 username password (users (app_catalog s))) as H.
    destruct (List.find _ _) as [u|] eqn:E; simpl; eexists; (split; [reflexivity|]).
    + split; [intros _; apply H; eauto | done].
    + split; [done|]. intros Hu. apply H in Hu as [? ?]. discriminate.
  - intros username' password'. simpl.
    unfold create_user, try_except, bind, cat_transaction, insert_user, ret.
    destruct (w_faults (app_world s)) as [|[msg|] fs]; simpl; [|done|].
    all: destruct (existsb _ (users (app_catalog s))) eqn:Hex; simpl; [done|].
    all: split; [by apply prefix_app_r|].
    all: intros Hnd; rewrite map_app; simpl; apply NoDup_app; split; [done|];
      split; [|apply NoDup_singleton].
    all: intros x Hx Hx'; apply list_elem_of_singleton in Hx'; subst x.
    all: apply list_elem_of_fmap in Hx as (u & Hu & Hin).
    all: assert (existsb (fun u => String.eqb (u_username u) username')
                   (users (app_catalog s)) = true) as Ht
           by (apply existsb_username; eauto); congruence.
Qed.

(** The first user of a fresh file. *)
Lemma verify_user_checks_the_digest_witness :
  NoDup (map u_username
           (users (app_catalog (snd (create_user toy_digest "ann" "secret" app0))))).
Proof.
  refine (proj2 (proj2 (verify_user_checks_the_digest toy_digest "ann" "secret" app0)
                   "ann"%string "secret"%string) _).
  constructor.
Defined.

(** ** Resize profiles *)

Lemma existsb_profile_name name (l : list resize_profile) :
  existsb (fun p => String.eqb (rp_name p) name) l = true
  <-> exists p, p ∈ l /\ rp_name p = name.
Proof.
  rewrite existsb_exists. split.
  - intros (u & Hin & Hu). apply String.eqb_eq in Hu.
    exists u. split; [by apply list_elem_of_In | done].
  - intros (u & Hin & Hu). exists u. split; [by apply list_elem_of_In|].
    by apply String.eqb_eq.
Qed.


Lemma delete_resize_profile_catalog profile_id s :
  refused (app_world s) = false ->
  app_catalog (snd (delete_resize_profile profile_id s))
  = with_resize_profiles
      (filter (fun p => rp_id p <> profile_id) (resize_profiles (app_catalog s)))
      (app_catalog s).
Proof.
  unfold delete_resize_profile, bind, cat_transaction, delete_resize_profiles, ret, refused.
  destruct (w_faults (app_world s)) as [|[msg|] fs]; try discriminate; reflexivity.
Qed.

Lemma add_resize_profile_returned name width height include_horizontal include_vertical
    s new_id :
  fst (add_resize_profile name width height include_horizontal include_vertical s)
    = Returned new_id ->
  new_id = Z.of_N (resize_profiles_seq (app_catalog s) + 1).
Proof.
  unfold add_resize_profile.
  destruct (in_int64 width && in_int64 height); [|discriminate].
  unfold cat_transaction, insert_resize_profile.
  destruct (w_faults (app_world s)) as [|[msg|] fs]; simpl; try discriminate;
    (destruct (existsb _ _); simpl; [discriminate|]); by intros [= <-].
Qed.

(** X24. Profile ids are not reused. On a well-formed table, after a
    committed [delete_resize_profile] no row has the deleted id, and the id a
    later [add_resize_profile] returns is none of the ids the table held
    before the deletion, the deleted one included. *)
Theorem deleted_profile_id_is_not_reused profile_id s :
  profiles_wf (app_catalog s) ->
  refused (app_world s) = false ->
  let s1 := snd (delete_resize_profile profile_id s) in
  (forall p, p ∈ resize_profiles (app_catalog s1) -> rp_id p <> profile_id)
  /\ forall name width height include_horizontal include_vertical new_id,
       fst (add_resize_profile name width height include_horizontal include_vertical s1)
         = Returned new_id ->
       new_id ∉ map rp_id (resize_profiles (app_catalog s)).
Proof.
  intros (Hids & Hnames & Hle) Hok s1. subst s1.
  pose proof (delete_resize_profile_catalog profile_id s Hok) as Hcat.
  split.
  - intros p Hp. rewrite Hcat in Hp. simpl in Hp.
    apply list_elem_of_filter in Hp as [Hp _]. exact Hp.
  - intros name width height ih iv new_id Hret.
    apply add_resize_profile_returned in Hret. rewrite Hcat in Hret. simpl in Hret.
    intros Hin. apply list_elem_of_fmap in Hin as (p & Hp & Hin).
    rewrite Forall_forall in Hle. apply Hle in Hin. lia.
Qed.

(** The only profile, of id 1, is deleted; the next profile gets the id 2. *)
Lemma deleted_profile_id_is_not_reused_witness :
  fst (add_resize_profile "hd" 1920 1080 true false
         (snd (delete_resize_profile 1 app_example))) = Returned 2
  /\ 2 ∉ map rp_id (resize_profiles (app_catalog app_example)).
Proof.
  split; [reflexivity|].
  refine (proj2 (deleted_profile_id_is_not_reused 1 app_example _ eq_refl)
            "hd"%string 1920 1080 true false 2 eq_refl).
  split; [|split].
  - apply NoDup_singleton.
  - apply NoDup_singleton.
  - constructor; [vm_compute; discriminate | constructor].
Defined.

Lemma existsb_other_name profile_id name (l : list resize_profile) :
  existsb (fun p => String.eqb (rp_name p) name && negb (rp_id p =? profile_id)) l = true
  <-> exists q, q ∈ l /\ rp_id q <> profile_id /\ rp_name q = name.
Proof.
  rewrite existsb_exists. split.
  - intros (q & Hin & Hq). apply andb_true_iff in Hq as [H1 H2].
    apply String.eqb_eq in H1. apply negb_true_iff, Z.eqb_neq in H2.
    exists q. split; [by apply list_elem_of_In | done].
  - intros (q & Hin & H1 & H2). exists q. split; [by apply list_elem_of_In|].
    apply andb_true_iff. split; [by apply String.eqb_eq|].
    by apply negb_true_iff, Z.eqb_neq.
Qed.

(** X23. [update_resize_profile], the store accepting the unit of work.
    When the id, the width or the height does not fit 64 bits the call
    raises [OverflowError] and the world is as before. Otherwise: for an id
    that has no row it returns [False] and changes nothing. For an id that
    has one, if another profile carries the new name it raises
    [IntegrityError] and changes nothing; otherwise it returns [True] and
    replaces name, size and orientation flags of that row, keeping its id,
    its [created_at], its position and every other row. Keeping the row's own
    name is no conflict. *)
Theorem update_resize_profile_spec profile_id name width height include_horizontal
    include_vertical s :
  refused (app_world s) = false ->
  let out := update_resize_profile profile_id name width height include_horizontal
               include_vertical s in
  let table := resize_profiles (app_catalog s) in
  if in_int64 width && in_int64 height && in_int64 profile_id
  then
    ((forall p, p ∈ table -> rp_id p <> profile_id)
     /\ fst out = Returned false
     /\ app_catalog (snd out) = app_catalog s)
    \/ ((exists p, p ∈ table /\ rp_id p = profile_id)
        /\ (exists q, q ∈ table /\ rp_id q <> profile_id /\ rp_name q = name)
        /\ fst out = Raised (IntegrityError "UNIQUE constraint failed: resize_profiles.name")
        /\ app_catalog (snd out) = app_catalog s)
    \/ ((exists p, p ∈ table /\ rp_id p = profile_id)
        /\ (forall q, q ∈ table -> rp_id q <> profile_id -> rp_name q <> name)
        /\ fst out = Returned true
        /\ app_catalog (snd out) =
             with_resize_profiles
               (map (fun p => if rp_id p =? profile_id
                              then updated_profile p name width height include_horizontal
                                     include_vertical
                              else p) table)
               (app_catalog s))
  else
    out = (Raised (OverflowError "Python int too large to convert to SQLite INTEGER"), s).
Proof.
  intros Hok out table. subst out table.
  unfold update_resize_profile.
  destruct (in_int64 width && in_int64 height && in_int64 profile_id); [|reflexivity].
  unfold bind, cat_transaction, update_resize_profiles, ret, refused in *.
  destruct (filter (fun p => rp_id p = profile_id) (resize_profiles (app_catalog s)))
    as [|p0 matched] eqn:Hm.
  - left. split.
    + intros p Hp Hid.
      by apply (filter_nil_not_elem_of (fun p => rp_id p = profile_id) _ p Hm Hid).
    + destruct (w_faults (app_world s)) as [|[msg|] fs]; try discriminate; done.
  - right.
    assert (exists p, p ∈ resize_profiles (app_catalog s) /\ rp_id p = profile_id) as Hex.
    { exists p0.
      assert (p0 ∈ filter (fun p => rp_id p = profile_id)
                     (resize_profiles (app_catalog s))) as Hin
        by (rewrite Hm; apply list_elem_of_here).
      apply list_elem_of_filter in Hin as [Hid Hin]. done. }
    destruct (existsb _ (resize_profiles (app_catalog s))) eqn:Hother.
    + left. split; [exact Hex|]. split; [by apply existsb_other_name|].
      destruct (w_faults (app_world s)) as [|[msg|] fs]; try discriminate; done.
    + right. split; [exact Hex|]. split.
      * intros q Hq Hid Hn.
        assert (existsb (fun p => String.eqb (rp_name p) name
                                  && negb (rp_id p =? profile_id))
                  (resize_profiles (app_catalog s)) = true) as Ht
          by (apply existsb_other_name; eauto).
        congruence.
      * destruct (w_faults (app_world s)) as [|[msg|] fs]; try discriminate; simpl;
          (split; [|reflexivity]); f_equal; apply Z.ltb_lt; unfold len; simpl; lia.
Qed.

(** Renaming the second profile to the name of the first is refused; and a
    width of 2^63 is not bound. *)
Lemma update_resize_profile_spec_witness :
  let s := snd (add_resize_profile "hd" 1920 1080 true false app_example) in
  (let out := update_resize_profile 2 "sq" 1920 1080 true false s in
   fst out = Raised (IntegrityError "UNIQUE constraint failed: resize_profiles.name")
   /\ app_catalog (snd out) = app_catalog s)
  /\ fst (update_resize_profile 2 "hd" (2 ^ 63) 1080 true false s)
     = Raised (OverflowError "Python int too large to convert to SQLite INTEGER").
Proof.
  intros s. split.
  - split; [reflexivity|].
    pose proof (update_resize_profile_spec 2 "sq" 1920 1080 true false s eq_refl) as H.
    change (in_int64 1920 && in_int64 1080 && in_int64 2) with true in H.
    cbv zeta iota in H.
    destruct H as [(_ & _ & H) | [(_ & _ & _ & H) | (_ & _ & H & _)]].
    + exact H.
    + exact H.
    + discriminate H.
  - reflexivity.
Defined.

Lemma updated_names_NoDup profile_id name width height ih iv (l : list resize_profile) :
  NoDup (map rp_id l) ->
  NoDup (map rp_name l) ->
  (forall q, q ∈ l -> rp_id q <> profile_id -> rp_name q <> name) ->
  NoDup (map rp_name
           (map (fun p => if rp_id p =? profile_id
                          then updated_profile p name width height ih iv else p) l)).
Proof.
  induction l as [|p l IH]; intros Hids Hnames Hother; simpl; [constructor|].
  apply NoDup_cons in Hids as [Hid Hids]. apply NoDup_cons in Hnames as [Hn Hnames].
  assert (forall q, q ∈ l -> rp_id q <> profile_id -> rp_name q <> name) as Hother'
    by (intros q Hq; apply Hother; by apply list_elem_of_further).
  apply NoDup_cons. split; [|by apply IH].
  intros Hin. apply list_elem_of_fmap in Hin as (q' & Hq' & Hin).
  apply list_elem_of_fmap in Hin as (q & -> & Hin).
  destruct (Z.eqb_spec (rp_id p) profile_id) as [Hp|Hp];
    destruct (Z.eqb_spec (rp_id q) profile_id) as [Hq|Hq]; simpl in Hq'.
  - apply Hid. apply list_elem_of_fmap. exists q. split; [congruence | done].
  - eapply Hother'; eauto.
  - eapply Hother; [apply list_elem_of_here | done | done].
  - apply Hn. apply list_elem_of_fmap. eauto.
Qed.

(** X25. The profile table stays well-formed: from a table whose ids and
    names are pairwise distinct and whose ids lie at or below the
    AUTOINCREMENT counter, [add_resize_profile], [update_resize_profile] and
    [delete_resize_profile] lead to such a table again, with any arguments
    and whatever the store does. *)
Theorem profile_table_stays_well_formed s :
  profiles_wf (app_catalog s) ->
  (forall name width height include_horizontal include_vertical,
     profiles_wf (app_catalog (snd (add_resize_profile name width height
                                      include_horizontal include_vertical s))))
  /\ (forall profile_id name width height include_horizontal include_vertical,
        profiles_wf (app_catalog (snd (update_resize_profile profile_id name width height
                                         include_horizontal include_vertical s))))
  /\ (forall profile_id,
        profiles_wf (app_catalog (snd (delete_resize_profile profile_id s)))).
Proof.
  intros (Hids & Hnames & Hle). split; [|split].
  - intros name width height ih iv.
    unfold add_resize_profile.
    destruct (in_int64 width && in_int64 height); [|done].
    unfold cat_transaction, insert_resize_profile.
    destruct (w_faults (app_world s)) as [|[msg|] fs]; simpl; [|done|].
    all: destruct (existsb _ (resize_profiles (app_catalog s))) eqn:Hex; simpl; [done|].
    all: unfold profiles_wf; simpl; rewrite !map_app; simpl.
    all: split; [|split].
    all: try (apply NoDup_app; split; [done|]; split; [|apply NoDup_singleton];
              intros x Hx Hx'; apply list_elem_of_singleton in Hx'; subst x;
              apply list_elem_of_fmap in Hx as (p & Hp & Hin)).
    all: try (rewrite Forall_forall in Hle; apply Hle in Hin; lia).
    all: try (assert (existsb (fun p => String.eqb (rp_name p) name)
                        (resize_profiles (app_catalog s)) = true) as Ht
                by (apply existsb_profile_name; eauto); congruence).
    all: apply Forall_app; split;
      [ eapply Forall_impl; [exact Hle|]; simpl; intros; lia
      | constructor; [simpl; lia | constructor] ].
  - intros profile_id name width height ih iv.
    unfold update_resize_profile.
    destruct (in_int64 width && in_int64 height && in_int64 profile_id); [|done].
    unfold bind, cat_transaction, update_resize_profiles, ret.
    destruct (filter (fun p => rp_id p = profile_id) (resize_profiles (app_catalog s)))
      as [|p0 matched] eqn:Hm.
    { destruct (w_faults (app_world s)) as [|[msg|] fs]; done. }
    destruct (existsb _ (resize_profiles (app_catalog s))) eqn:Hother.
    { destruct (w_faults (app_world s)) as [|[msg|] fs]; done. }
    assert (profiles_wf
              (with_resize_profiles
                 (map (fun p => if rp_id p =? profile_id
                                then updated_profile p name width height ih iv else p)
                    (resize_profiles (app_catalog s))) (app_catalog s))) as Hwf.
    { unfold profiles_wf. simpl. split; [|split].
      - rewrite <- list_fmap_compose.
        erewrite list_fmap_ext; [exact Hids|].
        intros i p _. simpl. destruct (rp_id p =? profile_id); reflexivity.
      - apply updated_names_NoDup; [done | done |].
        intros q Hq Hid Hn.
        assert (existsb (fun p => String.eqb (rp_name p) name
                                  && negb (rp_id p =? profile_id))
                  (resize_profiles (app_catalog s)) = true) as Ht
          by (apply existsb_other_name; eauto).
        congruence.
      - apply Forall_fmap. eapply Forall_impl; [exact Hle|]. simpl.
        intros p Hp. destruct (rp_id p =? profile_id); exact Hp. }
    destruct (w_faults (app_world s)) as [|[msg|] fs]; simpl; done.
  - intros profile_id.
    unfold delete_resize_profile, bind, cat_transaction, delete_resize_profiles, ret.
    assert (profiles_wf
              (with_resize_profiles
                 (filter (fun p => rp_id p <> profile_id)
                    (resize_profiles (app_catalog s))) (app_catalog s))) as Hwf.
    { unfold profiles_wf. simpl. split; [|split].
      - eapply sublist_NoDup; [exact Hids|]. apply fmap_sublist, sublist_filter.
      - eapply sublist_NoDup; [exact Hnames|]. apply fmap_sublist, sublist_filter.
      - apply Forall_forall. intros p Hp.
        apply list_elem_of_filter in Hp as [_ Hp].
        rewrite Forall_forall in Hle. by apply Hle. }
    destruct (w_faults (app_world s)) as [|[msg|] fs]; simpl; done.
Qed.

(** The empty table is well-formed, and stays so with its first profile. *)
Lemma profile_table_stays_well_formed_witness :
  profiles_wf (app_catalog (snd (add_resize_profile "sq" 1000 1000 true false app0))).
Proof.
  refine (proj1 (profile_table_stays_well_formed app0 _) "sq"%string 1000 1000 true false).
  split; [|split]; constructor.
Defined.

(** ** Listings *)

Lemma newest_first_total {A} (f : A -> timestamp) : Total (newest_first f).
Proof. intros a b. unfold newest_first. lia. Qed.

Lemma newest_first_trans {A} (f : A -> timestamp) : Transitive (newest_first f).
Proof. intros a b c. unfold newest_first. lia. Qed.

Lemma elem_of_joined d c rt da rp :
  (da, rp) ∈ joined d c rt
  <-> da ∈ downloaded_albums d /\ da_id da = rt_downloaded_album_id rt
      /\ rp ∈ resize_profiles c /\ rp_id rp = rt_profile_id rt.
Proof.
  unfold joined. rewrite list_elem_of_bind. split.
  - intros (da' & Hin & Hda). apply list_elem_of_bind in Hin as (rp' & Hin & Hrp).
    apply list_elem_of_singleton in Hin. injection Hin as -> ->.
    apply list_elem_of_filter in Hda as [? ?]. apply list_elem_of_filter in Hrp as [? ?].
    done.
  - intros (Hda & Hid & Hrp & Hid'). exists da. split.
    + apply list_elem_of_bind. exists rp. split; [apply list_elem_of_singleton; done|].
      by apply list_elem_of_filter.
    + by apply list_elem_of_filter.
Qed.

Lemma elem_of_select_completed_downloads d c row :
  row ∈ select_completed_downloads d c
  <-> exists rt da rp,
        resize_tasks d !! cd_id row = Some rt
        /\ rt_status rt = "completed"%string
        /\ is_Some (rt_zip_data rt)
        /\ da ∈ downloaded_albums d /\ da_id da = rt_downloaded_album_id rt
        /\ rp ∈ resize_profiles c /\ rp_id rp = rt_profile_id rt
        /\ cd_album_name row = da_album_name da
        /\ cd_profile_name row = rp_name rp
        /\ cd_zip_size row = rt_zip_size rt
        /\ cd_processed_count row = rt_processed_count rt
        /\ cd_created_at row = rt_created_at rt.
Proof.
  unfold select_completed_downloads. rewrite merge_sort_Permutation.
  rewrite list_elem_of_bind. split.
  - intros ([id rt] & Hin & Hrow). simpl in Hin.
    apply elem_of_map_to_list in Hrow.
    destruct (String.eqb_spec (rt_status rt) "completed") as [Hst|]; simpl in Hin;
      [|by apply elem_of_nil in Hin].
    destruct (bool_decide (is_Some (rt_zip_data rt))) eqn:Hz; simpl in Hin;
      [|by apply elem_of_nil in Hin].
    apply bool_decide_eq_true in Hz.
    apply list_elem_of_bind in Hin as ([da rp] & Hin & Hj).
    apply list_elem_of_singleton in Hin. subst row. simpl.
    apply elem_of_joined in Hj as (? & ? & ? & ?).
    exists rt, da, rp. done.
  - intros (rt & da & rp & Hrt & Hst & Hz & Hda & Hid & Hrp & Hid' & H1 & H2 & H3 & H4 & H5).
    exists (cd_id row, rt). split; [|by apply elem_of_map_to_list].
    simpl. rewrite Hst. simpl. rewrite bool_decide_eq_true_2 by done. simpl.
    apply list_elem_of_bind. exists (da, rp). split; [|by apply elem_of_joined].
    apply list_elem_of_singleton. simpl.
    destruct row. simpl in *. by subst.
Qed.

(** X26. [get_completed_downloads] changes nothing but the schedule of the
    store. When the store refuses the read it raises [OperationalError].
    Otherwise its rows are sorted by [created_at], newest first, and are
    exactly these: one for each resize task whose status is ['completed']
    and whose [zip_data] is not NULL, joined with an album row of its
    [downloaded_album_id] and a profile row of its [profile_id], carrying
    the task id, the album name, the profile name, [zip_size],
    [processed_count] and [created_at]. A task whose album or profile row is
    missing is not listed. *)
Theorem get_completed_downloads_lists s :
  exists rows,
    get_completed_downloads s
    = (unless_refused (app_world s) rows, with_faults (tail (w_faults (app_world s))) s)
    /\ Sorted (newest_first cd_created_at) rows
    /\ forall row,
         row ∈ rows <->
         exists rt da rp,
           resize_tasks (w_db (app_world s)) !! cd_id row = Some rt
           /\ rt_status rt = "completed"%string
           /\ is_Some (rt_zip_data rt)
           /\ da ∈ downloaded_albums (w_db (app_world s))
           /\ da_id da = rt_downloaded_album_id rt
           /\ rp ∈ resize_profiles (app_catalog s)
           /\ rp_id rp = rt_profile_id rt
           /\ cd_album_name row = da_album_name da
           /\ cd_profile_name row = rp_name rp
           /\ cd_zip_size row = rt_zip_size rt
           /\ cd_processed_count row = rt_processed_count rt
           /\ cd_created_at row = rt_created_at rt.
Proof.
  eexists. split; [apply app_query_outcome|]. split.
  - apply Sorted_merge_sort, newest_first_total.
  - intros row. apply elem_of_select_completed_downloads.
Qed.

Lemma delete_resize_profile_world profile_id s :
  w_db (app_world (snd (delete_resize_profile profile_id s))) = w_db (app_world s).
Proof.
  unfold delete_resize_profile, bind, cat_transaction, delete_resize_profiles, ret.
  destruct (w_faults (app_world s)) as [|[msg|] fs]; reflexivity.
Qed.

Lemma on_store_get_zip task_id s :
  fst (on_store (get_resize_task_zip task_id) s)
  = unless_refused (app_world s)
      (match select_completed_zip task_id (w_db (app_world s)) with
       | Some zip_data => zip_data
       | None => None
       end).
Proof. unfold on_store. by rewrite get_resize_task_zip_outcome. Qed.

(** X27. Deleting a profile that tasks refer to. SQLite does not enforce the
    foreign keys here, so a committed [delete_resize_profile] leaves the
    resize tasks as they are; a task made with the deleted profile is then
    absent from whatever [get_completed_downloads] returns, while
    [get_resize_task_zip] still gives for it what it gave before, under
    any behaviour of the store at the time of the read. *)
Theorem deleting_a_profile_hides_its_downloads profile_id s :
  refused (app_world s) = false ->
  let s' := snd (delete_resize_profile profile_id s) in
  resize_tasks (w_db (app_world s')) = resize_tasks (w_db (app_world s))
  /\ forall task_id rt,
       resize_tasks (w_db (app_world s)) !! task_id = Some rt ->
       rt_profile_id rt = profile_id ->
       (forall rows row,
          fst (get_completed_downloads s') = Returned rows -> row ∈ rows ->
          cd_id row <> task_id)
       /\ forall fs,
            fst (on_store (get_resize_task_zip task_id) (with_faults fs s'))
            = fst (on_store (get_resize_task_zip task_id) (with_faults fs s)).
Proof.
  intros Hok s'. subst s'.
  pose proof (delete_resize_profile_world profile_id s) as Hdb.
  pose proof (delete_resize_profile_catalog profile_id s Hok) as Hcat.
  split; [by rewrite Hdb|].
  intros task_id rt Hrt Hpid. split.
  - intros rows row Hret Hrow Hid.
    unfold get_completed_downloads in Hret. rewrite app_query_outcome in Hret.
    simpl in Hret. unfold unless_refused in Hret.
    assert (rows = select_completed_downloads
                     (w_db (app_world (snd (delete_resize_profile profile_id s))))
                     (app_catalog (snd (delete_resize_profile profile_id s)))) as ->.
    { destruct (w_faults _) as [|[msg|] fs]; [|discriminate|]; by injection Hret as <-. }
    apply elem_of_select_completed_downloads in Hrow
      as (rt' & da & rp & Hrt' & _ & _ & _ & _ & Hrp & Hrpid & _).
    rewrite Hdb, Hid, Hrt in Hrt'. injection Hrt' as <-.
    rewrite Hcat in Hrp. simpl in Hrp.
    apply list_elem_of_filter in Hrp as [Hne _]. congruence.
  - intros fs. rewrite !on_store_get_zip. simpl. by rewrite Hdb.
Qed.

(** The completed download of [app_example] is listed; once its profile is
    deleted it is not, and its archive is still served. *)
Lemma deleting_a_profile_hides_its_downloads_witness :
  map cd_id (select_completed_downloads (w_db (app_world app_example))
               (app_catalog app_example)) = ["r1"%string]
  /\ fst (get_completed_downloads (snd (delete_resize_profile 1 app_example)))
     = Returned []
  /\ fst (on_store (get_resize_task_zip "r1")
            (with_faults [] (snd (delete_resize_profile 1 app_example))))
     = Returned (Some [x50; x4b]%byte).
Proof.
  split; [vm_compute; reflexivity|]. split; [vm_compute; reflexivity|].
  rewrite (proj2 (proj2 (deleting_a_profile_hides_its_downloads 1 app_example eq_refl)
                    "r1"%string
                    {| rt_downloaded_album_id := 1; rt_profile_id := 1;
                       rt_status := "completed"; rt_progress := 10; rt_total := 10;
                       rt_current_step := Some "Initializing..."%string;
                       rt_zip_data := Some [x50; x4b]%byte; rt_zip_size := 2;
                       rt_processed_count := 10;
                       rt_created_at := 0; rt_completed_at := Some 0 |}
                    eq_refl eq_refl) []).
  reflexivity.
Defined.

(** X28. [get_active_tasks] never lists a task. Its [async with
    self._get_connection()] raises [TypeError] on every call, before either
    [SELECT]; the [except] clause is for [OperationalError] and does not
    apply, so the call neither prints nor returns the empty list: the error
    reaches the caller, whatever the tables hold and whatever the store
    does. The world is left as it was. *)
Theorem get_active_tasks_spec s :
  get_active_tasks s = (Raised (TypeError not_a_context_manager), s).
Proof.
  unfold get_active_tasks, try_except, async_with, _get_connection, raise.
  reflexivity.
Qed.

(* --------------------------------------------------------------------- *)
(** ** The gallery client *)

Import Api.

Lemma endswith_app a b : endswith (a ++ b)%string b = true.
Proof.
  induction a as [|c a IH].
  - destruct b as [|c b]; [reflexivity|].
    change (String.eqb (String c b) (String c b)
            || endswith b (String c b) = true).
    by rewrite String.eqb_refl.
  - change (String.eqb (String c (a ++ b)) b || endswith (a ++ b) b = true).
    rewrite IH. apply orb_true_r.
Qed.

Lemma endswith_split s suffix :
  endswith s suffix = true -> exists a, s = (a ++ suffix)%string.
Proof.
  induction s as [|c s IH].
  - change (String.eqb "" suffix || false = true -> exists a, ""%string = (a ++ suffix)%string).
    rewrite orb_false_r. intros H. apply String.eqb_eq in H. subst.
    exists ""%string. reflexivity.
  - change (String.eqb (String c s) suffix || endswith s suffix = true ->
            exists a, String c s = (a ++ suffix)%string).
    intros H. apply orb_true_iff in H as [H|H].
    + apply String.eqb_eq in H. exists ""%string. by rewrite <- H.
    + apply IH in H as [a ->]. exists (String c a). reflexivity.
Qed.

(** A string that ends with a character other than a slash is its own
    [rstrip]. *)
Lemma rstrip_slash_app a (c : ascii) :
  c <> "/"%char ->
  rstrip_slash (a ++ String c "")%string = (a ++ String c "")%string.
Proof.
  intros Hc. induction a as [|x a IH].
  - change (rstrip_slash (String c "") = String c "").
    simpl. by rewrite (proj2 (Ascii.eqb_neq _ _) Hc).
  - change (rstrip_slash (String x (a ++ String c "")) = String x (a ++ String c "")).
    simpl. rewrite IH.
    destruct (a ++ String c "")%string eqn:E; [|reflexivity].
    destruct a; discriminate.
Qed.

Lemma app_assoc_string (a b c : string) : ((a ++ b) ++ c = a ++ (b ++ c))%string.
Proof.
  induction a as [|x a IH]; [done|].
  change (String x ((a ++ b) ++ c) = String x (a ++ (b ++ c)))%string.
  by rewrite IH.
Qed.

Lemma rstrip_slash_api a : rstrip_slash (a ++ "/api")%string = (a ++ "/api")%string.
Proof.
  change "/api"%string with ("/ap" ++ String "i" "")%string.
  rewrite <- app_assoc_string. by apply rstrip_slash_app.
Qed.

Lemma rstrip_slash_trailing s : rstrip_slash (s ++ "/")%string = rstrip_slash s.
Proof.
  induction s as [|c s IH]; [reflexivity|].
  change (rstrip_slash (String c (s ++ "/")) = rstrip_slash (String c s)).
  simpl. by rewrite IH.
Qed.

Lemma endswith_trailing_slash s : endswith (s ++ "/")%string "/api" = false.
Proof.
  induction s as [|c s IH]; [reflexivity|].
  change (String.eqb (String c (s ++ "/")) "/api" || endswith (s ++ "/") "/api" = false).
  rewrite IH, orb_false_r. apply String.eqb_neq. intros H.
  destruct s as [|c1 [|c2 [|c3 [|c4 s]]]]; cbv in H; discriminate H.
Qed.

(** X29. The base URL of the gallery client always ends with [/api], and
    normalising it again changes nothing. But a URL that ends with [/api] and
    is given with a trailing slash gets the suffix twice: [<url>/] becomes
    [<url>/api]. *)
Theorem base_url_ends_with_api url :
  endswith (base_url url) "/api" = true
  /\ base_url (base_url url) = base_url url
  /\ (endswith url "/api" = true -> base_url (url ++ "/")%string = (url ++ "/api")%string).
Proof.
  assert (exists a, base_url url = (a ++ "/api")%string) as [a Ha].
  { unfold base_url. destruct (endswith url "/api") eqn:E.
    - apply endswith_split in E as [a ->]. exists a. apply rstrip_slash_api.
    - eexists. reflexivity. }
  split; [|split].
  - rewrite Ha. apply endswith_app.
  - rewrite Ha. unfold base_url. rewrite endswith_app. apply rstrip_slash_api.
  - intros E. unfold base_url. rewrite endswith_trailing_slash, rstrip_slash_trailing.
    apply endswith_split in E as [b ->]. by rewrite rstrip_slash_api.
Qed.

(** A URL given with the suffix and a trailing slash. *)
Lemma base_url_ends_with_api_witness :
  base_url "http://photos.local/api/" = "http://photos.local/api/api"%string.
Proof.
  exact (proj2 (proj2 (base_url_ends_with_api "http://photos.local/api")) eq_refl).
Defined.

(* --------------------------------------------------------------------- *)
(** ** The albums of the gallery *)

Import Gallery.

Lemma execute_on_disk now p0 p1 p2 c :
  on_disk (snd (execute now p0 p1 p2 c)) = on_disk c.
Proof.
  unfold execute.
  destruct (bind_parameter 0 p0) as [e|id]; [done|].
  destruct (bind_parameter 1 p1) as [e|name]; [done|].
  destruct (bind_parameter 2 p2) as [e|count]; [done|].
  destruct (writing c); [|destruct (faults c) as [|[msg|] fs]]; simpl; try done;
    destruct (insert_or_replace _ _ _ _ _); done.
Qed.

Lemma sync_album_on_disk now album c :
  on_disk (snd (sync_album now album c)) = on_disk c.
Proof.
  unfold sync_album.
  destruct (asset_count album) as [count|e]; [|done].
  destruct (getitem album "id") as [e|id]; [done|].
  destruct (getitem album "albumName") as [e|name]; [done|].
  apply execute_on_disk.
Qed.

Lemma for_each_album_on_disk now albums : forall c,
  on_disk (snd (for_each_album now albums c)) = on_disk c.
Proof.
  induction albums as [|album rest IH]; intros c; simpl; [done|].
  pose proof (sync_album_on_disk now album c) as H.
  destruct (sync_album now album c) as [[e|[]] c']; simpl in *; [done|].
  by rewrite IH.
Qed.

(** A record that is stored replaces the rows of its id and leaves the
    others. *)
Lemma sync_album_stored now album c c' :
  sync_album now album c = (inr tt, c') ->
  exists row,
    row_of now album = Some row
    /\ ia_id row = album_key album
    /\ seen c' = filter (fun r => album_key album = None \/ ia_id r <> album_key album)
                   (seen c) ++ [row].
Proof.
  unfold sync_album, row_of, album_key, getitem, execute.
  destruct (asset_count album) as [count|e]; [|discriminate].
  destruct (album !! "id") as [id|]; [|discriminate].
  destruct (album !! "albumName") as [name|]; [|discriminate].
  destruct (bind_parameter 0 id) as [e|id']; [discriminate|].
  destruct (bind_parameter 1 name) as [e|name']; [discriminate|].
  destruct (bind_parameter 2 count) as [e|count']; [discriminate|].
  unfold insert_or_replace.
  destruct (writing c); [|destruct (faults c) as [|[msg|] fs]]; simpl; try discriminate;
    (destruct (text_affinity name') as [n|]; [|discriminate]);
    intros [= <-]; simpl; eexists; (split; [reflexivity|]); split; reflexivity.
Qed.

Lemma rows_of_replaced id key row (rows : list immich_album) :
  ia_id row = key ->
  rows_of id (filter (fun r => key = None \/ ia_id r <> key) rows ++ [row])
  = if decide (key = Some id) then [row] else rows_of id rows.
Proof.
  intros Hrow. unfold rows_of. rewrite filter_app, filter_cons, filter_nil.
  rewrite list_filter_filter.
  destruct (decide (key = Some id)) as [->|Hne].
  - rewrite decide_True by done.
    induction rows as [|r rows IH]; [reflexivity|].
    rewrite filter_cons_False; [exact IH|].
    intros [Hr [?|Hk]]; [done | by apply Hk].
  - rewrite decide_False by congruence. rewrite app_nil_r.
    apply list_filter_iff. intros r. split; [by intros [? _]|].
    intros Hr. split; [done|]. right. congruence.
Qed.

Lemma for_each_album_rows now albums : forall c c',
  for_each_album now albums c = (inr tt, c') ->
  forall id,
    match last (filter (fun a => album_key a = Some id) albums) with
    | Some album =>
        exists row, row_of now album = Some row /\ rows_of id (seen c') = [row]
    | None => rows_of id (seen c') = rows_of id (seen c)
    end.
Proof.
  induction albums as [|album rest IH]; intros c c' Hrun id; simpl in *.
  - by injection Hrun as <-.
  - destruct (sync_album now album c) as [[e|[]] c1] eqn:Hstep; [discriminate|].
    apply sync_album_stored in Hstep as (row & Hrow & Hid & Hseen).
    specialize (IH c1 c' Hrun id).
    rewrite filter_cons.
    destruct (decide (album_key album = Some id)) as [Hk|Hk].
    + rewrite last_cons.
      destruct (last (filter _ rest)) as [b|]; [exact IH|].
      rewrite IH, Hseen, (rows_of_replaced id _ row _ Hid), decide_True by done.
      eauto.
    + destruct (last (filter _ rest)) as [b|]; [exact IH|].
      rewrite IH, Hseen, (rows_of_replaced id _ row _ Hid), decide_False by done.
      reflexivity.
Qed.

(** X30. [sync_immich_albums] is all or nothing. When the call raises (a
    record without ['id'] or ['albumName'], a value that [sqlite3] does not
    bind, a NULL name, a busy store) the table is as before: the records
    before the failing one are not stored either. When it returns, each id
    that occurs in the list has exactly one row, the row of the last record
    of this id, and the rows of every other id are as before; albums that
    are no longer in the list are not removed. *)
Theorem sync_immich_albums_all_or_nothing albums g :
  let out := sync_immich_albums albums g in
  match fst out with
  | inl _ => ga_albums (snd out) = ga_albums g
  | inr _ =>
      forall id,
        match last (filter (fun a => album_key a = Some id) albums) with
        | Some album =>
            exists row,
              row_of (ga_now g) album = Some row
              /\ rows_of id (ga_albums (snd out)) = [row]
        | None => rows_of id (ga_albums (snd out)) = rows_of id (ga_albums g)
        end
  end.
Proof.
  unfold sync_immich_albums.
  pose proof (for_each_album_on_disk (ga_now g) albums (connect g)) as Hdisk.
  destruct (for_each_album (ga_now g) albums (connect g)) as [[e|[]] c] eqn:Hrun; simpl.
  - exact Hdisk.
  - intros id. exact (for_each_album_rows _ _ _ _ Hrun id).
Qed.

(** The second of two albums has no name: the call raises [KeyError] and the
    first album is not stored either. *)
Lemma sync_immich_albums_all_or_nothing_witness :
  fst (sync_immich_albums two_albums gallery0) = inl (KeyError "albumName")
  /\ ga_albums (snd (sync_immich_albums two_albums gallery0)) = ga_albums gallery0.
Proof.
  split; [reflexivity|].
  pose proof (sync_immich_albums_all_or_nothing two_albums gallery0) as H.
  vm_compute in H. exact H.
Defined.
